(** * Scenario IR, selector repair and Playwright code generation

    A shallow embedding of the test-generation pipeline of the repository:

    - the scenario generator   ([LLMCompiler.generateGeminiScenarios],
      [GeminiService.generateTestScenarios], [GeminiService.parseGeminiResponse]),
    - the automation session   ([MCPClient]),
    - the selector-repair loop ([LLMCompiler.validateSelectorsWithMCP],
      [executeScenarioWithMCP], [executeStepWithMCP]),
    - the two code generators  ([generatePlaywrightTest] of the compile
      service and of the combined API server).

    Conventions of the embedding.

    - A JavaScript string is a [string]: one [ascii] per UTF-16 code unit, so
      the model covers the strings whose code units are below 256.
    - A JavaScript number that the code uses as an integer is a [Z]; [NaN]
      is kept apart ([number]).
    - An optional field ([data?: string]) is an [option].
    - Calls of the logger are dropped: they return nothing and the code never
      reads anything back from them.
    - Values that come back from [JSON.parse] are read at the types the
      TypeScript interfaces declare for them. *)

From Stdlib Require Import ZArith String Ascii List Bool Lia DecimalString.
Import ListNotations.

Open Scope string_scope.
Open Scope Z_scope.

(* ===================================================================== *)
(** ** JavaScript strings *)
(* ===================================================================== *)

Module JS.

(** The line feed and the double quote, which a literal cannot hold. *)
Definition nl : string := String "010"%char "".
Definition dq : string := String "034"%char "".

Definition code (c : ascii) : N := N_of_ascii c.

Definition is_upper (c : ascii) : bool := ((65 <=? code c) && (code c <=? 90))%N.
Definition is_lower (c : ascii) : bool := ((97 <=? code c) && (code c <=? 122))%N.
Definition is_digit (c : ascii) : bool := ((48 <=? code c) && (code c <=? 57))%N.

(** [[a-zA-Z0-9]] *)
Definition is_alnum (c : ascii) : bool := is_lower c || is_upper c || is_digit c.

(** [\s] on code units below 256: TAB, LF, VT, FF, CR, SP and NBSP. *)
Definition is_space (c : ascii) : bool :=
  (((9 <=? code c) && (code c <=? 13)) || (code c =? 32) || (code c =? 160))%N.

(** Canonicalisation of the [i] flag on an ASCII letter. *)
Definition to_lower (c : ascii) : ascii :=
  if is_upper c then ascii_of_N (code c + 32) else c.

Definition eqb_ci (a b : ascii) : bool := Ascii.eqb (to_lower a) (to_lower b).

Fixpoint filter (p : ascii -> bool) (s : string) : string :=
  match s with
  | EmptyString => EmptyString
  | String c r => if p c then String c (filter p r) else filter p r
  end.

Fixpoint forallb (p : ascii -> bool) (s : string) : bool :=
  match s with
  | EmptyString => true
  | String c r => p c && forallb p r
  end.

(** The longest prefix of characters satisfying [p], and what follows it. *)
Fixpoint span (p : ascii -> bool) (s : string) : string * string :=
  match s with
  | EmptyString => (EmptyString, EmptyString)
  | String c r =>
      if p c then let (a, b) := span p r in (String c a, b)
      else (EmptyString, s)
  end.

Fixpoint drop (n : nat) (s : string) : string :=
  match n, s with
  | O, _ => s
  | S _, EmptyString => EmptyString
  | S k, String _ r => drop k r
  end.

(** [s.startsWith(p)] *)
Fixpoint startsWith (s p : string) : bool :=
  match p, s with
  | EmptyString, _ => true
  | String _ _, EmptyString => false
  | String a p', String b s' => Ascii.eqb a b && startsWith s' p'
  end.

(** Case-insensitive prefix test, for an anchored [/^.../i]. *)
Fixpoint startsWith_ci (s p : string) : bool :=
  match p, s with
  | EmptyString, _ => true
  | String _ _, EmptyString => false
  | String a p', String b s' => eqb_ci a b && startsWith_ci s' p'
  end.

(** [s.includes(sub)] *)
Fixpoint includes (s sub : string) : bool :=
  startsWith s sub ||
  match s with
  | EmptyString => false
  | String _ r => includes r sub
  end.

(** [s.replace(pat, rep)] with a string pattern: the first occurrence only. *)
Fixpoint replace (s pat rep : string) : string :=
  if startsWith s pat then rep ++ drop (String.length pat) s
  else match s with
       | EmptyString => EmptyString
       | String c r => String c (replace r pat rep)
       end.

(** [s.replace(/^p/i, '')] for a literal [p]. *)
Definition strip_prefix_ci (s p : string) : string :=
  if startsWith_ci s p then drop (String.length p) s else s.

(** A regular expression without the [g] flag is tried at every position
    from the left; [m] is the match attempt at one position. *)
Fixpoint search {A : Type} (m : string -> option A) (s : string) : option A :=
  match m s with
  | Some a => Some a
  | None => match s with
            | EmptyString => None
            | String _ r => search m r
            end
  end.

(** [s.replace(re, ...)] for such an expression: [m] returns the replacement
    followed by the text after the match. *)
Fixpoint replace_match (m : string -> option string) (s : string) : string :=
  match m s with
  | Some r => r
  | None => match s with
            | EmptyString => EmptyString
            | String c r => String c (replace_match m r)
            end
  end.

(** [/\s+/g] replaced by one space: [in_run] tells that the run of white
    space the scan is in has already been replaced. *)
Fixpoint collapse_ws (in_run : bool) (s : string) : string :=
  match s with
  | EmptyString => EmptyString
  | String c r =>
      if is_space c
      then if in_run then collapse_ws true r else String " "%char (collapse_ws true r)
      else String c (collapse_ws false r)
  end.

(** [x || d] for an optional string [x]: the empty string is falsy. *)
Definition or_str (x : option string) (d : string) : string :=
  match x with
  | Some (String c r) => String c r
  | _ => d
  end.

(** Truthiness of an optional string. *)
Definition truthy (x : option string) : bool :=
  match x with
  | Some (String _ _) => true
  | _ => false
  end.

(** Template-literal rendering of an integer. *)
Definition of_Z (z : Z) : string := NilZero.string_of_int (Z.to_int z).

End JS.

(* ===================================================================== *)
(** ** Scenario IR *)
(* ===================================================================== *)

(** [TestStep].  The [action] is declared as a union of eight literals, but
    the values come from parsed JSON and from the compile request, whose
    schema says [z.string()]: the field is a string. *)
Record TestStep : Type := mkStep {
  action : string;
  target : string;
  data : option string;
  description : string
}.

Record TestScenario : Type := mkScenario {
  id : string;
  name : string;
  steps : list TestStep;
  timeTakenToCompile : option string;
  tags : option (list string)
}.

(** The recognised action kinds of [TestStep.action]. *)
Definition recognized_actions : list string :=
  ["goto"; "fill"; "click"; "expect"; "wait"; "type"; "select"; "hover"].

Definition is_recognized (a : string) : bool :=
  existsb (String.eqb a) recognized_actions.

(** [CompilationRequestSchema.options]. *)
Record CompileOptions : Type := mkOptions {
  emitPageObjects : bool;
  selectorStrategy : string;
  fileName : string;
  suiteId : string;
  runId : option string
}.

(* ===================================================================== *)
(** ** The regular expressions of the code generators *)
(* ===================================================================== *)

Module Regex.
Import JS.

Definition not_bracket (c : ascii) : bool :=
  negb (Ascii.eqb c "["%char || Ascii.eqb c "]"%char).
Definition not_close (c : ascii) : bool := negb (Ascii.eqb c "]"%char).
Definition is_quote (c : ascii) : bool :=
  Ascii.eqb c "'"%char || Ascii.eqb c "034"%char.
Definition not_quote (c : ascii) : bool := negb (is_quote c).
Definition not_apos (c : ascii) : bool := negb (Ascii.eqb c "'"%char).

(** [(?:\[([^\]]+)\])?] : the optional group never makes the match fail. *)
Definition role_name_group (s : string) : option string :=
  match s with
  | String c r =>
      if Ascii.eqb c "["%char then
        match span not_close r with
        | (String g gs, String _ _) => Some (String g gs)
        | _ => None
        end
      else None
  | EmptyString => None
  end.

(** [/role=([^[\]]+)(?:\[([^\]]+)\])?/] at one position: groups 1 and 2. *)
Definition role_at (s : string) : option (string * option string) :=
  if startsWith s "role=" then
    match span not_bracket (drop 5 s) with
    | (String g gs, rest) => Some (String g gs, role_name_group rest)
    | (EmptyString, _) => None
    end
  else None.

Definition match_role (s : string) : option (string * option string) :=
  search role_at s.

(** The expression [name=Q([^Q]+)Q], where [Q] is the class of the single
    and the double quote, at one position, replaced by its group 1. *)
Definition name_at (s : string) : option string :=
  if startsWith s "name=" then
    match drop 5 s with
    | String q r =>
        if is_quote q then
          match span not_quote r with
          | (String g gs, String _ after) => Some (String g gs ++ after)
          | _ => None
          end
        else None
    | EmptyString => None
    end
  else None.

Definition replace_name (s : string) : string := replace_match name_at s.

(** [/contains '([^']+)'/] at one position: group 1. *)
Definition contains_at (s : string) : option string :=
  if startsWith s "contains '" then
    match span not_apos (drop 10 s) with
    | (String g gs, String _ _) => Some (String g gs)
    | _ => None
    end
  else None.

Definition match_contains (s : string) : option string := search contains_at s.

(** [scenario.name.replace(/[^a-zA-Z0-9\s]/g, '').replace(/\s+/g, ' ')] *)
Definition testName (scenario_name : string) : string :=
  collapse_ws false (filter (fun c => is_alnum c || is_space c) scenario_name).

End Regex.

(* ===================================================================== *)
(** ** Code generators *)
(* ===================================================================== *)

(** [Array.prototype.forEach] with a callback that updates a captured
    variable: the variable is passed along, with the index of the element. *)
Fixpoint forEach {A S : Type} (f : S -> A -> nat -> S) (l : list A)
    (index : nat) (st : S) : S :=
  match l with
  | [] => st
  | x :: r => forEach f r (Datatypes.S index) (f st x index)
  end.

(** [if (index < scenario.steps.length - 1) { testCode += '\n'; }] *)
Definition separator (index len : nat) (testCode : string) : string :=
  if Z.of_nat index <? Z.of_nat len - 1 then testCode ++ JS.nl else testCode.

(** *** The compile service: [generatePlaywrightTest] of [/api/v1/compile] *)
Module CompilerApi.
Import JS Regex.

Definition indent : string := "  ".

Definition case_goto (step : TestStep) (testCode : string) : string :=
  let testCode := testCode ++ (indent ++ "// Navigate to the page" ++ nl) in
  let testCode := testCode ++ (indent ++ "await page.goto('" ++ target step ++ "');" ++ nl) in
  testCode.

Definition case_click (options : CompileOptions) (step : TestStep)
    (testCode : string) : string :=
  let testCode := testCode ++ (indent ++ "// Click on element" ++ nl) in
  if String.eqb (selectorStrategy options) "role-first" && startsWith (target step) "role="
  then
    match match_role (target step) with
    | Some (role, group2) =>
        let name := match group2 with
                    | Some g => if truthy (Some g) then Some (replace_name g) else None
                    | None => None
                    end in
        if truthy name
        then testCode ++ (indent ++ "await page.getByRole('" ++ role ++ "', { name: '"
                            ++ or_str name "" ++ "' }).click();" ++ nl)
        else testCode ++ (indent ++ "await page.getByRole('" ++ role ++ "').click();" ++ nl)
    | None =>
        testCode ++ (indent ++ "await page.locator('" ++ target step ++ "').click();" ++ nl)
    end
  else if startsWith (target step) "text="
  then
    let text := replace (target step) "text=" "" in
    testCode ++ (indent ++ "await page.getByText('" ++ text ++ "').click();" ++ nl)
  else
    testCode ++ (indent ++ "await page.locator('" ++ target step ++ "').click();" ++ nl).

Definition case_fill (options : CompileOptions) (step : TestStep)
    (testCode : string) : string :=
  let testCode := testCode ++ (indent ++ "// Fill input field" ++ nl) in
  if String.eqb (selectorStrategy options) "role-first" && startsWith (target step) "role="
  then
    match match_role (target step) with
    | Some (role, group2) =>
        let name := match group2 with
                    | Some g => if truthy (Some g) then Some (replace_name g) else None
                    | None => None
                    end in
        if truthy name
        then testCode ++ (indent ++ "await page.getByRole('" ++ role ++ "', { name: '"
                            ++ or_str name "" ++ "' }).fill('" ++ or_str (data step) ""
                            ++ "');" ++ nl)
        else testCode ++ (indent ++ "await page.locator('" ++ target step ++ "').fill('"
                            ++ or_str (data step) "" ++ "');" ++ nl)
    | None =>
        testCode ++ (indent ++ "await page.locator('" ++ target step ++ "').fill('"
                       ++ or_str (data step) "" ++ "');" ++ nl)
    end
  else
    testCode ++ (indent ++ "await page.locator('" ++ target step ++ "').fill('"
                   ++ or_str (data step) "" ++ "');" ++ nl).

Definition toBeVisible (step : TestStep) : string :=
  indent ++ "await expect(page.locator('" ++ target step ++ "')).toBeVisible();" ++ nl.

Definition case_expect (step : TestStep) (testCode : string) : string :=
  let testCode := testCode ++ (indent ++ "// Verify element" ++ nl) in
  if truthy (data step) && includes (or_str (data step) "") "visible"
  then testCode ++ toBeVisible step
  else if truthy (data step) && includes (or_str (data step) "") "text"
  then
    match match_contains (or_str (data step) "") with
    | Some textMatch1 =>
        testCode ++ (indent ++ "await expect(page.locator('" ++ target step
                       ++ "')).toContainText('" ++ textMatch1 ++ "');" ++ nl)
    | None => testCode ++ toBeVisible step
    end
  else testCode ++ toBeVisible step.

Definition case_wait (step : TestStep) (testCode : string) : string :=
  let testCode := testCode ++ (indent ++ "// Wait for element" ++ nl) in
  let testCode := testCode ++ (indent ++ "await page.waitForSelector('" ++ target step ++ "');" ++ nl) in
  testCode.

Definition case_default (step : TestStep) (testCode : string) : string :=
  let testCode := testCode ++ (indent ++ "// " ++ action step ++ ": " ++ description step ++ nl) in
  let testCode := testCode ++ (indent ++ "await page.locator('" ++ target step ++ "')."
                                 ++ action step ++ "();" ++ nl) in
  testCode.

(** The [switch (step.action)]. *)
Definition switch_action (options : CompileOptions) (step : TestStep)
    (testCode : string) : string :=
  if String.eqb (action step) "goto" then case_goto step testCode
  else if String.eqb (action step) "click" then case_click options step testCode
  else if String.eqb (action step) "fill" || String.eqb (action step) "type"
  then case_fill options step testCode
  else if String.eqb (action step) "expect" then case_expect step testCode
  else if String.eqb (action step) "wait" then case_wait step testCode
  else case_default step testCode.

(** The callback of [scenario.steps.forEach]. *)
Definition callback (options : CompileOptions) (len : nat)
    (testCode : string) (step : TestStep) (index : nat) : string :=
  separator index len (switch_action options step testCode).

Definition generatePlaywrightTest (scenario : TestScenario)
    (options : CompileOptions) : string :=
  let testName := testName (name scenario) in
  let testCode := "import { test, expect } from '@playwright/test';" ++ nl ++ nl in
  let testCode := testCode ++ ("test('" ++ testName ++ "', async ({ page }) => {" ++ nl) in
  let testCode :=
    forEach (callback options (List.length (steps scenario))) (steps scenario) 0%nat testCode in
  let testCode := testCode ++ ("});" ++ nl) in
  testCode.

(** The action kinds with a [case] of their own. *)
Definition handled (a : string) : bool :=
  existsb (String.eqb a) ["goto"; "click"; "fill"; "type"; "expect"; "wait"].

End CompilerApi.

(** *** The combined API server: [generatePlaywrightTest] of the generation
    endpoint *)
Module CombinedApi.
Import JS Regex.

Definition indent : string := "  ".

(** [ALLOWED_ACTIONS] *)
Definition ALLOWED_ACTIONS : list string := ["goto"; "fill"; "click"; "expect"].

Definition case_goto (step : TestStep) (testCode : string) : string :=
  let testCode := testCode ++ (indent ++ "// Navigate to the page" ++ nl) in
  let testCode := testCode ++ (indent ++ "await page.goto('" ++ target step ++ "');" ++ nl) in
  testCode.

Definition case_fill (options : CompileOptions) (step : TestStep)
    (testCode : string) : string :=
  let testCode := testCode ++ (indent ++ "// Fill input field" ++ nl) in
  if String.eqb (selectorStrategy options) "role-first" && startsWith (target step) "role="
  then
    match match_role (target step) with
    | Some (role, group2) =>
        let name := match group2 with
                    | Some g => if truthy (Some g) then Some (replace_name g) else None
                    | None => None
                    end in
        if truthy name
        then testCode ++ (indent ++ "await page.getByRole('" ++ role ++ "', { name: '"
                            ++ or_str name "" ++ "' }).fill('" ++ or_str (data step) ""
                            ++ "');" ++ nl)
        else testCode ++ (indent ++ "await page.getByRole('" ++ role ++ "').fill('"
                            ++ or_str (data step) "" ++ "');" ++ nl)
    | None =>
        testCode ++ (indent ++ "await page.locator('" ++ target step ++ "').fill('"
                       ++ or_str (data step) "" ++ "');" ++ nl)
    end
  else
    testCode ++ (indent ++ "await page.locator('" ++ target step ++ "').fill('"
                   ++ or_str (data step) "" ++ "');" ++ nl).

Definition case_click (options : CompileOptions) (step : TestStep)
    (testCode : string) : string :=
  let testCode := testCode ++ (indent ++ "// Click on element" ++ nl) in
  if String.eqb (selectorStrategy options) "role-first" && startsWith (target step) "role="
  then
    match match_role (target step) with
    | Some (role, group2) =>
        let name := match group2 with
                    | Some g => if truthy (Some g) then Some (replace_name g) else None
                    | None => None
                    end in
        if truthy name
        then testCode ++ (indent ++ "await page.getByRole('" ++ role ++ "', { name: '"
                            ++ or_str name "" ++ "' }).click();" ++ nl)
        else testCode ++ (indent ++ "await page.getByRole('" ++ role ++ "').click();" ++ nl)
    | None =>
        if startsWith (target step) "text="
        then
          let text := replace (target step) "text=" "" in
          testCode ++ (indent ++ "await page.getByText('" ++ text ++ "').click();" ++ nl)
        else
          testCode ++ (indent ++ "await page.locator('" ++ target step ++ "').click();" ++ nl)
    end
  else if startsWith (target step) "text="
  then
    let text := replace (target step) "text=" "" in
    testCode ++ (indent ++ "await page.getByText('" ++ text ++ "').click();" ++ nl)
  else
    testCode ++ (indent ++ "await page.locator('" ++ target step ++ "').click();" ++ nl).

Definition toBeVisible (step : TestStep) : string :=
  indent ++ "await expect(page.locator('" ++ target step ++ "')).toBeVisible();" ++ nl.

Definition case_expect (step : TestStep) (testCode : string) : string :=
  let testCode := testCode ++ (indent ++ "// Verify element" ++ nl) in
  if truthy (data step) && includes (or_str (data step) "") "visible"
  then testCode ++ toBeVisible step
  else if truthy (data step) && includes (or_str (data step) "") "text"
  then
    match match_contains (or_str (data step) "") with
    | Some textMatch1 =>
        testCode ++ (indent ++ "await expect(page.locator('" ++ target step
                       ++ "')).toContainText('" ++ textMatch1 ++ "');" ++ nl)
    | None => testCode ++ toBeVisible step
    end
  else testCode ++ toBeVisible step.

Definition case_default (step : TestStep) (testCode : string) : string :=
  let testCode := testCode ++ (indent ++ "// Unknown action: " ++ action step ++ nl) in
  let testCode := testCode ++ (indent ++ "// " ++ description step ++ nl) in
  testCode.

Definition switch_action (options : CompileOptions) (step : TestStep)
    (testCode : string) : string :=
  if String.eqb (action step) "goto" then case_goto step testCode
  else if String.eqb (action step) "fill" then case_fill options step testCode
  else if String.eqb (action step) "click" then case_click options step testCode
  else if String.eqb (action step) "expect" then case_expect step testCode
  else case_default step testCode.

Definition callback (options : CompileOptions) (len : nat)
    (testCode : string) (step : TestStep) (index : nat) : string :=
  separator index len (switch_action options step testCode).

Definition generatePlaywrightTest (scenario : TestScenario)
    (options : CompileOptions) : string :=
  let testName := testName (name scenario) in
  let testCode := "import { test, expect } from '@playwright/test';" ++ nl ++ nl in
  let testCode := testCode ++ ("test('" ++ testName ++ "', async ({ page }) => {" ++ nl) in
  let testCode :=
    forEach (callback options (List.length (steps scenario))) (steps scenario) 0%nat testCode in
  let testCode := testCode ++ ("});" ++ nl) in
  testCode.

Definition handled (a : string) : bool :=
  existsb (String.eqb a) ["goto"; "fill"; "click"; "expect"].

End CombinedApi.

(** The scenario of the round-trip example and the options it is compiled with. *)
Definition roundtrip_scenario : TestScenario :=
  mkScenario "scn_1" "Login"
    [ mkStep "goto" "https://x.test" None "open";
      mkStep "click" "#login" None "click login";
      mkStep "fill" "#user" (Some "bob") "enter user";
      mkStep "expect" "#welcome" (Some "visible") "welcome shown" ]
    None None.

Definition css_options : CompileOptions :=
  mkOptions true "css" "generated_test.spec.ts" "suite_generated" None.

Definition role_first_options : CompileOptions :=
  mkOptions true "role-first" "generated_test.spec.ts" "suite_generated" None.

(* ===================================================================== *)
(** ** The platform: exceptions, the outside world *)
(* ===================================================================== *)

(** What a [catch] clause receives: an [Error] with its message, or any
    other thrown value. *)
Inductive Thrown : Type :=
| ErrorObj (message : string)
| OtherValue.

(** [error instanceof Error ? error.message : fallback] *)
Definition message_or (e : Thrown) (fallback : string) : string :=
  match e with
  | ErrorObj m => m
  | OtherValue => fallback
  end.

Inductive Result (A : Type) : Type :=
| Ok (a : A)
| Throw (e : Thrown).
Arguments Ok {A} a.
Arguments Throw {A} e.

(** A JavaScript number: an integer or [NaN]. *)
Inductive number : Type :=
| Num (z : Z)
| NaN.

(** [x || d] for an optional number: [undefined], [0] and [NaN] are falsy. *)
Definition or_num (x : option number) (d : number) : number :=
  match x with
  | Some (Num z) => if z =? 0 then d else Num z
  | _ => d
  end.

(** The outcome of [JSON.parse] followed by property reads on its value:
    a [SyntaxError], the value [null] (on which a property read throws a
    [TypeError]), or a value whose properties are read at type [A]. *)
Inductive Parsed (A : Type) : Type :=
| SyntaxError (message : string)
| ParsedNull
| ParsedValue (a : A).
Arguments SyntaxError {A} message.
Arguments ParsedNull {A}.
Arguments ParsedValue {A} a.

(** An argument of a tool call. *)
Inductive ArgValue : Type :=
| AString (s : string)
| ANumber (n : number).

(** The result of [client.callTool]: [content] is [None] when the property
    is absent or is not an array. *)
Record ContentItem : Type := mkContent {
  type : string;
  text : string
}.

Record ToolResult : Type := mkToolResult {
  content : option (list ContentItem)
}.

(** The properties the client reads from a parsed tool reply. *)
Record ToolReply : Type := mkToolReply {
  reply_success : option bool;
  reply_improvedSelector : option string;
  reply_executionTime : option number
}.

(** [GeminiRequest] *)
Record GeminiRequest : Type := mkGeminiRequest {
  prompt_text : string;
  temperature : Z * Z;      (* a decimal fraction, numerator and denominator *)
  topK : Z;
  topP : Z * Z;
  maxOutputTokens : Z
}.

(** [GeminiResponse]: the generated candidates, each with the texts of its
    parts. *)
Record Candidate : Type := mkCandidate {
  parts : list string
}.

Record GeminiResponse : Type := mkGeminiResponse {
  candidates : option (list Candidate)
}.

(** The response of [fetch]: [json] is the outcome of [response.json()]. *)
Record HttpResponse : Type := mkHttpResponse {
  ok : bool;
  status : Z;
  body_text : string;
  json : Result GeminiResponse
}.

(** The scenario list as the text service words it, before defaulting. *)
Record RawStep : Type := mkRawStep {
  raw_action : option string;
  raw_target : option string;
  raw_data : option string;
  raw_description : option string
}.

Record RawScenario : Type := mkRawScenario {
  raw_id : option string;
  raw_name : option string;
  raw_steps : option (list RawStep);
  raw_tags : option (list string)
}.

(** [parsedResponse.scenarios]: absent or falsy, a value that is not an
    array, or an array. *)
Inductive ScenariosField : Type :=
| NoScenarios
| NotAnArray
| ScenarioArray (l : list RawScenario).

Record GeminiReply : Type := mkGeminiReply {
  scenarios : ScenariosField
}.

(** [PRDIntake] and its credentials. *)
Record Credentials : Type := mkCredentials {
  username : string;
  password : option string
}.

Record PRDIntake : Type := mkIntake {
  objective : string;
  url : string;
  credentials : option Credentials;
  intake_runId : option string
}.

(** Everything the code calls that lives outside the repository. *)
Class Platform : Type := {
  World : Type;
  (** [client.callTool({ name, arguments })] of the MCP SDK *)
  callTool : string -> list (string * ArgValue) -> World -> Result ToolResult * World;
  (** [client.connect(transport)] of the MCP SDK *)
  sdk_connect : World -> Result unit * World;
  (** [fetch(url, { method: 'POST', ..., body: JSON.stringify(request) })] *)
  fetch : string -> GeminiRequest -> World -> Result HttpResponse * World;
  (** [Date.now()] *)
  Date_now : World -> Z;
  (** [setTimeout] *)
  elapse : Z -> World -> World;
  (** [JSON.parse] on a tool reply and on the text of the text service *)
  JSON_parse_reply : string -> Parsed ToolReply;
  JSON_parse_scenarios : string -> Parsed GeminiReply;
  (** [parseInt] *)
  parseInt : string -> number;
  (** [new Date().toISOString()] *)
  toISOString : World -> string;
  (** the compiled schema [prd_intake] of the contracts package: [None] when
      the input is valid, the text of the errors otherwise *)
  validate_prd_intake : PRDIntake -> option string
}.

(** Computations that read and change the world and may throw. *)
Definition M `{Platform} (A : Type) : Type := World -> Result A * World.

Definition ret `{Platform} {A : Type} (a : A) : M A := fun w => (Ok a, w).

Definition throw `{Platform} {A : Type} (e : Thrown) : M A := fun w => (Throw e, w).

Definition bind `{Platform} {A B : Type} (m : M A) (k : A -> M B) : M B :=
  fun w => match m w with
           | (Ok a, w') => k a w'
           | (Throw e, w') => (Throw e, w')
           end.

(** [try { m } catch (error) { h error }] *)
Definition try_catch `{Platform} {A : Type} (m : M A) (h : Thrown -> M A) : M A :=
  fun w => match m w with
           | (Ok a, w') => (Ok a, w')
           | (Throw e, w') => h e w'
           end.

Definition now `{Platform} : M Z := fun w => (Ok (Date_now w), w).

(** [await new Promise(resolve => setTimeout(resolve, ms))]: always resolves. *)
Definition sleep `{Platform} (ms : Z) : M unit := fun w => (Ok tt, elapse ms w).

Declare Scope js_scope.
Delimit Scope js_scope with js.
Notation "x <- m ;; k" := (bind m (fun x => k))
  (at level 100, m at next level, right associativity) : js_scope.
Notation "' p <- m ;; k" := (bind m (fun p => k))
  (at level 100, p pattern, m at next level, right associativity) : js_scope.
Open Scope js_scope.

(** [await Promise.all(tasks)].  The tasks run interleaved; task [i] sees the
    outside world as [views i]: the answers the world gives to the calls of
    that task, in the order the task makes them.  Every interleaving is one
    choice of [views].  The promise is fulfilled with the results in the
    order of the tasks when all are fulfilled, and rejected as soon as one
    task is. *)
Fixpoint Promise_all `{Platform} {A : Type} (tasks : list (M A))
    (views : nat -> World) (i : nat) : Result (list A) :=
  match tasks with
  | [] => Ok []
  | t :: rest =>
      match fst (t (views i)), Promise_all rest views (S i) with
      | Ok a, Ok l => Ok (a :: l)
      | Throw e, _ => Throw e
      | Ok _, Throw e => Throw e
      end
  end.

(* ===================================================================== *)
(** ** The automation session: [MCPClient] *)
(* ===================================================================== *)

(** [MCPExecutionResult] *)
Record MCPExecutionResult : Type := mkResult {
  success : bool;
  improvedSelector : option string;
  error : option string;
  executionTime : option number
}.

(** The fields of an [MCPClient]: whether [client] and [transport] are set,
    and [isConnected]. *)
Record MCPClient : Type := mkClient {
  client : bool;
  isConnected : bool;
  transport : bool
}.

Definition new_MCPClient : MCPClient := mkClient false false false.

Module Client.
Import JS.
Section WithPlatform.
Context `{Platform}.

Definition failure (msg : string) : MCPExecutionResult :=
  mkResult false None (Some msg) None.

(** [async connect()] : the new state of the client and the answer. *)
Definition connect (this : MCPClient) : M (MCPClient * bool) :=
  let this := mkClient (client this) (isConnected this) true in
  let this := mkClient true (isConnected this) (transport this) in
  try_catch
    (_ <- sdk_connect ;;
     let this := mkClient (client this) true (transport this) in
     ret (this, true))
    (fun _ =>
       let this := mkClient (client this) false (transport this) in
       ret (this, false)).

(** [disconnect()] *)
Definition disconnect (this : MCPClient) : MCPClient :=
  let this := if client this then mkClient false (isConnected this) (transport this) else this in
  let this := if transport this then mkClient (client this) (isConnected this) false else this in
  mkClient (client this) false (transport this).

(** [result.content && Array.isArray(result.content) &&
     result.content.length > 0], then [content.type === 'text']:
    the text of the first item, when both tests pass. *)
Definition first_text (result : ToolResult) : option string :=
  match content result with
  | Some (c :: _) => if String.eqb (type c) "text" then Some (text c) else None
  | _ => None
  end.

(** [async validateSelector(selector)] *)
Definition validateSelector (this : MCPClient) (selector : string)
    : M MCPExecutionResult :=
  if negb (isConnected this) || negb (client this)
  then ret (failure "Not connected to MCP server")
  else
    try_catch
      (result <- callTool "playwright_validate_selector"
                   [("selector", AString selector); ("context", AString "validation")] ;;
       match first_text result with
       | Some content_text =>
           match JSON_parse_reply content_text with
           | ParsedValue parsed =>
               ret (mkResult true
                      (Some (or_str (reply_improvedSelector parsed) selector))
                      None
                      (Some (or_num (reply_executionTime parsed) (Num 0))))
           | _ =>
               (* If not JSON, treat as improved selector *)
               ret (mkResult true (Some content_text) None (Some (Num 0)))
           end
       | None => ret (mkResult true (Some selector) None (Some (Num 0)))
       end)
      (fun error => ret (failure (message_or error "Unknown error"))).

(** [private async navigate(url)] *)
Definition navigate (url : string) : M MCPExecutionResult :=
  try_catch
    (result <- callTool "playwright_navigate" [("url", AString url)] ;;
     match first_text result with
     | Some content_text =>
         match JSON_parse_reply content_text with
         | ParsedValue parsed =>
             ret (mkResult true None None
                    (Some (or_num (reply_executionTime parsed) (Num 1000))))
         | _ => ret (mkResult true None None (Some (Num 1000)))
         end
     | None => ret (mkResult true None None (Some (Num 1000)))
     end)
    (fun error => ret (failure (message_or error "Navigation failed"))).

(** [private async click(selector)] *)
Definition click (selector : string) : M MCPExecutionResult :=
  try_catch
    (result <- callTool "playwright_click" [("selector", AString selector)] ;;
     match first_text result with
     | Some content_text =>
         match JSON_parse_reply content_text with
         | ParsedValue parsed =>
             ret (mkResult true
                    (Some (or_str (reply_improvedSelector parsed) selector))
                    None
                    (Some (or_num (reply_executionTime parsed) (Num 500))))
         | _ => ret (mkResult true (Some selector) None (Some (Num 500)))
         end
     | None => ret (mkResult true (Some selector) None (Some (Num 500)))
     end)
    (fun error => ret (failure (message_or error "Click failed"))).

(** [private async fill(selector, data?)] *)
Definition fill (selector : string) (data : option string) : M MCPExecutionResult :=
  try_catch
    (result <- callTool "playwright_fill"
                 [("selector", AString selector); ("value", AString (or_str data ""))] ;;
     match first_text result with
     | Some content_text =>
         match JSON_parse_reply content_text with
         | ParsedValue parsed =>
             ret (mkResult true
                    (Some (or_str (reply_improvedSelector parsed) selector))
                    None
                    (Some (or_num (reply_executionTime parsed) (Num 500))))
         | _ => ret (mkResult true (Some selector) None (Some (Num 500)))
         end
     | None => ret (mkResult true (Some selector) None (Some (Num 500)))
     end)
    (fun error => ret (failure (message_or error "Fill failed"))).

(** [private async expect(selector)] *)
Definition expect (selector : string) : M MCPExecutionResult :=
  try_catch
    (result <- callTool "playwright_expect" [("selector", AString selector)] ;;
     match first_text result with
     | Some content_text =>
         match JSON_parse_reply content_text with
         | ParsedValue parsed =>
             ret (mkResult true
                    (Some (or_str (reply_improvedSelector parsed) selector))
                    None
                    (Some (or_num (reply_executionTime parsed) (Num 300))))
         | _ => ret (mkResult true (Some selector) None (Some (Num 300)))
         end
     | None => ret (mkResult true (Some selector) None (Some (Num 300)))
     end)
    (fun error => ret (failure (message_or error "Expect failed"))).

(** [private async wait(selector, duration?)] *)
Definition wait (selector : string) (duration : option string) : M MCPExecutionResult :=
  try_catch
    (result <- callTool "playwright_wait"
                 [("selector", AString selector);
                  ("timeout", ANumber (parseInt (or_str duration "1000")))] ;;
     match first_text result with
     | Some content_text =>
         match JSON_parse_reply content_text with
         | ParsedValue parsed =>
             ret (mkResult true None None
                    (Some (or_num (reply_executionTime parsed)
                             (parseInt (or_str duration "1000")))))
         | _ => ret (mkResult true None None (Some (parseInt (or_str duration "1000"))))
         end
     | None => ret (mkResult true None None (Some (parseInt (or_str duration "1000"))))
     end)
    (fun error => ret (failure (message_or error "Wait failed"))).

(** [private async type(selector, data?)] *)
Definition type_ (selector : string) (data : option string) : M MCPExecutionResult :=
  try_catch
    (result <- callTool "playwright_type"
                 [("selector", AString selector); ("text", AString (or_str data ""))] ;;
     match first_text result with
     | Some content_text =>
         match JSON_parse_reply content_text with
         | ParsedValue parsed =>
             ret (mkResult true
                    (Some (or_str (reply_improvedSelector parsed) selector))
                    None
                    (Some (or_num (reply_executionTime parsed) (Num 500))))
         | _ => ret (mkResult true (Some selector) None (Some (Num 500)))
         end
     | None => ret (mkResult true (Some selector) None (Some (Num 500)))
     end)
    (fun error => ret (failure (message_or error "Type failed"))).

(** [async executeStep(action, target, data?)] *)
Definition executeStep (this : MCPClient) (action target : string)
    (data : option string) : M MCPExecutionResult :=
  if negb (isConnected this) || negb (client this)
  then ret (failure "Not connected to MCP server")
  else
    try_catch
      (if String.eqb action "goto" then navigate target
       else if String.eqb action "click" then click target
       else if String.eqb action "fill" then fill target data
       else if String.eqb action "expect" then expect target
       else if String.eqb action "wait" then wait target data
       else if String.eqb action "type" then type_ target data
       else ret (failure ("Unknown action: " ++ action)))
      (fun error => ret (failure (message_or error "Unknown error"))).

End WithPlatform.
End Client.

(* ===================================================================== *)
(** ** The text service: [GeminiService] *)
(* ===================================================================== *)

(** [GeminiConfig] *)
Record GeminiConfig : Type := mkGeminiConfig {
  apiKey : string;
  model : string;
  baseUrl : string
}.

Module Gemini.
Import JS.

(** The [CREDENTIALS] line of the prompt. *)
Definition credentials_line (credentials : option Credentials) : string :=
  match credentials with
  | Some c =>
      "CREDENTIALS: Username: " ++ username c ++
      (if truthy (password c) then ", Password: " ++ or_str (password c) "" else "")
  | None => ""
  end.

(** [private buildPrompt(objective, url, credentials?)] *)
Definition buildPrompt (objective url : string) (credentials : option Credentials)
    : string :=
  "You are a test automation expert. Generate comprehensive test scenarios based on the following requirements:" ++ nl ++
  nl ++
  "OBJECTIVE: " ++ objective ++ nl ++
  "TARGET URL: " ++ url ++ nl ++
  credentials_line credentials ++ nl ++
  nl ++
  "Please generate AT LEAST 5 test scenarios in the following JSON format:" ++ nl ++
  nl ++
  "{" ++ nl ++
  "  " ++ dq ++ "scenarios" ++ dq ++ ": [" ++ nl ++
  "    {" ++ nl ++
  "      " ++ dq ++ "id" ++ dq ++ ": " ++ dq ++ "scn_1" ++ dq ++ "," ++ nl ++
  "      " ++ dq ++ "name" ++ dq ++ ": " ++ dq ++ "Scenario Name" ++ dq ++ "," ++ nl ++
  "      " ++ dq ++ "steps" ++ dq ++ ": [" ++ nl ++
  "        {" ++ nl ++
  "          " ++ dq ++ "action" ++ dq ++ ": " ++ dq ++ "goto|fill|click|expect|wait|type|select|hover" ++ dq ++ "," ++ nl ++
  "          " ++ dq ++ "target" ++ dq ++ ": " ++ dq ++ "ID selector only (e.g., #username, #login-button, #search-input)" ++ dq ++ "," ++ nl ++
  "          " ++ dq ++ "data" ++ dq ++ ": " ++ dq ++ "input data (for fill/type actions)" ++ dq ++ "," ++ nl ++
  "          " ++ dq ++ "description" ++ dq ++ ": " ++ dq ++ "Human readable step description" ++ dq ++ nl ++
  "        }" ++ nl ++
  "      ]," ++ nl ++
  "      " ++ dq ++ "tags" ++ dq ++ ": [" ++ dq ++ "tag1" ++ dq ++ ", " ++ dq ++ "tag2" ++ dq ++ "]" ++ nl ++
  "    }" ++ nl ++
  "  ]" ++ nl ++
  "}" ++ nl ++
  nl ++
  "CRITICAL REQUIREMENTS:" ++ nl ++
  "1. Generate AT LEAST 5 different test scenarios" ++ nl ++
  "2. Use ONLY ID selectors (#element-id) for the target field" ++ nl ++
  "3. DO NOT use CSS classes, data attributes, or other selectors" ++ nl ++
  "4. Include both positive and negative test cases" ++ nl ++
  "5. Cover different user flows and edge cases" ++ nl ++
  "6. Use realistic test data" ++ nl ++
  "7. Add appropriate wait times for dynamic content" ++ nl ++
  "8. Use descriptive step descriptions" ++ nl ++
  "9. Tag scenarios appropriately (smoke, regression, auth, etc.)" ++ nl ++
  nl ++
  "Example target values:" ++ nl ++
  "- " ++ dq ++ "#username" ++ dq ++ " (not " ++ dq ++ ".username" ++ dq ++ " or " ++ dq ++ "[data-testid='username']" ++ dq ++ ")" ++ nl ++
  "- " ++ dq ++ "#login-button" ++ dq ++ " (not " ++ dq ++ "button[type='submit']" ++ dq ++ " or " ++ dq ++ ".btn-primary" ++ dq ++ ")" ++ nl ++
  "- " ++ dq ++ "#search-input" ++ dq ++ " (not " ++ dq ++ "input[placeholder='Search']" ++ dq ++ " or " ++ dq ++ ".search-field" ++ dq ++ ")" ++ nl ++
  nl ++
  "Generate comprehensive scenarios that thoroughly test the given objective using only ID-based selectors.".

(** [/```json\s*([\s\S]*?)\s*```/] : the lazy group takes the shortest text
    after which white space and the closing fence follow. *)
Definition closes_fence (s : string) : bool :=
  startsWith (snd (span is_space s)) "```".

Fixpoint lazy_group (s : string) : option string :=
  if closes_fence s then Some EmptyString
  else match s with
       | EmptyString => None
       | String c r => option_map (String c) (lazy_group r)
       end.

Definition fence_at (s : string) : option string :=
  if startsWith s "```json"
  then lazy_group (snd (span is_space (drop 7 s)))
  else None.

(** [/\{[\s\S]*\}/] : from an opening brace to the last closing brace. *)
Fixpoint upto_last_brace (s : string) : option string :=
  match s with
  | EmptyString => None
  | String c r =>
      match upto_last_brace r with
      | Some t => Some (String c t)
      | None => if Ascii.eqb c "}"%char then Some (String c EmptyString) else None
      end
  end.

Definition object_at (s : string) : option string :=
  match s with
  | String c r =>
      if Ascii.eqb c "{"%char then option_map (String c) (upto_last_brace r) else None
  | EmptyString => None
  end.

Section WithPlatform.
Context `{Platform}.

(** [async generateTestScenarios(objective, url, credentials?)] *)
Definition generateTestScenarios (config : GeminiConfig) (objective url : string)
    (credentials : option Credentials) : M string :=
  try_catch
    (let prompt := buildPrompt objective url credentials in
     let request := mkGeminiRequest prompt (3, 10) 40 (95, 100) 4096 in
     response <- fetch (baseUrl config ++ "/v1beta/models/" ++ model config
                          ++ ":generateContent?key=" ++ apiKey config) request ;;
     if negb (ok response)
     then
       let errorText := body_text response in
       throw (ErrorObj ("Gemini API error: " ++ of_Z (status response) ++ " - " ++ errorText))
     else
       match json response with
       | Throw e => throw e
       | Ok data =>
           match candidates data with
           | None | Some [] => throw (ErrorObj "No response from Gemini API")
           | Some (c :: _) =>
               match parts c with
               | generatedText :: _ => ret generatedText
               | [] => throw (ErrorObj "TypeError")
               end
           end
       end)
    (fun error => throw error).

(** [async parseGeminiResponse(response)]: [None] is the value [null]. *)
Definition parseGeminiResponse (response : string) : M (option GeminiReply) :=
  try_catch
    (let jsonMatch := search fence_at response in
     let jsonText := match jsonMatch with Some g => g | None => response end in
     let jsonObjectMatch := search object_at jsonText in
     match jsonObjectMatch with
     | Some m0 =>
         match JSON_parse_scenarios m0 with
         | SyntaxError msg => throw (ErrorObj msg)
         | ParsedNull => ret None
         | ParsedValue v => ret (Some v)
         end
     | None => throw (ErrorObj "Could not extract JSON from Gemini response")
     end)
    (fun error =>
       throw (ErrorObj ("Failed to parse Gemini response: "
                          ++ message_or error "Unknown error"))).

End WithPlatform.
End Gemini.

(* ===================================================================== *)
(** ** The compiler: [LLMCompiler] *)
(* ===================================================================== *)

(** [LLMRunOutput] and [GenerationResult] *)
Record RunMetadata : Type := mkMetadata {
  generatedAt : string;
  meta_model : string;
  totalTime : option string;
  source : string;
  meta_mcpValidationSuccessful : option bool;
  stage : string
}.

Record LLMRunOutput : Type := mkRunOutput {
  run_id : string;
  outputs : list TestScenario;
  metadata : RunMetadata
}.

Record GenerationResult : Type := mkGenerationResult {
  geminiOutput : LLMRunOutput;
  mcpOutput : LLMRunOutput;
  mainOutput : LLMRunOutput;
  mcpValidationSuccessful : bool
}.

(** How the tasks of one [Promise.all] see the world, and the world once
    all of them are done. *)
Record Schedule `{Platform} : Type := mkSchedule {
  views : nat -> World;
  joined : World
}.

Module LLMCompiler.
Import JS.
Section WithPlatform.
Context `{Platform}.

(** [array.map(f)] with the index, for a callback that may throw. *)
Fixpoint map_indexed {A B : Type} (f : A -> nat -> Result B) (l : list A)
    (index : nat) : Result (list B) :=
  match l with
  | [] => Ok []
  | x :: r =>
      match f x index with
      | Throw e => Throw e
      | Ok y => match map_indexed f r (S index) with
                | Throw e => Throw e
                | Ok ys => Ok (y :: ys)
                end
      end
  end.

(** The step of a scenario of the reply, with its defaults. *)
Definition convert_step (step : RawStep) (stepIndex : nat) : Result TestStep :=
  Ok (mkStep (or_str (raw_action step) "click")
             (or_str (raw_target step) "#body")
             (raw_data step)
             (or_str (raw_description step) ("Step " ++ of_Z (Z.of_nat stepIndex + 1)))).

(** The scenario of the reply, with its defaults; [scenario.steps.map]
    throws a [TypeError] when there is no [steps]. *)
Definition convert_scenario (scenario : RawScenario) (index : nat)
    : Result TestScenario :=
  match raw_steps scenario with
  | None => Throw (ErrorObj "TypeError")
  | Some raw =>
      match map_indexed convert_step raw 0%nat with
      | Throw e => Throw e
      | Ok converted =>
          Ok (mkScenario
                (or_str (raw_id scenario) ("scn_" ++ of_Z (Z.of_nat index + 1)))
                (or_str (raw_name scenario)
                   ("Generated Scenario " ++ of_Z (Z.of_nat index + 1)))
                converted
                None
                (Some match raw_tags scenario with
                      | Some t => t
                      | None => ["generated"]
                      end))
      end
  end.

(** [private async generateGeminiScenarios(input)] *)
Definition generateGeminiScenarios (config : GeminiConfig) (input : PRDIntake)
    : M (list TestScenario) :=
  try_catch
    (geminiResponse <- Gemini.generateTestScenarios config
                         (objective input) (url input) (credentials input) ;;
     parsedResponse <- Gemini.parseGeminiResponse geminiResponse ;;
     match parsedResponse with
     | None => throw (ErrorObj "TypeError")
     | Some parsed =>
         match scenarios parsed with
         | ScenarioArray l =>
             match map_indexed convert_scenario l 0%nat with
             | Ok converted => ret converted
             | Throw e => throw e
             end
         | _ => throw (ErrorObj "Invalid response format from Gemini API")
         end
     end)
    (fun _ =>
       (* Return empty array if Gemini fails - no fallback *)
       ret []).

(** [validationResult.success && validationResult.improvedSelector] *)
Definition offers_selector (r : MCPExecutionResult) : bool :=
  success r && truthy (improvedSelector r).

(** The target after [if (offers_selector r) improvedTarget = r.improvedSelector] *)
Definition adopt (r : MCPExecutionResult) (improvedTarget : string) : string :=
  if offers_selector r then or_str (improvedSelector r) improvedTarget
  else improvedTarget.

Definition validated (improvedTarget : string) : string :=
  " (validated selector: " ++ improvedTarget ++ ")".

(** [private async executeStepWithMCP(step, url, isFirstStep)].  The two
    local variables [improvedTarget] and [improvedDescription] are passed
    along as a pair. *)
Definition executeStepWithMCP (this : MCPClient) (step : TestStep) (url : string)
    (isFirstStep : bool) : M TestStep :=
  let improvedTarget := target step in
  let improvedDescription := description step in
  '(improvedTarget, improvedDescription) <-
    try_catch
      (improvedDescription <-
         (if isFirstStep && String.eqb (action step) "goto"
          then
            result <- Client.executeStep this "goto" url None ;;
            if success result
            then ret ("Successfully navigated to " ++ url)
            else ret improvedDescription
          else ret improvedDescription) ;;
       if String.eqb (action step) "click" || String.eqb (action step) "fill"
          || String.eqb (action step) "expect"
       then
         validationResult <- Client.validateSelector this (target step) ;;
         let improvedTarget := adopt validationResult improvedTarget in
         executionResult <- Client.executeStep this (action step) improvedTarget (data step) ;;
         if success executionResult
         then
           if String.eqb (action step) "click"
           then
             let buttonText :=
               strip_prefix_ci (strip_prefix_ci (description step) "click on ") "click " in
             ret (improvedTarget,
                  "Successfully clicked on " ++ dq ++ buttonText ++ dq
                    ++ validated improvedTarget)
           else if String.eqb (action step) "fill"
           then
             let fieldName :=
               strip_prefix_ci (strip_prefix_ci (description step) "enter ") "fill " in
             ret (improvedTarget,
                  "Successfully filled " ++ dq ++ fieldName ++ dq ++ " field"
                    ++ validated improvedTarget)
           else if String.eqb (action step) "expect"
           then
             ret (improvedTarget,
                  "Successfully verified element exists" ++ validated improvedTarget)
           else ret (improvedTarget, improvedDescription)
         else
           (* Keep original description if execution fails *)
           ret (improvedTarget, description step)
       else if String.eqb (action step) "wait"
       then
         improvedTarget <-
           (if negb (String.eqb (target step) "#body")
            then
              validationResult <- Client.validateSelector this (target step) ;;
              ret (adopt validationResult improvedTarget)
            else ret improvedTarget) ;;
         result <- Client.executeStep this "wait" improvedTarget (data step) ;;
         if success result
         then ret (improvedTarget,
                   "Successfully waited for element" ++ validated improvedTarget)
         else ret (improvedTarget, improvedDescription)
       else if String.eqb (action step) "type"
       then
         validationResult <- Client.validateSelector this (target step) ;;
         let improvedTarget := adopt validationResult improvedTarget in
         result <- Client.executeStep this "type" improvedTarget (data step) ;;
         if success result
         then ret (improvedTarget, "Successfully typed text" ++ validated improvedTarget)
         else ret (improvedTarget, improvedDescription)
       else ret (improvedTarget, improvedDescription))
      (fun _ =>
         (* Keep original step if MCP execution fails *)
         ret (target step, description step)) ;;
  ret (mkStep (action step) improvedTarget (data step) improvedDescription).

(** The [for] loop of [executeScenarioWithMCP], from index [i] on, with the
    array [improvedSteps] built so far.  The pause after a step cannot throw,
    so a step is pushed once. *)
Fixpoint executeScenarioWithMCP_loop (this : MCPClient) (url : string)
    (steps : list TestStep) (i : nat) (improvedSteps : list TestStep)
    : M (list TestStep) :=
  match steps with
  | [] => ret improvedSteps
  | step :: rest =>
      improvedSteps <-
        try_catch
          (improvedStep <- executeStepWithMCP this step url (Nat.eqb i 0) ;;
           let improvedSteps := (improvedSteps ++ [improvedStep])%list in
           _ <- sleep 1000 ;;
           ret improvedSteps)
          (fun _ => ret (improvedSteps ++ [step])%list) ;;
      executeScenarioWithMCP_loop this url rest (S i) improvedSteps
  end.

(** [private async executeScenarioWithMCP(url, steps)] *)
Definition executeScenarioWithMCP (this : MCPClient) (url : string)
    (steps : list TestStep) : M (list TestStep) :=
  executeScenarioWithMCP_loop this url steps 0%nat [].

(** The task of one scenario: the callback of [scenarios.map]. *)
Definition scenario_task (this : MCPClient) (url : string) (scenario : TestScenario)
    : M TestScenario :=
  try_catch
    (scenarioStartTime <- now ;;
     improvedSteps <- executeScenarioWithMCP this url (steps scenario) ;;
     t <- now ;;
     let scenarioTime := t - scenarioStartTime in
     ret (mkScenario (id scenario) (name scenario) improvedSteps
            (Some (of_Z scenarioTime ++ "ms")) (tags scenario)))
    (fun _ => ret scenario).

(** [private async validateSelectorsWithMCP(url, scenarios)] *)
Definition validateSelectorsWithMCP (this : MCPClient) (url : string)
    (scenarios : list TestScenario) (sch : Schedule) : M (list TestScenario) :=
  fun _ =>
    (Promise_all (map (scenario_task this url) scenarios) (views sch) 0%nat,
     joined sch).

(** [async generateScenarios(input)], on a compiler whose client is [this];
    the result comes with the client as the call leaves it. *)
Definition generateScenarios (config : GeminiConfig) (this : MCPClient)
    (input : PRDIntake) (sch : Schedule) : M (GenerationResult * MCPClient) :=
  startTime <- now ;;
  try_catch
    (_ <- match validate_prd_intake input with
          | Some errorsText => throw (ErrorObj ("Invalid input: " ++ errorsText))
          | None => ret tt
          end ;;
     scenarios <- generateGeminiScenarios config input ;;
     t1 <- now ;;
     let geminiRunId := or_str (intake_runId input) ("run_" ++ of_Z t1) in
     generatedAt1 <- (fun w => (Ok (toISOString w), w)) ;;
     let geminiOutput :=
       mkRunOutput (geminiRunId ++ "_gemini") scenarios
         (mkMetadata generatedAt1 (model config) None "gemini_only" None
            "before_mcp_processing") in
     '(improvedScenarios, mcpValidationSuccessful, this) <-
       (fun w =>
          (* try ... catch (mcpError) ... finally disconnect *)
          match Client.connect this w with
          | (Ok (this, true), w) =>
              match validateSelectorsWithMCP this (url input) scenarios sch w with
              | (Ok improved, w) => (Ok (improved, true, Client.disconnect this), w)
              | (Throw _, w) => (Ok (scenarios, false, Client.disconnect this), w)
              end
          | (Ok (this, false), w) => (Ok (scenarios, false, Client.disconnect this), w)
          | (Throw _, w) => (Ok (scenarios, false, Client.disconnect this), w)
          end) ;;
     t2 <- now ;;
     let totalTime := t2 - startTime in
     t3 <- now ;;
     let runId := or_str (intake_runId input) ("run_" ++ of_Z t3) in
     generatedAt2 <- (fun w => (Ok (toISOString w), w)) ;;
     let mcpOutput :=
       mkRunOutput (runId ++ "_mcp") improvedScenarios
         (mkMetadata generatedAt2 (model config) (Some (of_Z totalTime ++ "ms"))
            "gemini_plus_mcp" (Some mcpValidationSuccessful) "after_mcp_processing") in
     ret (mkGenerationResult geminiOutput mcpOutput mcpOutput mcpValidationSuccessful,
          this))
    (fun error => throw error).

End WithPlatform.
End LLMCompiler.

(* ===================================================================== *)
(** ** A scripted platform, for running the code on examples *)
(* ===================================================================== *)

Module Scripted.
Import JS.

(** The world of the examples: the answers of the automation backend to
    the next tool calls, whether the backend can be reached, the answer of
    the text service, and the clock. *)
Record world : Type := mkWorld {
  tool_script : list (Result ToolResult);
  reachable : bool;
  http : Result HttpResponse;
  clock : Z
}.

Definition improved_text : string :=
  "{" ++ dq ++ "improvedSelector" ++ dq ++ ":" ++ dq ++ "[data-testid=login]" ++ dq ++ "}".

(** [JSON.parse] on the tool replies of the examples; the other texts the
    examples use are not JSON. *)
Definition parse_reply (text : string) : Parsed ToolReply :=
  if String.eqb text "{}" then ParsedValue (mkToolReply None None None)
  else if String.eqb text improved_text
  then ParsedValue (mkToolReply None (Some "[data-testid=login]") None)
  else if String.eqb text "null" then ParsedNull
  else SyntaxError "Unexpected token".

(** A reply of the text service with one scenario of two steps, the first
    with the action [drag], the second without an action. *)
Definition drag_text : string :=
  "{" ++ dq ++ "scenarios" ++ dq ++ ":[{" ++ dq ++ "name" ++ dq ++ ":" ++ dq ++ "Reorder" ++ dq
  ++ "," ++ dq ++ "steps" ++ dq ++ ":[{" ++ dq ++ "action" ++ dq ++ ":" ++ dq ++ "drag" ++ dq
  ++ "," ++ dq ++ "target" ++ dq ++ ":" ++ dq ++ "#card" ++ dq ++ "},{" ++ dq ++ "target" ++ dq
  ++ ":" ++ dq ++ "#save" ++ dq ++ "}]}]}".

Definition drag_reply : GeminiReply :=
  mkGeminiReply (ScenarioArray
    [ mkRawScenario None (Some "Reorder")
        (Some [ mkRawStep (Some "drag") (Some "#card") None None;
                mkRawStep None (Some "#save") None None ])
        None ]).

(** [JSON.parse] on the replies of the text service of the examples. *)
Definition parse_scenarios (text : string) : Parsed GeminiReply :=
  if String.eqb text drag_text then ParsedValue drag_reply
  else if String.eqb text "{}" then ParsedValue (mkGeminiReply NoScenarios)
  else SyntaxError "Unexpected token".

Definition next_reply (w : world) : Result ToolResult * world :=
  match tool_script w with
  | r :: rest => (r, mkWorld rest (reachable w) (http w) (clock w))
  | [] => (Throw (ErrorObj "connection closed"), w)
  end.

Definition platform : Platform := {|
  World := world;
  callTool := fun _ _ w => next_reply w;
  sdk_connect := fun w =>
    (if reachable w then Ok tt else Throw (ErrorObj "spawn npx ENOENT"), w);
  fetch := fun _ _ w => (http w, w);
  Date_now := clock;
  elapse := fun ms w => mkWorld (tool_script w) (reachable w) (http w) (clock w + ms);
  JSON_parse_reply := parse_reply;
  JSON_parse_scenarios := parse_scenarios;
  parseInt := fun _ => Num 1000;
  toISOString := fun _ => "2025-08-26T07:12:47.789Z";
  validate_prd_intake := fun _ => None
|}.

(** Tool results: no content, a text that is JSON, a text that is not. *)
Definition no_content : ToolResult := mkToolResult None.
Definition text_result (t : string) : ToolResult := mkToolResult (Some [mkContent "text" t]).

(** A connected client. *)
Definition connected : MCPClient := mkClient true true true.

Definition gemini_config : GeminiConfig :=
  mkGeminiConfig "key" "gemini-1.5-flash" "https://generativelanguage.googleapis.com".

Definition intake : PRDIntake := mkIntake "Reorder the cards" "https://x.test" None None.

(** The text service answers with [t] as the text of its first candidate. *)
Definition answering (t : string) : Result HttpResponse :=
  Ok (mkHttpResponse true 200 "" (Ok (mkGeminiResponse (Some [mkCandidate [t]])))).

(** The steps of the examples. *)
Definition click_login : TestStep := mkStep "click" "#login" None "Click on Login".
Definition fill_user : TestStep := mkStep "fill" "#user" (Some "bob") "Enter user name".
Definition hover_menu : TestStep := mkStep "hover" "#menu" None "Hover over the menu".

(** The backend throws on the validation call and performs the click. *)
Definition validation_down : world :=
  mkWorld [Throw (ErrorObj "Tool not found"); Ok no_content] true (answering "{}") 0.

(** The backend offers a better selector and then fails to fill the field. *)
Definition fill_down : world :=
  mkWorld [Ok (text_result improved_text); Throw (ErrorObj "Timeout 30000ms exceeded")]
    true (answering "{}") 0.

(** The backend throws on the two calls of a first step, then offers a better
    selector for the second step and performs it. *)
Definition first_step_down : world :=
  mkWorld [ Throw (ErrorObj "Timeout 30000ms exceeded");
            Throw (ErrorObj "Timeout 30000ms exceeded");
            Ok (text_result improved_text);
            Ok no_content ]
    true (answering "{}") 0.

(** The backend answers the validation call with a text that is not JSON. *)
Definition verbatim_validation : world :=
  mkWorld [Ok (text_result "button.primary")] true (answering "{}") 0.

(** The backend answers the validation call with a JSON reply that names
    no other selector. *)
Definition no_improvement : world :=
  mkWorld [Ok (text_result "{}")] true (answering "{}") 0.

(** The backend throws on every call. *)
Definition backend_down : world := mkWorld [] true (answering "{}") 0.

(** The backend answers the validation call without content. *)
Definition plain_validation : world := mkWorld [Ok no_content] true (answering "{}") 0.

(** The text service cannot be reached; it answers with status 503. *)
Definition fetch_rejects : world :=
  mkWorld [] true (Throw (ErrorObj "request to generativelanguage.googleapis.com failed")) 0.
Definition http_503 : world :=
  mkWorld [] true (Ok (mkHttpResponse false 503 "Service Unavailable" (Throw OtherValue))) 0.

(** The text service answers with [drag_text] in a fenced block. *)
Definition drag_world : world :=
  mkWorld [] false (answering ("Here you go:" ++ nl ++ "```json" ++ nl ++ drag_text ++ nl ++ "```")) 0.

End Scripted.

(* ===================================================================== *)
(** ** Notions used in the statements *)
(* ===================================================================== *)

(** The import line and the header of an emitted test, and its last line. *)
Definition import_line : string :=
  "import { test, expect } from '@playwright/test';" ++ JS.nl.

Definition test_header (title : string) : string :=
  "test('" ++ title ++ "', async ({ page }) => {" ++ JS.nl.

Definition closing_line : string := "});" ++ JS.nl.

(** The title of a test as the specification words it: in one pass, letters
    and digits are kept, a run of white space becomes one space, and every
    other character is removed. *)
Fixpoint sanitized_title (after_space : bool) (s : string) : string :=
  match s with
  | EmptyString => EmptyString
  | String c r =>
      if JS.is_alnum c then String c (sanitized_title false r)
      else if JS.is_space c
      then if after_space then sanitized_title true r
           else String " "%char (sanitized_title true r)
      else sanitized_title after_space r
  end.

(** No two spaces in a row. *)
Fixpoint single_spaced (s : string) : bool :=
  match s with
  | String a ((String b _) as r) =>
      negb (Ascii.eqb a " "%char && Ascii.eqb b " "%char) && single_spaced r
  | _ => true
  end.

(** [s] occurs in [t] with [pre] before it and [post] after it. *)
Definition occurs_in (s t : string) : Prop :=
  exists pre post, t = pre ++ s ++ post.

(** The statements of [parts], in this order, inside [t]. *)
Fixpoint in_order (parts : list string) (t : string) : Prop :=
  match parts with
  | [] => True
  | p :: rest => exists pre post, t = pre ++ p ++ post /\ in_order rest post
  end.

(** The text after the first occurrence of [p] in [t]. *)
Fixpoint find_after (p t : string) : option string :=
  if JS.startsWith t p then Some (JS.drop (String.length p) t)
  else match t with
       | EmptyString => None
       | String _ r => find_after p r
       end.

Fixpoint in_orderb (parts : list string) (t : string) : bool :=
  match parts with
  | [] => true
  | p :: rest =>
      match find_after p t with
      | Some post => in_orderb rest post
      | None => false
      end
  end.

(** The block of the compile service for an action without a case of its
    own: a comment with the action and the description, and a call of the
    method the action names. *)
Definition generic_call_block (step : TestStep) : string :=
  "  // " ++ action step ++ ": " ++ description step ++ JS.nl
  ++ "  await page.locator('" ++ target step ++ "')." ++ action step ++ "();" ++ JS.nl.

(** The block of the combined API server for such an action: two comments. *)
Definition comment_only_block (step : TestStep) : string :=
  "  // Unknown action: " ++ action step ++ JS.nl
  ++ "  // " ++ description step ++ JS.nl.

(** A scenario whose one step hovers over a menu. *)
Definition hover_scenario : TestScenario :=
  mkScenario "scn_1" "Menu" [Scripted.hover_menu] None None.

(** The block the compile service emits for one step. *)
Definition compiler_block (options : CompileOptions) (step : TestStep) : string :=
  CompilerApi.switch_action options step "".

(** The block the combined API server emits for one step. *)
Definition combined_block (options : CompileOptions) (step : TestStep) : string :=
  CombinedApi.switch_action options step "".

(** An emitted line is a statement when, after its indentation, it starts
    with [await]. *)
Definition is_statement_line (line : string) : bool :=
  JS.startsWith (snd (JS.span JS.is_space line)) "await".

(** The lines of a text that ends every line with a line feed. *)
Fixpoint lines_from (s cur : string) : list string :=
  match s with
  | EmptyString => match cur with EmptyString => [] | _ => [cur] end
  | String c r =>
      if Ascii.eqb c "010"%char then cur :: lines_from r EmptyString
      else lines_from r (cur ++ String c EmptyString)
  end.

Definition lines (s : string) : list string := lines_from s EmptyString.

(** The step lists of two scenarios agree step by step on action and data. *)
Definition same_actions_and_data (input output : TestScenario) : Prop :=
  map action (steps output) = map action (steps input)
  /\ map data (steps output) = map data (steps input).

(** *** The calls the repair of one step makes

    [executeStepWithMCP] validates the selector of a step first, at the
    start of the call, and executes the step afterwards.  The definitions
    below name the answers of the two calls. *)
Module Calls.
Section WithPlatform.
Context `{Platform}.

(** The step is one for which [validateSelector] is called. *)
Definition validates (step : TestStep) : bool :=
  String.eqb (action step) "click" || String.eqb (action step) "fill"
  || String.eqb (action step) "expect" || String.eqb (action step) "type"
  || (String.eqb (action step) "wait" && negb (String.eqb (target step) "#body")).

(** The step is one for which [executeStep] is called. *)
Definition executes (step : TestStep) (isFirstStep : bool) : bool :=
  (isFirstStep && String.eqb (action step) "goto")
  || String.eqb (action step) "click" || String.eqb (action step) "fill"
  || String.eqb (action step) "expect" || String.eqb (action step) "wait"
  || String.eqb (action step) "type".

(** The answer of the validation call, when there is one. *)
Definition validation_result (this : MCPClient) (step : TestStep) (w : World)
    : option MCPExecutionResult :=
  if validates step
  then match fst (Client.validateSelector this (target step) w) with
       | Ok r => Some r
       | Throw _ => None
       end
  else None.

Definition world_after_validation (this : MCPClient) (step : TestStep) (w : World)
    : World :=
  if validates step then snd (Client.validateSelector this (target step) w) else w.

(** The selector the step is executed with. *)
Definition executed_target (this : MCPClient) (step : TestStep) (w : World) : string :=
  match validation_result this step w with
  | Some r => LLMCompiler.adopt r (target step)
  | None => target step
  end.

(** The answer of the execution call, when there is one. *)
Definition execution_result (this : MCPClient) (step : TestStep) (url : string)
    (isFirstStep : bool) (w : World) : option MCPExecutionResult :=
  if isFirstStep && String.eqb (action step) "goto"
  then match fst (Client.executeStep this "goto" url None w) with
       | Ok r => Some r
       | Throw _ => None
       end
  else if executes step isFirstStep
  then match fst (Client.executeStep this (action step) (executed_target this step w)
                    (data step) (world_after_validation this step w)) with
       | Ok r => Some r
       | Throw _ => None
       end
  else None.

(** A call that was made reported a failure. *)
Definition reports_failure (r : option MCPExecutionResult) : bool :=
  match r with
  | Some r => negb (success r)
  | None => false
  end.

(** The transport of the request to the text service fails: [fetch]
    rejects, or the response is not [ok]. *)
Definition transport_fails (config : GeminiConfig) (input : PRDIntake) (w : World)
    : Prop :=
  match fst (fetch (baseUrl config ++ "/v1beta/models/" ++ model config
                      ++ ":generateContent?key=" ++ apiKey config)
               (mkGeminiRequest
                  (Gemini.buildPrompt (objective input) (url input) (credentials input))
                  (3, 10) 40 (95, 100) 4096) w) with
  | Throw _ => True
  | Ok response => ok response = false
  end.

(** The action of a step of a reply, after defaulting. *)
Definition defaulted_action (step : RawStep) : string :=
  JS.or_str (raw_action step) "click".

(** The steps of a scenario of a reply. *)
Definition steps_of (scenario : RawScenario) : list RawStep :=
  match raw_steps scenario with
  | Some l => l
  | None => []
  end.

(** The scenario of a reply has a [steps] array. *)
Definition has_steps (scenario : RawScenario) : bool :=
  match raw_steps scenario with
  | Some _ => true
  | None => false
  end.

End WithPlatform.
End Calls.

(* ===================================================================== *)
(** ** The servers around the code generators *)
(* ===================================================================== *)

(** *** The combined API server: action check, page objects, file names *)
Module CombinedServer.
Import JS.

(** What [validateScenarioActions] is given: the parsed reply, an object
    whose property [scenarios] is absent or an array, or an array itself. *)
Inductive ActionsInput : Type :=
| InputObject (scenarios_property : option (list RawScenario))
| InputArray (l : list RawScenario).

(** [ALLOWED_ACTIONS.includes(step.action)] *)
Definition allowed (a : option string) : bool :=
  match a with
  | Some a => existsb (String.eqb a) CombinedApi.ALLOWED_ACTIONS
  | None => false
  end.

(** The inner loop [for (const step of scenario.steps)]: [false] is the
    early [return false]. *)
Fixpoint steps_loop (steps : list RawStep) : bool :=
  match steps with
  | [] => true
  | step :: rest => if negb (allowed (raw_action step)) then false else steps_loop rest
  end.

(** The outer loop [for (const scenario of scenarioArray)]. *)
Fixpoint scenarios_loop (scenarioArray : list RawScenario) : bool :=
  match scenarioArray with
  | [] => true
  | scenario :: rest =>
      match raw_steps scenario with
      | None => false
      | Some steps => if steps_loop steps then scenarios_loop rest else false
      end
  end.

(** [function validateScenarioActions(scenarios)] *)
Definition validateScenarioActions (scenarios : ActionsInput) : bool :=
  match scenarios with
  | InputObject None => false
  | InputObject (Some scenarioArray) => scenarios_loop scenarioArray
  | InputArray scenarioArray => scenarios_loop scenarioArray
  end.

(** [Set.prototype.add] on a set kept in insertion order. *)
Definition set_add (x : string) (set : list string) : list string :=
  if existsb (String.eqb x) set then set else (set ++ [x])%list.

(** The page a [goto] step names. *)
Definition page_of (url : string) : string :=
  if includes url "amazon" then "Amazon"
  else if includes url "shop" then "Shop"
  else if includes url "login" then "Login"
  else "Main".

(** [function generatePageObjects(scenario)]; the compile service has the
    same function. *)
Definition generatePageObjects (scenario : TestScenario) : list string :=
  let pageNames :=
    forEach (fun pageNames step (_ : nat) =>
               if String.eqb (action step) "goto"
               then set_add (page_of (target step)) pageNames
               else pageNames)
      (steps scenario) 0%nat [] in
  forEach (fun pageObjects pageName (_ : nat) =>
             (pageObjects ++ [("pages/" ++ pageName ++ "Page.ts")%string])%list)
    pageNames 0%nat [].

(** [s.replace(re, r)] for a global expression that matches one character
    of the class [p]. *)
Fixpoint replace_chars (p : ascii -> bool) (r : ascii) (s : string) : string :=
  match s with
  | EmptyString => EmptyString
  | String c rest => String (if p c then r else c) (replace_chars p r rest)
  end.

(** [s.replace(/\s+/g, r)] for a one-character [r]. *)
Fixpoint replace_ws_runs (r : ascii) (in_run : bool) (s : string) : string :=
  match s with
  | EmptyString => EmptyString
  | String c rest =>
      if is_space c
      then if in_run then replace_ws_runs r true rest
           else String r (replace_ws_runs r true rest)
      else String c (replace_ws_runs r false rest)
  end.

(** [new Date().toISOString().replace(/[:.]/g, '-')], given the ISO text. *)
Definition timestamp (iso : string) : string :=
  replace_chars (fun c => Ascii.eqb c ":"%char || Ascii.eqb c "."%char) "-"%char iso.

(** [scenario.name.replace(/[^a-zA-Z0-9\s]/g, '_').replace(/\s+/g, '_')] *)
Definition file_stem (scenario_name : string) : string :=
  replace_ws_runs "_"%char false
    (replace_chars (fun c => negb (is_alnum c || is_space c)) "_"%char scenario_name).

(** [specFileName] of the generation endpoint. *)
Definition specFileName (scenario_name iso : string) : string :=
  file_stem scenario_name ++ "_" ++ timestamp iso ++ ".spec.ts".

(** The file name [saveToResultsFolder(data, prefix)] returns. *)
Definition results_filename (prefix iso : string) : string :=
  prefix ++ "_" ++ timestamp iso ++ ".json".

End CombinedServer.

(** *** Further notions used in the statements *)

(** A typed step and a typed scenario as the values they are in a reply. *)
Definition raw_of_step (step : TestStep) : RawStep :=
  mkRawStep (Some (action step)) (Some (target step)) (data step)
    (Some (description step)).

Definition raw_of_scenario (scenario : TestScenario) : RawScenario :=
  mkRawScenario (Some (id scenario)) (Some (name scenario))
    (Some (map raw_of_step (steps scenario))) (tags scenario).

(** The four page object files there are. *)
Definition page_object_files : list string :=
  ["pages/AmazonPage.ts"; "pages/ShopPage.ts"; "pages/LoginPage.ts"; "pages/MainPage.ts"].

(** The characters of an ISO time stamp, and the characters a file name is
    left with. *)
Definition iso_char (c : ascii) : bool :=
  JS.is_digit c || existsb (Ascii.eqb c) ["-"; "T"; ":"; "."; "Z"]%char.

Definition file_char (c : ascii) : bool :=
  JS.is_alnum c || Ascii.eqb c "_"%char || Ascii.eqb c "-"%char.

Definition not_backtick (c : ascii) : bool := negb (Ascii.eqb c "`"%char).
Definition not_open_brace (c : ascii) : bool := negb (Ascii.eqb c "{"%char).
Definition not_close_brace (c : ascii) : bool := negb (Ascii.eqb c "}"%char).

(** What [parseGeminiResponse] makes of the text [J] it hands to
    [JSON.parse]. *)
Definition parse_outcome `{Platform} (J : string) (w : World)
    : Result (option GeminiReply) * World :=
  match JSON_parse_scenarios J with
  | SyntaxError msg =>
      (Throw (ErrorObj ("Failed to parse Gemini response: " ++ msg)), w)
  | ParsedNull => (Ok None, w)
  | ParsedValue v => (Ok (Some v), w)
  end.

(** The tool [executeStep] calls for an action, with its arguments. *)
Definition tool_call `{Platform} (action target : string) (data : option string)
    : option (string * list (string * ArgValue)) :=
  if String.eqb action "goto"
  then Some ("playwright_navigate", [("url", AString target)])
  else if String.eqb action "click"
  then Some ("playwright_click", [("selector", AString target)])
  else if String.eqb action "fill"
  then Some ("playwright_fill",
             [("selector", AString target); ("value", AString (JS.or_str data ""))])
  else if String.eqb action "expect"
  then Some ("playwright_expect", [("selector", AString target)])
  else if String.eqb action "wait"
  then Some ("playwright_wait",
             [("selector", AString target);
              ("timeout", ANumber (parseInt (JS.or_str data "1000")))])
  else if String.eqb action "type"
  then Some ("playwright_type",
             [("selector", AString target); ("text", AString (JS.or_str data ""))])
  else None.

(** A call that was made reported a success. *)
Definition reports_success (r : option MCPExecutionResult) : bool :=
  match r with
  | Some r => success r
  | None => false
  end.

(** The steps for which the two code generators have the same case: [goto],
    [click] and [expect] steps, and [fill] steps that are not resolved by
    role. *)
Definition same_case (options : CompileOptions) (step : TestStep) : bool :=
  String.eqb (action step) "goto" || String.eqb (action step) "click"
  || String.eqb (action step) "expect"
  || (String.eqb (action step) "fill"
      && negb (String.eqb (selectorStrategy options) "role-first"
               && JS.startsWith (target step) "role=")).

(** The symbolic role expression [role=<role>[name='<name>']]. *)
Definition role_expression (role name : string) : string :=
  "role=" ++ role ++ "[name='" ++ name ++ "']".

(** Further worlds of the scripted platform. *)
Module ScriptedMore.
Import Scripted.

(** The backend answers one call with an empty JSON object. *)
Definition click_answered : world :=
  mkWorld [Ok (text_result "{}")] true (answering "{}") 0.

(** The text service answers with JSON that has no scenarios. *)
Definition empty_object_world : world := mkWorld [] false (answering "{}") 0.

(** A scenario that opens two shops and a login page. *)
Definition shopping : TestScenario :=
  mkScenario "scn_2" "Shop & pay"
    [ mkStep "goto" "https://shop.example/" None "open";
      mkStep "click" "#buy" None "buy";
      mkStep "goto" "https://shop.example/cart" None "cart";
      mkStep "goto" "https://example.com/login" None "login" ]
    None None.

End ScriptedMore.

(** *** The steps of a scenario, repaired in turn *)

(** [repaired_in_turn this url i steps w outs w_end]: the steps [steps], the
    first of which is at the place [i] of its scenario, are handed one after
    the other to [executeStepWithMCP], the step at place [0] as the first
    step; [outs] holds what these calls return, in their order.  The first
    call is made in the world [w], every later one in the world its
    predecessor has left, one second later; [w_end] is the world one second
    after the last call. *)
Inductive repaired_in_turn `{Platform} (this : MCPClient) (url : string)
    : nat -> list TestStep -> World -> list TestStep -> World -> Prop :=
| no_step_left (i : nat) (w : World) :
    repaired_in_turn this url i [] w [] w
| step_repaired (i : nat) (step : TestStep) (rest : list TestStep) (w : World)
      (out : TestStep) (w' : World) (outs : list TestStep) (w_end : World) :
    LLMCompiler.executeStepWithMCP this step url (Nat.eqb i 0) w = (Ok out, w') ->
    repaired_in_turn this url (S i) rest (elapse 1000 w') outs w_end ->
    repaired_in_turn this url i (step :: rest) w (out :: outs) w_end.

(** *** What a code generator reads of its arguments *)

(** Two steps a generator cannot tell apart: they have the same action, the
    same target and the same data, and, when the generator has no case for the
    action (the only case in which it reads the description), the same
    description. *)
Definition read_alike (handled : string -> bool) (a b : TestStep) : Prop :=
  action a = action b /\ target a = target b /\ data a = data b
  /\ (handled (action a) = false -> description a = description b).

(** The round-trip scenario once more, under another id, with other
    descriptions, with tags and a compile time; and other options with the
    same selector strategy. *)
Definition roundtrip_scenario_again : TestScenario :=
  mkScenario "scn_7" "Login"
    [ mkStep "goto" "https://x.test" None "first";
      mkStep "click" "#login" None "second";
      mkStep "fill" "#user" (Some "bob") "third";
      mkStep "expect" "#welcome" (Some "visible") "fourth" ]
    (Some "1200ms") (Some ["smoke"]).

Definition css_options_again : CompileOptions :=
  mkOptions false "css" "login.spec.ts" "suite_login" (Some "run_7").

(* ===================================================================== *)
(** ** Strings *)
(* ===================================================================== *)

Lemma append_assoc (a b c : string) : (a ++ b) ++ c = a ++ (b ++ c).
Proof.
  induction a as [|x a IH]; simpl.
  - reflexivity.
  - now rewrite IH.
Qed.

Lemma append_empty_r (a : string) : a ++ "" = a.
Proof.
  induction a as [|x a IH]; simpl; [reflexivity | now rewrite IH].
Qed.

Lemma alnum_not_space (c : ascii) : JS.is_alnum c = true -> JS.is_space c = false.
Proof.
  destruct c as [[] [] [] [] [] [] [] []]; vm_compute; congruence.
Qed.

Lemma alnum_not_apostrophe (c : ascii) :
  JS.is_alnum c = true -> Ascii.eqb c "'"%char = false.
Proof.
  destruct c as [[] [] [] [] [] [] [] []]; vm_compute; congruence.
Qed.

(** The two passes of [testName] do what the one pass of the specification
    does. *)
Lemma collapse_filter_sanitized (s : string) (b : bool) :
  JS.collapse_ws b (JS.filter (fun c => JS.is_alnum c || JS.is_space c) s)
  = sanitized_title b s.
Proof.
  revert b; induction s as [|c r IH]; intro b; simpl.
  - reflexivity.
  - destruct (JS.is_alnum c) eqn:Ha; simpl.
    + rewrite (alnum_not_space c Ha). now rewrite IH.
    + destruct (JS.is_space c) eqn:Hs; simpl.
      * rewrite Hs. destruct b; now rewrite IH.
      * apply IH.
Qed.

Lemma sanitized_chars (s : string) (b : bool) :
  JS.forallb (fun c => JS.is_alnum c || Ascii.eqb c " "%char) (sanitized_title b s) = true.
Proof.
  revert b; induction s as [|c r IH]; intro b; simpl.
  - reflexivity.
  - destruct (JS.is_alnum c) eqn:Ha; simpl.
    + now rewrite Ha, IH.
    + destruct (JS.is_space c); [destruct b|]; simpl; now rewrite ?IH.
Qed.

Lemma sanitized_no_apostrophe (s : string) (b : bool) :
  JS.forallb (fun c => negb (Ascii.eqb c "'"%char)) (sanitized_title b s) = true.
Proof.
  revert b; induction s as [|c r IH]; intro b; simpl.
  - reflexivity.
  - destruct (JS.is_alnum c) eqn:Ha; simpl.
    + now rewrite (alnum_not_apostrophe c Ha), IH.
    + destruct (JS.is_space c); [destruct b|]; simpl; now rewrite ?IH.
Qed.

(** After a space was emitted, the title does not go on with a space. *)
Lemma sanitized_after_space (s : string) :
  match sanitized_title true s with
  | String a _ => Ascii.eqb a " "%char = false
  | EmptyString => True
  end.
Proof.
  induction s as [|c r IH]; simpl.
  - exact I.
  - destruct (JS.is_alnum c) eqn:Ha.
    + destruct c as [[] [] [] [] [] [] [] []]; vm_compute in Ha |- *; congruence.
    + destruct (JS.is_space c); exact IH.
Qed.

Lemma sanitized_single_spaced (s : string) (b : bool) :
  single_spaced (sanitized_title b s) = true.
Proof.
  revert b; induction s as [|c r IH]; intro b.
  - reflexivity.
  - cbn [sanitized_title].
    destruct (JS.is_alnum c) eqn:Ha.
    + specialize (IH false).
      cbn [single_spaced]. destruct (sanitized_title false r) eqn:E; [reflexivity|].
      rewrite IH.
      assert (Ascii.eqb c " "%char = false) as ->
        by (destruct c as [[] [] [] [] [] [] [] []]; vm_compute in Ha |- *; congruence).
      reflexivity.
    + destruct (JS.is_space c).
      * destruct b; [apply IH|].
        pose proof (sanitized_after_space r) as Hn. specialize (IH true).
        cbn [single_spaced]. destruct (sanitized_title true r) eqn:E; [reflexivity|].
        rewrite IH, Hn. reflexivity.
      * apply IH.
Qed.

Lemma sanitized_keeps_alnum (s : string) (b : bool) :
  JS.filter JS.is_alnum (sanitized_title b s) = JS.filter JS.is_alnum s.
Proof.
  revert b; induction s as [|c r IH]; intro b; simpl.
  - reflexivity.
  - destruct (JS.is_alnum c) eqn:Ha; simpl.
    + now rewrite Ha, IH.
    + destruct (JS.is_space c); [destruct b|]; simpl; now rewrite ?IH.
Qed.

(* ===================================================================== *)
(** ** The code generators append block after block *)
(* ===================================================================== *)

Ltac split_branches :=
  cbv zeta;
  repeat match goal with
         | |- context [if ?b then _ else _] => destruct b
         | |- context [match ?x with Some _ => _ | None => _ end] => destruct x
         | |- context [let (_, _) := ?x in _] => destruct x
         end.

Ltac reassociate := rewrite ?append_assoc; reflexivity.

Lemma compiler_switch_appends (options : CompileOptions) (step : TestStep)
    (testCode : string) :
  CompilerApi.switch_action options step testCode
  = testCode ++ compiler_block options step.
Proof.
  unfold compiler_block, CompilerApi.switch_action, CompilerApi.case_goto,
    CompilerApi.case_click, CompilerApi.case_fill, CompilerApi.case_expect,
    CompilerApi.case_wait, CompilerApi.case_default.
  split_branches; reassociate.
Qed.

Lemma combined_switch_appends (options : CompileOptions) (step : TestStep)
    (testCode : string) :
  CombinedApi.switch_action options step testCode
  = testCode ++ combined_block options step.
Proof.
  unfold combined_block, CombinedApi.switch_action, CombinedApi.case_goto,
    CombinedApi.case_click, CombinedApi.case_fill, CombinedApi.case_expect,
    CombinedApi.case_default.
  split_branches; reassociate.
Qed.

Lemma separator_last (index len : nat) (testCode : string) :
  len = S index -> separator index len testCode = testCode.
Proof.
  intros ->. unfold separator.
  destruct (Z.ltb_spec (Z.of_nat index) (Z.of_nat (S index) - 1)); [lia | reflexivity].
Qed.

Lemma separator_inner (index len : nat) (testCode : string) :
  (S index < len)%nat -> separator index len testCode = testCode ++ JS.nl.
Proof.
  intros Hlt. unfold separator.
  destruct (Z.ltb_spec (Z.of_nat index) (Z.of_nat len - 1)); [reflexivity | lia].
Qed.

(** A loop whose callback appends a block per element, and a line feed
    after every element but the last, appends the blocks joined by line
    feeds. *)
Lemma forEach_appends (block : TestStep -> string)
    (f : string -> TestStep -> nat -> string) (len : nat) :
  (forall testCode step index,
      f testCode step index = separator index len (testCode ++ block step)) ->
  forall (l : list TestStep) (index : nat) (testCode : string),
    len = (index + List.length l)%nat ->
    forEach f l index testCode = testCode ++ String.concat JS.nl (map block l).
Proof.
  intros Hf l; induction l as [|x r IH]; intros index testCode Hlen.
  - simpl. now rewrite append_empty_r.
  - cbn [forEach]. rewrite Hf. destruct r as [|y r'].
    + rewrite separator_last by (simpl in Hlen; lia). reflexivity.
    + rewrite separator_inner by (simpl in Hlen; lia).
      rewrite IH by (simpl in *; lia).
      change (String.concat JS.nl (map block (x :: y :: r')))
        with (block x ++ JS.nl ++ String.concat JS.nl (map block (y :: r'))).
      now rewrite !append_assoc.
Qed.

(** The text the compile service emits: the import line, an empty line, the
    header, the blocks of the steps in their order, the closing line. *)
Lemma compiler_generate_shape (scenario : TestScenario) (options : CompileOptions) :
  CompilerApi.generatePlaywrightTest scenario options
  = import_line ++ JS.nl ++ test_header (Regex.testName (name scenario))
      ++ String.concat JS.nl (map (compiler_block options) (steps scenario))
      ++ closing_line.
Proof.
  unfold CompilerApi.generatePlaywrightTest. cbv zeta.
  rewrite (forEach_appends (compiler_block options)
             (CompilerApi.callback options (List.length (steps scenario)))
             (List.length (steps scenario))).
  - unfold import_line, test_header, closing_line. now rewrite !append_assoc.
  - intros testCode step index. unfold CompilerApi.callback.
    now rewrite compiler_switch_appends.
  - reflexivity.
Qed.

Lemma combined_generate_shape (scenario : TestScenario) (options : CompileOptions) :
  CombinedApi.generatePlaywrightTest scenario options
  = import_line ++ JS.nl ++ test_header (Regex.testName (name scenario))
      ++ String.concat JS.nl (map (combined_block options) (steps scenario))
      ++ closing_line.
Proof.
  unfold CombinedApi.generatePlaywrightTest. cbv zeta.
  rewrite (forEach_appends (combined_block options)
             (CombinedApi.callback options (List.length (steps scenario)))
             (List.length (steps scenario))).
  - unfold import_line, test_header, closing_line. now rewrite !append_assoc.
  - intros testCode step index. unfold CombinedApi.callback.
    now rewrite combined_switch_appends.
  - reflexivity.
Qed.

(** A block of a step is where the step is: after the blocks of the steps
    before it and before the blocks of the steps after it. *)
Lemma concat_blocks_split (block : TestStep -> string) (before after : list TestStep)
    (step : TestStep) :
  exists pre post,
    String.concat JS.nl (map block (before ++ step :: after))
    = pre ++ block step ++ post
    /\ (before = [] -> pre = "")
    /\ (after = [] -> post = "").
Proof.
  induction before as [|b before IH].
  - exists "". destruct after as [|a after].
    + exists "". simpl. rewrite append_empty_r. auto.
    + exists (JS.nl ++ String.concat JS.nl (map block (a :: after))).
      split; [reflexivity | split; [reflexivity | discriminate]].
  - destruct IH as (pre & post & E & _ & Hpost).
    exists (block b ++ JS.nl ++ pre), post.
    split; [| split; [discriminate | exact Hpost]].
    change (map block ((b :: before) ++ step :: after))
      with (block b :: map block (before ++ step :: after)).
    destruct (map block (before ++ step :: after)) as [|m ms] eqn:Em.
    + destruct before; discriminate.
    + change (String.concat JS.nl (block b :: m :: ms))
        with (block b ++ JS.nl ++ String.concat JS.nl (m :: ms)).
      rewrite E. now rewrite !append_assoc.
Qed.

(** *** Finding statements in an emitted text *)

Lemma startsWith_split (s p : string) :
  JS.startsWith s p = true -> s = p ++ JS.drop (String.length p) s.
Proof.
  revert s; induction p as [|a p IH]; intros s Hs.
  - reflexivity.
  - destruct s as [|b s]; [discriminate|]. simpl in Hs |- *.
    apply andb_true_iff in Hs as [Hab Hs].
    apply Ascii.eqb_eq in Hab as ->. now rewrite <- IH.
Qed.

Lemma find_after_sound (p t post : string) :
  find_after p t = Some post -> exists pre, t = pre ++ p ++ post.
Proof.
  induction t as [|c r IH]; cbn [find_after].
  - destruct (JS.startsWith "" p) eqn:E; [|discriminate].
    intros [= <-]. exists "". now apply startsWith_split.
  - destruct (JS.startsWith (String c r) p) eqn:E.
    + intros [= <-]. exists "". now apply startsWith_split.
    + intros Hf. destruct (IH Hf) as [pre ->]. now exists (String c pre).
Qed.

Lemma in_orderb_sound (parts : list string) :
  forall t, in_orderb parts t = true -> in_order parts t.
Proof.
  induction parts as [|p rest IH]; intros t; simpl.
  - trivial.
  - destruct (find_after p t) as [post|] eqn:E; [|discriminate].
    intros Hrest. destruct (find_after_sound _ _ _ E) as [pre ->].
    exists pre, post. split; [reflexivity | now apply IH].
Qed.

Lemma in_order_skip (parts : list string) (a t : string) :
  in_order parts t -> in_order parts (a ++ t).
Proof.
  destruct parts as [|p rest]; simpl.
  - trivial.
  - intros (pre & post & -> & Hrest). exists (a ++ pre), post.
    split; [now rewrite append_assoc | exact Hrest].
Qed.

(* ===================================================================== *)
(** ** Properties of the code generators *)
(* ===================================================================== *)

(** C10: for every scenario, also one without steps, the text a code
    generator emits starts with the line that imports [test] and [expect]
    from [@playwright/test], followed by the header of the test, and ends with
    the closing line; the title in the header is the scenario name as the
    specification sanitises it: only letters, digits and single spaces, so no
    quote character can end the title literal. *)
Theorem generated_test_header_and_close (scenario : TestScenario)
    (options : CompileOptions) :
  let title := sanitized_title false (name scenario) in
  CompilerApi.generatePlaywrightTest scenario options
  = import_line ++ JS.nl ++ test_header title
      ++ String.concat JS.nl (map (compiler_block options) (steps scenario))
      ++ closing_line
  /\ CombinedApi.generatePlaywrightTest scenario options
     = import_line ++ JS.nl ++ test_header title
         ++ String.concat JS.nl (map (combined_block options) (steps scenario))
         ++ closing_line
  /\ Regex.testName (name scenario) = title
  /\ JS.forallb (fun c => JS.is_alnum c || Ascii.eqb c " "%char) title = true
  /\ JS.forallb (fun c => negb (Ascii.eqb c "'"%char)) title = true
  /\ single_spaced title = true
  /\ JS.filter JS.is_alnum title = JS.filter JS.is_alnum (name scenario).
Proof.
  intro title.
  assert (Regex.testName (name scenario) = title) as Ht
    by apply collapse_filter_sanitized.
  repeat split.
  - now rewrite compiler_generate_shape, Ht.
  - now rewrite combined_generate_shape, Ht.
  - exact Ht.
  - apply sanitized_chars.
  - apply sanitized_no_apostrophe.
  - apply sanitized_single_spaced.
  - apply sanitized_keeps_alnum.
Qed.

(** The block of a step depends on what [read_alike] compares, and on the
    selector strategy. *)
Lemma compiler_block_reads (o1 o2 : CompileOptions) (a b : TestStep) :
  selectorStrategy o1 = selectorStrategy o2 ->
  read_alike CompilerApi.handled a b ->
  compiler_block o1 a = compiler_block o2 b.
Proof.
  destruct a as [aa ta da ea], b as [ab tb db eb].
  unfold read_alike. cbn [action target data description].
  intros Ho (<- & <- & <- & Hd).
  unfold compiler_block, CompilerApi.switch_action, CompilerApi.case_click,
    CompilerApi.case_fill, CompilerApi.case_goto, CompilerApi.case_expect,
    CompilerApi.case_wait, CompilerApi.case_default, CompilerApi.toBeVisible.
  unfold CompilerApi.handled in Hd. cbn [existsb] in Hd.
  cbn [action target data description]. rewrite Ho.
  destruct (String.eqb aa "goto"); [reflexivity|].
  destruct (String.eqb aa "click"); [reflexivity|].
  destruct (String.eqb aa "fill"); [reflexivity|].
  destruct (String.eqb aa "type"); [reflexivity|].
  destruct (String.eqb aa "expect"); [reflexivity|].
  destruct (String.eqb aa "wait"); [reflexivity|].
  cbn [orb] in *. now rewrite (Hd eq_refl).
Qed.

Lemma combined_block_reads (o1 o2 : CompileOptions) (a b : TestStep) :
  selectorStrategy o1 = selectorStrategy o2 ->
  read_alike CombinedApi.handled a b ->
  combined_block o1 a = combined_block o2 b.
Proof.
  destruct a as [aa ta da ea], b as [ab tb db eb].
  unfold read_alike. cbn [action target data description].
  intros Ho (<- & <- & <- & Hd).
  unfold combined_block, CombinedApi.switch_action, CombinedApi.case_click,
    CombinedApi.case_fill, CombinedApi.case_goto, CombinedApi.case_expect,
    CombinedApi.case_default, CombinedApi.toBeVisible.
  unfold CombinedApi.handled in Hd. cbn [existsb] in Hd.
  cbn [action target data description]. rewrite Ho.
  destruct (String.eqb aa "goto"); [reflexivity|].
  destruct (String.eqb aa "fill"); [reflexivity|].
  destruct (String.eqb aa "click"); [reflexivity|].
  destruct (String.eqb aa "expect"); [reflexivity|].
  cbn [orb] in *. now rewrite (Hd eq_refl).
Qed.

Lemma map_blocks_alike (R : TestStep -> TestStep -> Prop) (f g : TestStep -> string)
    (l1 l2 : list TestStep) :
  (forall a b, R a b -> f a = g b) -> Forall2 R l1 l2 -> map f l1 = map g l2.
Proof.
  intros Hfg HF. induction HF as [|a b l1 l2 Hab HF IH]; cbn.
  - reflexivity.
  - now rewrite (Hfg a b Hab), IH.
Qed.

(** C7: the text of a code generator is a function of what it reads of its
    two arguments, and of nothing else.  Two calls emit the same text,
    character by character, whenever the two scenarios have the same name,
    the two options the same selector strategy, and the steps are, place by
    place, alike in action, target and data, and in the description where the
    generator has no case for the action.  Two calls with the same scenario
    and the same options are such calls; so are calls that differ in the id,
    the tags or the compile time of the scenario, in the description of a
    step the generator has a case for, or in any other option. *)
Theorem generatePlaywrightTest_deterministic
    (scenario1 scenario2 : TestScenario) (options1 options2 : CompileOptions) :
  name scenario1 = name scenario2 ->
  selectorStrategy options1 = selectorStrategy options2 ->
  (Forall2 (read_alike CompilerApi.handled) (steps scenario1) (steps scenario2) ->
   CompilerApi.generatePlaywrightTest scenario1 options1
   = CompilerApi.generatePlaywrightTest scenario2 options2)
  /\ (Forall2 (read_alike CombinedApi.handled) (steps scenario1) (steps scenario2) ->
      CombinedApi.generatePlaywrightTest scenario1 options1
      = CombinedApi.generatePlaywrightTest scenario2 options2).
Proof.
  intros Hn Ho. split; intros HF.
  - rewrite !compiler_generate_shape, Hn.
    now rewrite (map_blocks_alike _ _ _ _ _
                   (fun a b => compiler_block_reads options1 options2 a b Ho) HF).
  - rewrite !combined_generate_shape, Hn.
    now rewrite (map_blocks_alike _ _ _ _ _
                   (fun a b => combined_block_reads options1 options2 a b Ho) HF).
Qed.

(** Two different scenarios and two different option records that the
    generators cannot tell apart, and the same scenario compiled twice. *)
Lemma generatePlaywrightTest_deterministic_witness :
  roundtrip_scenario <> roundtrip_scenario_again
  /\ css_options <> css_options_again
  /\ CompilerApi.generatePlaywrightTest roundtrip_scenario css_options
     = CompilerApi.generatePlaywrightTest roundtrip_scenario_again css_options_again
  /\ CombinedApi.generatePlaywrightTest roundtrip_scenario css_options
     = CombinedApi.generatePlaywrightTest roundtrip_scenario_again css_options_again.
Proof.
  split; [discriminate|]. split; [discriminate|].
  destruct (generatePlaywrightTest_deterministic
              roundtrip_scenario roundtrip_scenario_again css_options css_options_again
              eq_refl eq_refl) as [Hcompiler Hcombined].
  split; [apply Hcompiler | apply Hcombined].
  all: repeat constructor; cbn; discriminate.
Defined.

(** C8: the scenario goto [https://x.test], click [#login], fill [#user]
    with [bob], expect [#welcome] with [visible], compiled with the selector
    strategy [css], yields a text that holds, in this order, the navigation to
    [https://x.test], the click on the raw selector [#login], the fill of
    [#user] with [bob] and the visibility assertion on [#welcome]; whatever
    the name of the scenario and the descriptions of its steps are. *)
Theorem roundtrip_css_statements_in_order
    (i nm d1 d2 d3 d4 : string) (t : option string) (tg : option (list string))
    (e : bool) (f s : string) (r : option string) :
  in_order
    [ "await page.goto('https://x.test');";
      "await page.locator('#login').click();";
      "await page.locator('#user').fill('bob');";
      "await expect(page.locator('#welcome')).toBeVisible();" ]
    (CompilerApi.generatePlaywrightTest
       (mkScenario i nm
          [ mkStep "goto" "https://x.test" None d1;
            mkStep "click" "#login" None d2;
            mkStep "fill" "#user" (Some "bob") d3;
            mkStep "expect" "#welcome" (Some "visible") d4 ]
          t tg)
       (mkOptions e "css" f s r)).
Proof.
  rewrite compiler_generate_shape.
  rewrite <- !append_assoc. rewrite append_assoc.
  apply in_order_skip. apply in_orderb_sound. vm_compute. reflexivity.
Qed.

(** The text of the round-trip scenario in full. *)
Example roundtrip_css_text :
  CompilerApi.generatePlaywrightTest roundtrip_scenario css_options
  = "import { test, expect } from '@playwright/test';" ++ JS.nl ++ JS.nl
    ++ "test('Login', async ({ page }) => {" ++ JS.nl
    ++ "  // Navigate to the page" ++ JS.nl
    ++ "  await page.goto('https://x.test');" ++ JS.nl ++ JS.nl
    ++ "  // Click on element" ++ JS.nl
    ++ "  await page.locator('#login').click();" ++ JS.nl ++ JS.nl
    ++ "  // Fill input field" ++ JS.nl
    ++ "  await page.locator('#user').fill('bob');" ++ JS.nl ++ JS.nl
    ++ "  // Verify element" ++ JS.nl
    ++ "  await expect(page.locator('#welcome')).toBeVisible();" ++ JS.nl
    ++ "});" ++ JS.nl.
Proof. vm_compute. reflexivity. Qed.

(** C6 (as the code has it): for a step whose action has no case of its own,
    the compile service emits a comment with the action and the description
    and a generic call of the method the action names; the combined API
    server emits two comments, with the action and with the description, and
    no call.  Both generators are total functions and both keep the
    description. *)
Theorem unhandled_action_block (scenario : TestScenario) (options : CompileOptions)
    (before after : list TestStep) (step : TestStep) :
  steps scenario = (before ++ step :: after)%list ->
  (CompilerApi.handled (action step) = false ->
     compiler_block options step = generic_call_block step
     /\ occurs_in (generic_call_block step)
          (CompilerApi.generatePlaywrightTest scenario options))
  /\ (CombinedApi.handled (action step) = false ->
       combined_block options step = comment_only_block step
       /\ occurs_in (comment_only_block step)
            (CombinedApi.generatePlaywrightTest scenario options)).
Proof.
  intros Hsteps. split; intros Hh.
  - assert (compiler_block options step = generic_call_block step) as Hb.
    { unfold CompilerApi.handled in Hh. cbn [existsb] in Hh.
      repeat (apply orb_false_iff in Hh as [? Hh]).
      unfold compiler_block, CompilerApi.switch_action.
      repeat match goal with E : String.eqb _ _ = false |- _ => rewrite E; clear E end.
      cbn [orb]. unfold CompilerApi.case_default, generic_call_block. cbv zeta.
      rewrite ?append_assoc. reflexivity. }
    split; [exact Hb|].
    rewrite compiler_generate_shape, Hsteps.
    destruct (concat_blocks_split (compiler_block options) before after step)
      as (pre & post & -> & _).
    rewrite Hb.
    exists (import_line ++ JS.nl ++ test_header (Regex.testName (name scenario)) ++ pre),
      (post ++ closing_line).
    now rewrite !append_assoc.
  - assert (combined_block options step = comment_only_block step) as Hb.
    { unfold CombinedApi.handled in Hh. cbn [existsb] in Hh.
      repeat (apply orb_false_iff in Hh as [? Hh]).
      unfold combined_block, CombinedApi.switch_action.
      repeat match goal with E : String.eqb _ _ = false |- _ => rewrite E; clear E end.
      unfold CombinedApi.case_default, comment_only_block. cbv zeta.
      rewrite ?append_assoc. reflexivity. }
    split; [exact Hb|].
    rewrite combined_generate_shape, Hsteps.
    destruct (concat_blocks_split (combined_block options) before after step)
      as (pre & post & -> & _).
    rewrite Hb.
    exists (import_line ++ JS.nl ++ test_header (Regex.testName (name scenario)) ++ pre),
      (post ++ closing_line).
    now rewrite !append_assoc.
Qed.

Lemma unhandled_action_block_witness :
  occurs_in (generic_call_block Scripted.hover_menu)
    (CompilerApi.generatePlaywrightTest hover_scenario role_first_options)
  /\ occurs_in (comment_only_block Scripted.hover_menu)
       (CombinedApi.generatePlaywrightTest hover_scenario role_first_options).
Proof.
  destruct (unhandled_action_block hover_scenario role_first_options
              [] [] Scripted.hover_menu eq_refl) as [Hc Hd].
  split; [apply Hc | apply Hd]; reflexivity.
Defined.

(** The combined API server on a step that hovers: the text has no call
    statement, only the two comments. *)
Lemma combined_api_emits_no_call_for_hover :
  CombinedApi.handled (action Scripted.hover_menu) = false
  /\ CombinedApi.generatePlaywrightTest hover_scenario role_first_options
     = "import { test, expect } from '@playwright/test';" ++ JS.nl ++ JS.nl
       ++ "test('Menu', async ({ page }) => {" ++ JS.nl
       ++ "  // Unknown action: hover" ++ JS.nl
       ++ "  // Hover over the menu" ++ JS.nl
       ++ "});" ++ JS.nl
  /\ existsb is_statement_line
       (lines (CombinedApi.generatePlaywrightTest hover_scenario role_first_options))
     = false
  /\ JS.includes (CombinedApi.generatePlaywrightTest hover_scenario role_first_options)
       "hover()" = false.
Proof. repeat split; vm_compute; reflexivity. Qed.

(* ===================================================================== *)
(** ** The automation session never throws *)
(* ===================================================================== *)

Section ClientFacts.
Context `{Platform}.

Lemma bind_ok {A B : Type} (m : M A) (k : A -> M B) (w w' : World) (a : A) :
  m w = (Ok a, w') -> bind m k w = k a w'.
Proof. intros E. unfold bind. now rewrite E. Qed.

(** A [try] whose [catch] clause returns a value returns a value. *)
Lemma try_catch_total {A : Type} (m : M A) (h : Thrown -> M A) :
  (forall e w, exists a w', h e w = (Ok a, w')) ->
  forall w, exists a w', try_catch m h w = (Ok a, w').
Proof.
  intros Hh w. unfold try_catch. destruct (m w) as [[a|e] w'].
  - now exists a, w'.
  - apply Hh.
Qed.

Lemma validateSelector_returns (this : MCPClient) (selector : string) (w : World) :
  exists r w', Client.validateSelector this selector w = (Ok r, w').
Proof.
  unfold Client.validateSelector.
  destruct (negb (isConnected this) || negb (client this)).
  - unfold ret. eauto.
  - apply try_catch_total. intros e w0. unfold ret. eauto.
Qed.

Lemma executeStep_returns (this : MCPClient) (action target : string)
    (data : option string) (w : World) :
  exists r w', Client.executeStep this action target data w = (Ok r, w').
Proof.
  unfold Client.executeStep.
  destruct (negb (isConnected this) || negb (client this)).
  - unfold ret. eauto.
  - apply try_catch_total. intros e w0. unfold ret. eauto.
Qed.

(** A client that is not connected reports a failure and asks nothing of
    the backend. *)
Lemma not_connected_fails (this : MCPClient) (action target : string)
    (data : option string) (w : World) :
  isConnected this = false ->
  Client.validateSelector this target w
  = (Ok (Client.failure "Not connected to MCP server"), w)
  /\ Client.executeStep this action target data w
     = (Ok (Client.failure "Not connected to MCP server"), w).
Proof.
  intros Hc. unfold Client.validateSelector, Client.executeStep. rewrite Hc.
  split; reflexivity.
Qed.

Lemma connect_returns (this : MCPClient) (w : World) :
  exists this' b w', Client.connect this w = (Ok (this', b), w').
Proof.
  unfold Client.connect. cbv zeta.
  match goal with
  | |- context [try_catch ?m ?h] =>
      destruct (try_catch_total m h) with (w := w) as ([this' b] & w' & E)
  end.
  - intros e w0. unfold ret. eauto.
  - rewrite E. eauto.
Qed.

End ClientFacts.

(* ===================================================================== *)
(** ** The repair loop *)
(* ===================================================================== *)

Section RepairFacts.
Context `{Platform}.

(** The repair of a step returns a step with the action and the data of the
    step it was given. *)
Lemma executeStepWithMCP_returns (this : MCPClient) (step : TestStep) (url : string)
    (isFirstStep : bool) (w : World) :
  exists t d w',
    LLMCompiler.executeStepWithMCP this step url isFirstStep w
    = (Ok (mkStep (action step) t (data step) d), w').
Proof.
  unfold LLMCompiler.executeStepWithMCP. cbv zeta.
  match goal with
  | |- context [bind (try_catch ?m ?h) ?k] =>
      destruct (try_catch_total m h) with (w := w) as ([t d] & w' & E)
  end.
  - intros e w0. unfold ret. eauto.
  - erewrite bind_ok by exact E. unfold ret. eauto.
Qed.

(** One turn of the loop pushes one step, with the action and the data of
    the step of that turn. *)
Lemma loop_returns (this : MCPClient) (url : string) (steps : list TestStep) :
  forall (i : nat) (improvedSteps : list TestStep) (w : World),
  exists out w',
    LLMCompiler.executeScenarioWithMCP_loop this url steps i improvedSteps w
    = (Ok (improvedSteps ++ out)%list, w')
    /\ map action out = map action steps
    /\ map data out = map data steps.
Proof.
  induction steps as [|step rest IH]; intros i improvedSteps w.
  - exists [], w. cbn. now rewrite app_nil_r.
  - cbn [LLMCompiler.executeScenarioWithMCP_loop].
    destruct (executeStepWithMCP_returns this step url (Nat.eqb i 0) w)
      as (t & d & w1 & E).
    assert (exists w2,
      try_catch
        (improvedStep <- LLMCompiler.executeStepWithMCP this step url (Nat.eqb i 0) ;;
         let improvedSteps0 := (improvedSteps ++ [improvedStep])%list in
         _ <- sleep 1000 ;; ret improvedSteps0)
        (fun _ => ret (improvedSteps ++ [step])%list) w
      = (Ok (improvedSteps ++ [mkStep (action step) t (data step) d])%list, w2)) as [w2 E2].
    { unfold try_catch. erewrite bind_ok by exact E. cbv zeta.
      unfold bind, sleep, ret. eauto. }
    erewrite bind_ok by exact E2.
    destruct (IH (S i) (improvedSteps ++ [mkStep (action step) t (data step) d])%list w2)
      as (out & w' & E3 & Ha & Hd).
    exists (mkStep (action step) t (data step) d :: out), w'.
    rewrite E3, <- app_assoc. cbn. now rewrite Ha, Hd.
Qed.

(** The loop hands every step to [executeStepWithMCP], in turn, and pushes
    what the call returns. *)
Lemma loop_in_turn (this : MCPClient) (url : string) (steps : list TestStep) :
  forall (i : nat) (improvedSteps : list TestStep) (w : World),
  exists outs w_end,
    LLMCompiler.executeScenarioWithMCP_loop this url steps i improvedSteps w
    = (Ok (improvedSteps ++ outs)%list, w_end)
    /\ repaired_in_turn this url i steps w outs w_end.
Proof.
  induction steps as [|step rest IH]; intros i improvedSteps w.
  - exists [], w. cbn. rewrite app_nil_r. split; [reflexivity | constructor].
  - cbn [LLMCompiler.executeScenarioWithMCP_loop].
    destruct (executeStepWithMCP_returns this step url (Nat.eqb i 0) w)
      as (t & d & w1 & E).
    assert (
      try_catch
        (improvedStep <- LLMCompiler.executeStepWithMCP this step url (Nat.eqb i 0) ;;
         let improvedSteps0 := (improvedSteps ++ [improvedStep])%list in
         _ <- sleep 1000 ;; ret improvedSteps0)
        (fun _ => ret (improvedSteps ++ [step])%list) w
      = (Ok (improvedSteps ++ [mkStep (action step) t (data step) d])%list,
         elapse 1000 w1)) as E2.
    { unfold try_catch. erewrite bind_ok by exact E. reflexivity. }
    erewrite bind_ok by exact E2.
    destruct (IH (S i) (improvedSteps ++ [mkStep (action step) t (data step) d])%list
                (elapse 1000 w1)) as (outs & w_end & E3 & Hturn).
    exists (mkStep (action step) t (data step) d :: outs), w_end.
    rewrite E3, <- app_assoc. split; [reflexivity|].
    econstructor; eassumption.
Qed.

Lemma repaired_in_turn_length (this : MCPClient) (url : string) (i : nat)
    (steps : list TestStep) (w : World) (outs : list TestStep) (w_end : World) :
  repaired_in_turn this url i steps w outs w_end ->
  List.length outs = List.length steps.
Proof. induction 1; cbn; congruence. Qed.

(** The turns of a list of steps are the turns of its first steps followed by
    the turns of the others. *)
Lemma repaired_in_turn_split (this : MCPClient) (url : string)
    (before rest : list TestStep) :
  forall (i : nat) (w : World) (outs : list TestStep) (w_end : World),
  repaired_in_turn this url i (before ++ rest)%list w outs w_end ->
  exists outs_before w_b outs_rest,
    outs = (outs_before ++ outs_rest)%list
    /\ repaired_in_turn this url i before w outs_before w_b
    /\ repaired_in_turn this url (List.length before + i) rest w_b outs_rest w_end.
Proof.
  induction before as [|step before IH]; intros i w outs w_end Hturn.
  - exists [], w, outs. split; [reflexivity|]. split; [constructor | exact Hturn].
  - cbn [app] in Hturn. inversion Hturn as [|? ? ? ? out w' outs' ? E Hrest]; subst.
    destruct (IH _ _ _ _ Hrest) as (outs_before & w_b & outs_rest & -> & Hb & Hr).
    exists (out :: outs_before), w_b, outs_rest.
    split; [reflexivity|]. split; [econstructor; eassumption|].
    cbn [List.length]. now rewrite Nat.add_succ_r in Hr.
Qed.

Lemma executeScenarioWithMCP_returns (this : MCPClient) (url : string)
    (steps : list TestStep) (w : World) :
  exists out w',
    LLMCompiler.executeScenarioWithMCP this url steps w = (Ok out, w')
    /\ map action out = map action steps
    /\ map data out = map data steps.
Proof.
  unfold LLMCompiler.executeScenarioWithMCP.
  destruct (loop_returns this url steps 0%nat [] w) as (out & w' & E & Ha & Hd).
  exists out, w'. now rewrite E.
Qed.

Lemma scenario_task_returns (this : MCPClient) (url : string)
    (scenario : TestScenario) (w : World) :
  exists out w',
    LLMCompiler.scenario_task this url scenario w = (Ok out, w')
    /\ id out = id scenario /\ name out = name scenario /\ tags out = tags scenario
    /\ same_actions_and_data scenario out.
Proof.
  unfold LLMCompiler.scenario_task, try_catch, now. unfold bind at 1.
  destruct (executeScenarioWithMCP_returns this url (steps scenario) w)
    as (out & w' & E & Ha & Hd).
  erewrite bind_ok by exact E. unfold bind, ret. cbv zeta.
  eexists; eexists; split; [reflexivity|]. cbn. repeat split; assumption.
Qed.

Lemma Promise_all_tasks (this : MCPClient) (url : string) (views : nat -> World)
    (scenarios : list TestScenario) :
  forall i, exists out,
    Promise_all (map (LLMCompiler.scenario_task this url) scenarios) views i = Ok out
    /\ Forall2 (fun input output =>
                  id output = id input /\ name output = name input
                  /\ tags output = tags input
                  /\ same_actions_and_data input output) scenarios out.
Proof.
  induction scenarios as [|s rest IH]; intro i.
  - exists []. split; [reflexivity | constructor].
  - cbn [map Promise_all].
    destruct (scenario_task_returns this url s (views i)) as (o & w' & E & Hs).
    destruct (IH (S i)) as (out & E' & Hrest).
    rewrite E, E'. cbn. exists (o :: out). split; [reflexivity|].
    constructor; assumption.
Qed.

Lemma validateSelectorsWithMCP_returns (this : MCPClient) (url : string)
    (scenarios : list TestScenario) (sch : Schedule) (w : World) :
  exists out,
    LLMCompiler.validateSelectorsWithMCP this url scenarios sch w = (Ok out, joined sch)
    /\ Forall2 (fun input output =>
                  id output = id input /\ name output = name input
                  /\ tags output = tags input
                  /\ same_actions_and_data input output) scenarios out.
Proof.
  unfold LLMCompiler.validateSelectorsWithMCP.
  destruct (Promise_all_tasks this url (views sch) scenarios 0%nat) as (out & E & HF).
  exists out. now rewrite E.
Qed.

Lemma disconnect_disconnects (this : MCPClient) :
  Client.disconnect this = mkClient false false false.
Proof. unfold Client.disconnect. destruct this as [[] ? []]; reflexivity. Qed.

End RepairFacts.

(* ===================================================================== *)
(** ** Properties of the selector repair *)
(* ===================================================================== *)

Section RepairClaims.
Context `{Platform}.
Import Calls.

(** C1: for every list of scenarios, the empty list too, the selector repair
    [validateSelectorsWithMCP] returns, without throwing, a list with as many
    scenarios as it was given, in the same order: the scenario at each place
    keeps its id, its name and its tags, and has as many steps as before. *)
Theorem validateSelectorsWithMCP_same_length_and_order (this : MCPClient)
    (url : string) (scenarios : list TestScenario) (sch : Schedule) (w : World) :
  exists out,
    LLMCompiler.validateSelectorsWithMCP this url scenarios sch w = (Ok out, joined sch)
    /\ List.length out = List.length scenarios
    /\ map id out = map id scenarios
    /\ map name out = map name scenarios
    /\ map tags out = map tags scenarios
    /\ map (fun s => List.length (steps s)) out
       = map (fun s => List.length (steps s)) scenarios.
Proof.
  destruct (validateSelectorsWithMCP_returns this url scenarios sch w) as (out & E & HF).
  exists out. split; [exact E|].
  clear E. induction HF as [|i o ins outs (Hi & Hn & Ht & Ha & Hd) HF IH].
  - repeat split.
  - destruct IH as (Hl & Hids & Hnames & Htags & Hsteps). cbn.
    rewrite Hl, Hi, Hn, Ht, Hids, Hnames, Htags, Hsteps.
    assert (List.length (steps o) = List.length (steps i)) as ->.
    { rewrite <- (length_map action (steps o)), Ha. apply length_map. }
    repeat split.
Qed.

Ltac destruct_calls :=
  repeat (cbn [fst snd] in *;
    match goal with
    | |- context [Client.validateSelector ?t ?s ?w] =>
        destruct (Client.validateSelector t s w) as [[?vr|?e] ?w] eqn:?
    | |- context [Client.executeStep ?t ?a ?s ?d ?w] =>
        destruct (Client.executeStep t a s d w) as [[?er|?e] ?w] eqn:?
    | |- context [if success ?r then _ else _] => destruct (success r) eqn:?
    end).

Ltac by_action step :=
  destruct (String.eqb_spec (action step) "goto") as [Eg|Ng];
  [rewrite Eg|
  destruct (String.eqb_spec (action step) "click") as [Eg|Nc];
  [rewrite Eg|
  destruct (String.eqb_spec (action step) "fill") as [Eg|Nf];
  [rewrite Eg|
  destruct (String.eqb_spec (action step) "expect") as [Eg|Ne];
  [rewrite Eg|
  destruct (String.eqb_spec (action step) "wait") as [Eg|Nw];
  [rewrite Eg|
  destruct (String.eqb_spec (action step) "type") as [Eg|Nt];
  [rewrite Eg|]]]]]];
  cbn [String.eqb Ascii.eqb Bool.eqb andb orb negb].

(** What the repair of one step returns after a call that failed or was not
    made. *)
Lemma executeStepWithMCP_fallback (this : MCPClient) (step : TestStep) (url : string)
    (isFirstStep : bool) (w : World) :
  exists out w',
    LLMCompiler.executeStepWithMCP this step url isFirstStep w = (Ok out, w')
    /\ action out = action step /\ data out = data step
    /\ (reports_failure (validation_result this step w) = true ->
        target out = target step)
    /\ (validation_result this step w = None -> target out = target step)
    /\ (reports_failure (execution_result this step url isFirstStep w) = true ->
        description out = description step)
    /\ (execution_result this step url isFirstStep w = None ->
        description out = description step).
Proof.
  unfold validation_result, execution_result, executed_target, validation_result,
    world_after_validation, validates, executes, LLMCompiler.executeStepWithMCP.
  by_action step.
  all: destruct isFirstStep; cbn [andb orb].
  all: unfold bind, try_catch, ret; cbv zeta beta.
  all: try destruct (String.eqb (target step) "#body") eqn:Eb; cbn [negb andb orb].
  all: destruct_calls.
  all: eexists; eexists; (split; [reflexivity|]); cbn [action data target description].
  all: unfold LLMCompiler.adopt, LLMCompiler.offers_selector, reports_failure.
  all: repeat split; try congruence.
  all: match goal with
       | |- negb (success ?v) = true -> _ => destruct (success v); cbn; intros; congruence
       end.
Qed.

(** C2 (as the code has it): the repair of a step returns a step with the
    action and the data of the step it was given; when the validation call
    reports a failure, or is not made, the target is the one of the input
    step; when the execution call reports a failure, or is not made, the
    description is the one of the input step; so a step both calls of which
    fail comes back unchanged.  Such a step does not end the repair of its
    scenario.  Wherever the step stands in a scenario, the loop returns one
    step for every step of the scenario: first what the repair of each step
    before it returned, in turn; at its place what the repair of the step
    itself returned, in the world the steps before it have left; and then,
    whatever that was, what the repair of each step after it returns, in
    turn, from one second later on.  So every sibling is still handed to the
    repair and takes whatever improvement its own calls yield. *)
Theorem step_failure_fallback (this : MCPClient) (step : TestStep) (url : string)
    (isFirstStep : bool) (w : World) :
  (exists out w',
     LLMCompiler.executeStepWithMCP this step url isFirstStep w = (Ok out, w')
     /\ action out = action step /\ data out = data step
     /\ (reports_failure (validation_result this step w) = true ->
         target out = target step)
     /\ (validation_result this step w = None -> target out = target step)
     /\ (reports_failure (execution_result this step url isFirstStep w) = true ->
         description out = description step)
     /\ (execution_result this step url isFirstStep w = None ->
         description out = description step))
  /\ (forall before after w0,
        exists outs w1,
          LLMCompiler.executeScenarioWithMCP this url (before ++ step :: after)%list w0
          = (Ok outs, w1)
          /\ List.length outs = List.length (before ++ step :: after)%list
          /\ exists outs_before w_b out w_s outs_after,
               outs = (outs_before ++ out :: outs_after)%list
               /\ repaired_in_turn this url 0 before w0 outs_before w_b
               /\ LLMCompiler.executeStepWithMCP this step url
                    (Nat.eqb (List.length before) 0) w_b = (Ok out, w_s)
               /\ repaired_in_turn this url (S (List.length before)) after
                    (elapse 1000 w_s) outs_after w1).
Proof.
  split.
  - apply executeStepWithMCP_fallback.
  - intros before after w0. unfold LLMCompiler.executeScenarioWithMCP.
    destruct (loop_in_turn this url (before ++ step :: after)%list 0%nat [] w0)
      as (outs & w1 & E & Hturn).
    exists outs, w1. split; [exact E|].
    split; [exact (repaired_in_turn_length _ _ _ _ _ _ _ Hturn)|].
    destruct (repaired_in_turn_split _ _ _ _ _ _ _ _ Hturn)
      as (outs_before & w_b & outs_rest & -> & Hb & Hr).
    rewrite Nat.add_0_r in Hr.
    inversion Hr as [|? ? ? ? out w_s outs_after ? Estep Hafter]; subst.
    exists outs_before, w_b, out, w_s, outs_after.
    repeat split; assumption.
Qed.

(** C9: the order of the steps is kept from end to end.  The repair of a
    scenario returns one step for every step it was given, in the same order,
    each with the action and the data of the input step; the repair of a list
    of scenarios does so for every scenario; and each code generator emits
    the blocks of the steps in the order of the steps, between the header and
    the closing line. *)
Theorem step_order_preserved :
  (forall this url steps (w : World),
      exists out w',
        LLMCompiler.executeScenarioWithMCP this url steps w = (Ok out, w')
        /\ List.length out = List.length steps
        /\ map action out = map action steps
        /\ map data out = map data steps)
  /\ (forall this url scenarios sch (w : World),
        exists out,
          fst (LLMCompiler.validateSelectorsWithMCP this url scenarios sch w) = Ok out
          /\ Forall2 same_actions_and_data scenarios out)
  /\ (forall scenario options,
        CompilerApi.generatePlaywrightTest scenario options
        = import_line ++ JS.nl ++ test_header (Regex.testName (name scenario))
            ++ String.concat JS.nl (map (compiler_block options) (steps scenario))
            ++ closing_line)
  /\ (forall scenario options,
        CombinedApi.generatePlaywrightTest scenario options
        = import_line ++ JS.nl ++ test_header (Regex.testName (name scenario))
            ++ String.concat JS.nl (map (combined_block options) (steps scenario))
            ++ closing_line).
Proof.
  split; [| split; [| split]].
  - intros this url steps w.
    destruct (executeScenarioWithMCP_returns this url steps w) as (out & w' & E & Ha & Hd).
    exists out, w'. repeat split; try assumption.
    rewrite <- (length_map action out), Ha. apply length_map.
  - intros this url scenarios sch w.
    destruct (validateSelectorsWithMCP_returns this url scenarios sch w)
      as (out & E & HF).
    exists out. split; [now rewrite E|].
    eapply Forall2_impl; [| exact HF]. cbn. intros i o (_ & _ & _ & Hs). exact Hs.
  - apply compiler_generate_shape.
  - apply combined_generate_shape.
Qed.

(** C4 (as the code has it): a connected client always answers a validation
    without throwing.  When the call of the backend throws, the answer is a
    failure without an improved selector.  Otherwise the answer is a success
    that always carries an improved selector: the text of the reply as it is
    when the text is not JSON; the selector of the reply when the reply has a
    non-empty one; the selector that was asked about when the reply has none
    or has no text. *)
Theorem validateSelector_answer (this : MCPClient) (selector : string) (w : World) :
  isConnected this = true -> client this = true ->
  exists r w',
    Client.validateSelector this selector w = (Ok r, w')
    /\ (success r = true -> improvedSelector r <> None)
    /\ (success r = false -> improvedSelector r = None)
    /\ match callTool "playwright_validate_selector"
               [("selector", AString selector); ("context", AString "validation")] w with
       | (Throw e, _) => success r = false
       | (Ok result, _) =>
           success r = true
           /\ match Client.first_text result with
              | None => improvedSelector r = Some selector
              | Some reply_text =>
                  match JSON_parse_reply reply_text with
                  | ParsedValue parsed =>
                      improvedSelector r
                      = Some (JS.or_str (reply_improvedSelector parsed) selector)
                  | _ => improvedSelector r = Some reply_text
                  end
              end
       end.
Proof.
  intros Hc Hcl. unfold Client.validateSelector. rewrite Hc, Hcl. cbn [negb orb].
  unfold try_catch, bind, ret.
  destruct (callTool _ _ w) as [[result|e] w1].
  - destruct (Client.first_text result) as [reply_text|].
    + destruct (JSON_parse_reply reply_text) as [msg| |parsed];
        eexists; eexists; (split; [reflexivity|]); cbn; repeat split; congruence.
    + eexists; eexists; (split; [reflexivity|]); cbn; repeat split; congruence.
  - eexists; eexists; (split; [reflexivity|]); cbn; repeat split; congruence.
Qed.

End RepairClaims.

(** *** The repair on the scripted platform *)

(** The validation call fails, the click succeeds: the description of the
    step is rewritten. *)
Lemma description_rewritten_after_failed_validation :
  @Calls.reports_failure
     (@Calls.validation_result Scripted.platform Scripted.connected
        Scripted.click_login Scripted.validation_down) = true
  /\ fst (@LLMCompiler.executeStepWithMCP Scripted.platform Scripted.connected
            Scripted.click_login "https://x.test" false Scripted.validation_down)
     = Ok (mkStep "click" "#login" None
             ("Successfully clicked on " ++ JS.dq ++ "Login" ++ JS.dq
                ++ " (validated selector: #login)"))
  /\ "Successfully clicked on " ++ JS.dq ++ "Login" ++ JS.dq
       ++ " (validated selector: #login)"
     <> description Scripted.click_login.
Proof. repeat split; vm_compute; congruence. Qed.

(** The validation call offers another selector, the fill fails: the step
    keeps its description and takes the offered selector as its target. *)
Example target_adopted_before_failed_execution :
  @Calls.reports_failure
     (@Calls.execution_result Scripted.platform Scripted.connected
        Scripted.fill_user "https://x.test" false Scripted.fill_down) = true
  /\ fst (@LLMCompiler.executeStepWithMCP Scripted.platform Scripted.connected
            Scripted.fill_user "https://x.test" false Scripted.fill_down)
     = Ok (mkStep "fill" "[data-testid=login]" (Some "bob") "Enter user name").
Proof. split; vm_compute; reflexivity. Qed.

(** Both calls of a fill step fail: the step comes back as it was; and in a
    scenario in which the click on the login button follows it, the click is
    still repaired: it takes the selector the backend names and a new
    description. *)
Lemma step_failure_fallback_witness :
  (exists out w',
     @LLMCompiler.executeStepWithMCP Scripted.platform Scripted.connected
       Scripted.fill_user "https://x.test" false Scripted.backend_down = (Ok out, w')
     /\ target out = "#user" /\ description out = "Enter user name")
  /\ (exists outs w1,
        @LLMCompiler.executeScenarioWithMCP Scripted.platform Scripted.connected
          "https://x.test" [Scripted.fill_user; Scripted.click_login]
          Scripted.first_step_down = (Ok outs, w1)
        /\ outs = [ Scripted.fill_user;
                    mkStep "click" "[data-testid=login]" None
                      ("Successfully clicked on " ++ JS.dq ++ "Login" ++ JS.dq
                         ++ " (validated selector: [data-testid=login])") ]).
Proof.
  destruct (@step_failure_fallback Scripted.platform Scripted.connected
              Scripted.fill_user "https://x.test" false Scripted.backend_down)
    as [(out & w' & E & _ & _ & Ht & _ & Hd & _) Hloop].
  split.
  - exists out, w'. split; [exact E|].
    split; [apply Ht | apply Hd]; reflexivity.
  - destruct (Hloop [] [Scripted.click_login] Scripted.first_step_down)
      as (outs & w1 & Eloop & _).
    exists outs, w1. split; [exact Eloop|].
    vm_compute in Eloop. injection Eloop as <- _. reflexivity.
Defined.

(** A step whose calls fail does not stop the loop: the next step is still
    repaired. *)
Example sibling_step_still_improved :
  fst (@LLMCompiler.executeScenarioWithMCP Scripted.platform Scripted.connected
         "https://x.test" [Scripted.fill_user; Scripted.click_login]
         Scripted.first_step_down)
  = Ok [ Scripted.fill_user;
         mkStep "click" "[data-testid=login]" None
           ("Successfully clicked on " ++ JS.dq ++ "Login" ++ JS.dq
              ++ " (validated selector: [data-testid=login])") ].
Proof. vm_compute. reflexivity. Qed.

(** The repair of no scenario is no scenario. *)
Example repair_of_empty_list (sch : @Schedule Scripted.platform) :
  fst (@LLMCompiler.validateSelectorsWithMCP Scripted.platform Scripted.connected
         "https://x.test" [] sch Scripted.backend_down) = Ok [].
Proof. reflexivity. Qed.

(** The backend names no other selector, and the answer of the client still
    carries an improved selector: the one it was asked about. *)
Lemma improved_selector_without_improvement :
  @callTool Scripted.platform "playwright_validate_selector"
    [("selector", AString "#login"); ("context", AString "validation")]
    Scripted.no_improvement
  = (Ok (Scripted.text_result "{}"), Scripted.backend_down)
  /\ @JSON_parse_reply Scripted.platform "{}" = ParsedValue (mkToolReply None None None)
  /\ fst (@Client.validateSelector Scripted.platform Scripted.connected "#login"
            Scripted.no_improvement)
     = Ok (mkResult true (Some "#login") None (Some (Num 0))).
Proof. repeat split. Qed.

(** A reply that is not JSON is the improved selector, as it is. *)
Lemma validateSelector_answer_witness :
  exists r w',
    @Client.validateSelector Scripted.platform Scripted.connected "#login"
      Scripted.verbatim_validation = (Ok r, w')
    /\ success r = true /\ improvedSelector r = Some "button.primary".
Proof.
  destruct (@validateSelector_answer Scripted.platform Scripted.connected "#login"
              Scripted.verbatim_validation eq_refl eq_refl)
    as (r & w' & E & _ & _ & Hm).
  exists r, w'. split; [exact E | exact Hm].
Defined.

(* ===================================================================== *)
(** ** Properties of the scenario generator *)
(* ===================================================================== *)

Section GenerateFacts.
Context `{Platform}.
Import Calls.

Lemma convert_steps_ok (raw : list RawStep) :
  forall i, exists l,
    LLMCompiler.map_indexed LLMCompiler.convert_step raw i = Ok l
    /\ map action l = map defaulted_action raw.
Proof.
  induction raw as [|st raw IH]; intro i; cbn.
  - now exists [].
  - destruct (IH (S i)) as (l & -> & Hl). eexists. split; [reflexivity|].
    cbn. now rewrite Hl.
Qed.

Lemma convert_scenarios_ok (raw : list RawScenario) :
  forallb has_steps raw = true ->
  forall i, exists out,
    LLMCompiler.map_indexed LLMCompiler.convert_scenario raw i = Ok out
    /\ Forall2 (fun r o => map action (steps o) = map defaulted_action (steps_of r))
         raw out.
Proof.
  induction raw as [|sc raw IH]; intros Hs i.
  - exists []. split; [reflexivity | constructor].
  - cbn in Hs. apply andb_true_iff in Hs as [Hsc Hs].
    destruct (IH Hs (S i)) as (out & E & HF).
    cbn [LLMCompiler.map_indexed]. unfold LLMCompiler.convert_scenario at 1.
    unfold has_steps in Hsc. unfold steps_of at 1.
    destruct (raw_steps sc) as [rs|] eqn:Ers; [|discriminate].
    destruct (convert_steps_ok rs 0%nat) as (l & -> & Hl).
    rewrite E. eexists. split; [reflexivity|].
    constructor; [| exact HF]. cbn. unfold steps_of. now rewrite Ers.
Qed.

(** [generateGeminiScenarios] catches whatever is thrown. *)
Lemma generateGeminiScenarios_returns (config : GeminiConfig) (input : PRDIntake)
    (w : World) :
  exists l w', LLMCompiler.generateGeminiScenarios config input w = (Ok l, w').
Proof.
  unfold LLMCompiler.generateGeminiScenarios.
  apply try_catch_total. intros e w0. unfold ret. eauto.
Qed.

(** The text service call rethrows a transport failure. *)
Lemma generateTestScenarios_rethrows (config : GeminiConfig) (input : PRDIntake)
    (w : World) :
  transport_fails config input w ->
  exists e w',
    Gemini.generateTestScenarios config (objective input) (url input)
      (credentials input) w = (Throw e, w').
Proof.
  unfold transport_fails, Gemini.generateTestScenarios, try_catch, bind, throw.
  cbv zeta.
  destruct (fetch _ _ w) as [[response|e] w1]; cbn [fst].
  - intros ->. cbn [negb]. eauto.
  - eauto.
Qed.

Lemma generateGeminiScenarios_on_transport_failure (config : GeminiConfig)
    (input : PRDIntake) (w : World) :
  transport_fails config input w ->
  exists w', LLMCompiler.generateGeminiScenarios config input w = (Ok [], w').
Proof.
  intros Hf. destruct (generateTestScenarios_rethrows config input w Hf) as (e & w' & E).
  exists w'. unfold LLMCompiler.generateGeminiScenarios, try_catch.
  unfold bind at 1. now rewrite E.
Qed.

(** A scenario without [steps] makes the conversion throw, and [generate]
    return the empty list. *)
Lemma convert_scenarios_without_steps (before after : list RawScenario)
    (scenario : RawScenario) :
  raw_steps scenario = None ->
  forall i, exists e,
    LLMCompiler.map_indexed LLMCompiler.convert_scenario
      (before ++ scenario :: after)%list i = Throw e.
Proof.
  intros Hn. induction before as [|b before IH]; intro i; cbn [app LLMCompiler.map_indexed].
  - unfold LLMCompiler.convert_scenario at 1. rewrite Hn. eauto.
  - destruct (LLMCompiler.convert_scenario b i); [| eauto].
    destruct (IH (S i)) as (e & ->). eauto.
Qed.

(** With a valid input, [generateScenarios] returns.  Its first snapshot is
    what [generateGeminiScenarios] returned; its second snapshot has the same
    scenarios at the same places; and the client is left disconnected. *)
Lemma generateScenarios_returns (config : GeminiConfig) (this : MCPClient)
    (input : PRDIntake) (sch : Schedule) (w : World) :
  validate_prd_intake input = None ->
  exists res this' w',
    LLMCompiler.generateScenarios config this input sch w = (Ok (res, this'), w')
    /\ Ok (outputs (geminiOutput res))
       = fst (LLMCompiler.generateGeminiScenarios config input w)
    /\ map id (outputs (mcpOutput res)) = map id (outputs (geminiOutput res))
    /\ mainOutput res = mcpOutput res
    /\ this' = mkClient false false false.
Proof.
  intros Hv. unfold LLMCompiler.generateScenarios. rewrite Hv.
  destruct (generateGeminiScenarios_returns config input w) as (l & w1 & E).
  unfold now, try_catch. unfold bind at 1. unfold bind at 1. unfold ret at 1.
  unfold bind at 1. rewrite E. unfold bind at 1. unfold bind at 1.
  unfold bind at 1.
  destruct (connect_returns this w1) as (this1 & b & w2 & Ec). rewrite Ec.
  destruct b.
  - destruct (validateSelectorsWithMCP_returns this1 (url input) l sch w2)
      as (improved & -> & HF).
    unfold bind, ret; cbn.
    eexists; eexists; eexists; (split; [reflexivity|]); cbn.
    repeat split; [| apply disconnect_disconnects].
    clear - HF. induction HF as [|i o ins outs (Hi & _) HF IH]; cbn; congruence.
  - unfold bind, ret; cbn.
    eexists; eexists; eexists; (split; [reflexivity|]); cbn.
    repeat split. apply disconnect_disconnects.
Qed.

End GenerateFacts.

Section GenerateClaims.
Context `{Platform}.
Import Calls.

(** C3 (as the code has it): when the text service answers and its reply
    parses to a scenario array every scenario of which has steps, [generate]
    returns as many scenarios as the array has.  The action of every step is
    the action the reply gives it, or [click] when the reply gives none or an
    empty one; it is not compared with the recognised kinds, so it is one of
    them exactly when the action of the reply is. *)
Theorem generate_keeps_length_and_actions (config : GeminiConfig) (input : PRDIntake)
    (w w1 w2 : World) (reply : string) (raw : list RawScenario) :
  Gemini.generateTestScenarios config (objective input) (url input)
    (credentials input) w = (Ok reply, w1) ->
  Gemini.parseGeminiResponse reply w1
  = (Ok (Some (mkGeminiReply (ScenarioArray raw))), w2) ->
  forallb has_steps raw = true ->
  exists out,
    LLMCompiler.generateGeminiScenarios config input w = (Ok out, w2)
    /\ List.length out = List.length raw
    /\ Forall2 (fun r o => map action (steps o) = map defaulted_action (steps_of r))
         raw out
    /\ Forall2 (fun r o =>
                  forallb is_recognized (map action (steps o))
                  = forallb is_recognized (map defaulted_action (steps_of r)))
         raw out.
Proof.
  intros Eg Ep Hs.
  destruct (convert_scenarios_ok raw Hs 0%nat) as (out & Ec & HF).
  exists out. split; [| split; [| split]].
  - unfold LLMCompiler.generateGeminiScenarios, try_catch.
    erewrite bind_ok by exact Eg. erewrite bind_ok by exact Ep.
    cbn [scenarios]. now rewrite Ec.
  - symmetry. eapply Forall2_length; exact HF.
  - exact HF.
  - eapply Forall2_impl; [| exact HF]. cbn. now intros r o ->.
Qed.

(** C5 (as the code has it): no failure of the call to the text service
    leaves [generate].  [generateTestScenarios] rethrows a transport failure,
    [generateGeminiScenarios] catches it, as it catches a reply that cannot be
    parsed, and returns the empty list; and [generateScenarios], given a valid
    input, returns a result whose first snapshot is that list. *)
Theorem generate_recovers_transport_failure (config : GeminiConfig)
    (input : PRDIntake) (w : World) :
  (exists l w', LLMCompiler.generateGeminiScenarios config input w = (Ok l, w'))
  /\ (transport_fails config input w ->
      (exists e w',
          Gemini.generateTestScenarios config (objective input) (url input)
            (credentials input) w = (Throw e, w'))
      /\ (exists w', LLMCompiler.generateGeminiScenarios config input w = (Ok [], w'))
      /\ (forall this sch,
            validate_prd_intake input = None ->
            exists res this' w',
              LLMCompiler.generateScenarios config this input sch w
              = (Ok (res, this'), w')
              /\ outputs (geminiOutput res) = [])).
Proof.
  split; [apply generateGeminiScenarios_returns|].
  intros Hf. split; [| split].
  - now apply generateTestScenarios_rethrows.
  - now apply generateGeminiScenarios_on_transport_failure.
  - intros this sch Hv.
    destruct (generateScenarios_returns config this input sch w Hv)
      as (res & this' & w' & E & Ho & _).
    destruct (generateGeminiScenarios_on_transport_failure config input w Hf)
      as (w0 & E0).
    rewrite E0 in Ho. cbn in Ho. injection Ho as Ho.
    now exists res, this', w'.
Qed.

End GenerateClaims.

(** *** The generator on the scripted platform *)

(** A reply with the action [drag]: the scenario list has the length of the
    array and its first step has the action [drag], which is not one of the
    recognised kinds. *)
Lemma unrecognized_action_is_kept :
  fst (@Gemini.parseGeminiResponse Scripted.platform
         ("Here you go:" ++ JS.nl ++ "```json" ++ JS.nl ++ Scripted.drag_text
            ++ JS.nl ++ "```") Scripted.drag_world)
  = Ok (Some Scripted.drag_reply)
  /\ fst (@LLMCompiler.generateGeminiScenarios Scripted.platform
            Scripted.gemini_config Scripted.intake Scripted.drag_world)
     = Ok [ mkScenario "scn_1" "Reorder"
              [ mkStep "drag" "#card" None "Step 1";
                mkStep "click" "#save" None "Step 2" ]
              None (Some ["generated"]) ]
  /\ is_recognized "drag" = false.
Proof. repeat split; vm_compute; reflexivity. Qed.

Lemma generate_keeps_length_and_actions_witness :
  exists out,
    @LLMCompiler.generateGeminiScenarios Scripted.platform Scripted.gemini_config
      Scripted.intake Scripted.drag_world = (Ok out, Scripted.drag_world)
    /\ List.length out = 1%nat
    /\ Forall2 (fun r o => map action (steps o) = map Calls.defaulted_action (Calls.steps_of r))
         [ mkRawScenario None (Some "Reorder")
             (Some [ mkRawStep (Some "drag") (Some "#card") None None;
                     mkRawStep None (Some "#save") None None ])
             None ] out.
Proof.
  destruct (@generate_keeps_length_and_actions Scripted.platform
              Scripted.gemini_config Scripted.intake
              Scripted.drag_world Scripted.drag_world Scripted.drag_world
              ("Here you go:" ++ JS.nl ++ "```json" ++ JS.nl ++ Scripted.drag_text
                 ++ JS.nl ++ "```")
              [ mkRawScenario None (Some "Reorder")
                  (Some [ mkRawStep (Some "drag") (Some "#card") None None;
                          mkRawStep None (Some "#save") None None ])
                  None ])
    as (out & E & Hl & HF & _).
  - vm_compute. reflexivity.
  - vm_compute. reflexivity.
  - reflexivity.
  - exists out. split; [exact E | split; [exact Hl | exact HF]].
Defined.

(** No platform, configuration, input and world make a transport failure
    leave [generate] as an error. *)
Lemma transport_failure_is_not_propagated :
  ~ (exists (P : Platform) (config : GeminiConfig) (input : PRDIntake) (w : World),
        @Calls.transport_fails P config input w
        /\ exists e w',
             @LLMCompiler.generateGeminiScenarios P config input w = (Throw e, w')).
Proof.
  intros (P & config & input & w & Hf & e & w' & E).
  destruct (@generateGeminiScenarios_on_transport_failure P config input w Hf)
    as (w0 & E0).
  rewrite E0 in E. discriminate.
Qed.

(** When [fetch] rejects and when the service answers 503, [generate]
    returns the empty list. *)
Example generate_on_rejected_fetch :
  fst (@LLMCompiler.generateGeminiScenarios Scripted.platform Scripted.gemini_config
         Scripted.intake Scripted.fetch_rejects) = Ok []
  /\ fst (@LLMCompiler.generateGeminiScenarios Scripted.platform
            Scripted.gemini_config Scripted.intake Scripted.http_503) = Ok [].
Proof. split; reflexivity. Qed.

Lemma generate_recovers_transport_failure_witness :
  (exists e w',
      @Gemini.generateTestScenarios Scripted.platform Scripted.gemini_config
        (objective Scripted.intake) (url Scripted.intake)
        (credentials Scripted.intake) Scripted.fetch_rejects = (Throw e, w'))
  /\ (exists w',
        @LLMCompiler.generateGeminiScenarios Scripted.platform Scripted.gemini_config
          Scripted.intake Scripted.fetch_rejects = (Ok [], w')).
Proof.
  destruct (@generate_recovers_transport_failure Scripted.platform
              Scripted.gemini_config Scripted.intake Scripted.fetch_rejects)
    as [_ Hf].
  destruct Hf as (Hr & Hg & _).
  - exact I.
  - split; [exact Hr | exact Hg].
Defined.

(* ===================================================================== *)
(** ** The action check and the page objects of the servers *)
(* ===================================================================== *)

Lemma allowed_spec (a : option string) :
  CombinedServer.allowed a = true
  <-> exists x, a = Some x /\ In x CombinedApi.ALLOWED_ACTIONS.
Proof.
  destruct a as [a|]; cbn [CombinedServer.allowed].
  - rewrite existsb_exists. split.
    + intros (x & Hin & Heq). apply String.eqb_eq in Heq as <-. eauto.
    + intros (x & [= <-] & Hin). exists a. split; [exact Hin | apply String.eqb_refl].
  - split; [discriminate | intros (x & Hx & _); discriminate].
Qed.

Lemma steps_loop_spec (steps : list RawStep) :
  CombinedServer.steps_loop steps = true
  <-> Forall (fun st => exists a, raw_action st = Some a
                                  /\ In a CombinedApi.ALLOWED_ACTIONS) steps.
Proof.
  induction steps as [|st rest IH]; cbn [CombinedServer.steps_loop].
  - split; [constructor | reflexivity].
  - destruct (CombinedServer.allowed (raw_action st)) eqn:Ea; cbn [negb].
    + rewrite IH. apply allowed_spec in Ea. split.
      * now constructor.
      * now inversion 1.
    + split; [discriminate|]. inversion 1 as [|? ? Hst _]; subst.
      apply allowed_spec in Hst. congruence.
Qed.

Lemma scenarios_loop_spec (l : list RawScenario) :
  CombinedServer.scenarios_loop l = true
  <-> Forall (fun sc => exists steps,
                 raw_steps sc = Some steps
                 /\ Forall (fun st => exists a, raw_action st = Some a
                                                /\ In a CombinedApi.ALLOWED_ACTIONS)
                      steps) l.
Proof.
  induction l as [|sc rest IH]; cbn [CombinedServer.scenarios_loop].
  - split; [constructor | reflexivity].
  - destruct (raw_steps sc) as [steps|] eqn:Es.
    + destruct (CombinedServer.steps_loop steps) eqn:El.
      * rewrite IH. apply steps_loop_spec in El. split.
        -- intros Hr. constructor; [eauto | exact Hr].
        -- now inversion 1.
      * split; [discriminate|]. inversion 1 as [|? ? (steps' & E' & HF) _]; subst.
        rewrite Es in E'. injection E' as <-.
        apply steps_loop_spec in HF. congruence.
    + split; [discriminate|]. inversion 1 as [|? ? (steps' & E' & _) _]; subst.
      congruence.
Qed.

(** X1: [validateScenarioActions] accepts its input exactly when the input
    holds a scenario array, as it is or under [scenarios], in which every
    scenario has a [steps] array and every step has one of the actions
    [goto], [fill], [click], [expect]; the empty array is accepted, and one
    step with another action, or without an action, anywhere in the array
    makes the whole input rejected. *)
Theorem validateScenarioActions_accepts (input : CombinedServer.ActionsInput) :
  CombinedServer.validateScenarioActions input = true
  <-> exists l,
        (input = CombinedServer.InputObject (Some l)
         \/ input = CombinedServer.InputArray l)
        /\ Forall (fun sc => exists steps,
                      raw_steps sc = Some steps
                      /\ Forall (fun st => exists a,
                                    raw_action st = Some a
                                    /\ In a CombinedApi.ALLOWED_ACTIONS) steps) l.
Proof.
  destruct input as [[l|]|l]; cbn [CombinedServer.validateScenarioActions].
  - rewrite scenarios_loop_spec. split.
    + intros HF. exists l. auto.
    + intros (l' & [[= <-]|[=]] & HF). exact HF.
  - split; [discriminate|]. intros (l' & [[=]|[=]] & _).
  - rewrite scenarios_loop_spec. split.
    + intros HF. exists l. auto.
    + intros (l' & [[=]|[= <-]] & HF). exact HF.
Qed.

Lemma role_target_is_not_text (s : string) :
  JS.startsWith s "role=" = true -> JS.startsWith s "text=" = false.
Proof.
  destruct s as [|c s]; [discriminate|].
  destruct c as [[] [] [] [] [] [] [] []]; cbn; try reflexivity; discriminate.
Qed.

(** The block of a step with one of the four actions starts with the
    comment of that action. *)
Lemma combined_block_comment (options : CompileOptions) (step : TestStep) :
  In (action step) CombinedApi.ALLOWED_ACTIONS ->
  exists comment,
    In comment ["  // Navigate to the page"; "  // Fill input field";
                "  // Click on element"; "  // Verify element"]
    /\ JS.startsWith (combined_block options step) (comment ++ JS.nl) = true.
Proof.
  intros Hin. unfold combined_block, CombinedApi.switch_action.
  cbn in Hin. destruct Hin as [E|[E|[E|[E|[]]]]]; rewrite <- E;
    cbn [String.eqb Ascii.eqb Bool.eqb].
  - exists "  // Navigate to the page". split; [cbn; auto|]. reflexivity.
  - exists "  // Fill input field". split; [cbn; auto|].
    unfold CombinedApi.case_fill. split_branches; reflexivity.
  - exists "  // Click on element". split; [cbn; auto|].
    unfold CombinedApi.case_click. split_branches; reflexivity.
  - exists "  // Verify element". split; [cbn; auto|].
    unfold CombinedApi.case_expect. split_branches; reflexivity.
Qed.

(** X2: the scenarios [validateScenarioActions] accepts are compiled by the
    combined API server without a block for an unknown action: the block of
    every step starts with the comment line of one of the four actions. *)
Theorem accepted_scenarios_have_known_blocks (accepted : list TestScenario) :
  CombinedServer.validateScenarioActions
    (CombinedServer.InputArray (map raw_of_scenario accepted)) = true ->
  forall scenario step options,
    In scenario accepted -> In step (steps scenario) ->
    CombinedApi.handled (action step) = true
    /\ JS.startsWith (combined_block options step) "  // Unknown action" = false
    /\ exists comment,
         In comment ["  // Navigate to the page"; "  // Fill input field";
                     "  // Click on element"; "  // Verify element"]
         /\ JS.startsWith (combined_block options step) (comment ++ JS.nl) = true.
Proof.
  intros Hv scenario step options Hsc Hst.
  cbn [CombinedServer.validateScenarioActions] in Hv.
  apply scenarios_loop_spec in Hv.
  rewrite Forall_forall in Hv.
  destruct (Hv (raw_of_scenario scenario)) as (rs & Hrs & HF).
  { apply in_map. exact Hsc. }
  cbn in Hrs. injection Hrs as <-.
  rewrite Forall_forall in HF.
  destruct (HF (raw_of_step step)) as (a & Ha & Hin).
  { apply in_map. exact Hst. }
  cbn in Ha. injection Ha as <-.
  destruct (combined_block_comment options step Hin) as (comment & Hc & Hs).
  split; [| split; [| eauto]].
  - cbn in Hin. destruct Hin as [E|[E|[E|[E|[]]]]]; rewrite <- E; reflexivity.
  - cbn in Hc. destruct Hc as [E|[E|[E|[E|[]]]]]; subst comment;
      rewrite (startsWith_split _ _ Hs); reflexivity.
Qed.

Lemma accepted_scenarios_have_known_blocks_witness :
  CombinedApi.handled "click" = true
  /\ JS.startsWith
       (combined_block role_first_options (mkStep "click" "#login" None "click login"))
       "  // Unknown action" = false.
Proof.
  destruct (accepted_scenarios_have_known_blocks [roundtrip_scenario] eq_refl
              roundtrip_scenario (mkStep "click" "#login" None "click login")
              role_first_options) as (Hh & Hu & _).
  - left. reflexivity.
  - right. left. reflexivity.
  - split; [exact Hh | exact Hu].
Defined.

Lemma forEach_fold {A S : Type} (f : S -> A -> nat -> S) (g : S -> A -> S) :
  (forall st x i, f st x i = g st x) ->
  forall l i st, forEach f l i st = fold_left g l st.
Proof.
  intros Hf l; induction l as [|x r IH]; intros i st; cbn.
  - reflexivity.
  - now rewrite Hf, IH.
Qed.

Lemma set_add_invariant (x : string) (set allowed : list string) :
  NoDup set -> incl set allowed -> In x allowed ->
  NoDup (CombinedServer.set_add x set) /\ incl (CombinedServer.set_add x set) allowed.
Proof.
  intros Hn Hi Hx. unfold CombinedServer.set_add.
  destruct (existsb (String.eqb x) set) eqn:E; [auto|].
  split.
  - apply NoDup_app; [exact Hn | repeat constructor; intros [] | ].
    intros y Hy [Exy|[]]. subst y.
    assert (existsb (String.eqb x) set = true) as C
      by (apply existsb_exists; exists x; split; [exact Hy | apply String.eqb_refl]).
    congruence.
  - apply incl_app; [exact Hi |]. intros y [<-|[]]. exact Hx.
Qed.

Lemma page_of_names (url : string) :
  In (CombinedServer.page_of url) ["Amazon"; "Shop"; "Login"; "Main"].
Proof.
  unfold CombinedServer.page_of.
  destruct (JS.includes url "amazon"); [cbn; auto|].
  destruct (JS.includes url "shop"); [cbn; auto|].
  destruct (JS.includes url "login"); cbn; auto.
Qed.

Lemma pageNames_invariant (steps : list TestStep) :
  forall set,
    NoDup set -> incl set ["Amazon"; "Shop"; "Login"; "Main"] ->
    let out :=
      fold_left (fun pageNames step =>
                   if String.eqb (action step) "goto"
                   then CombinedServer.set_add (CombinedServer.page_of (target step)) pageNames
                   else pageNames) steps set in
    NoDup out /\ incl out ["Amazon"; "Shop"; "Login"; "Main"]
    /\ (out = [] <-> set = [] /\ Forall (fun st => action st <> "goto") steps).
Proof.
  induction steps as [|st rest IH]; intros set Hn Hi; cbn [fold_left].
  - cbn. split; [exact Hn | split; [exact Hi | split]]; [intros ->; auto | now intros [? _]].
  - destruct (String.eqb_spec (action st) "goto") as [Eg|Ng].
    + destruct (set_add_invariant (CombinedServer.page_of (target st)) set _ Hn Hi
                  (page_of_names _)) as [Hn' Hi'].
      destruct (IH _ Hn' Hi') as (H1 & H2 & H3). cbv zeta in *.
      split; [exact H1 | split; [exact H2 | split]].
      * intros E. apply H3 in E as [E _]. exfalso.
        unfold CombinedServer.set_add in E.
        destruct (existsb _ set) eqn:Ee.
        -- subst set. discriminate.
        -- destruct set; discriminate.
      * intros [_ HF]. inversion HF; subst. congruence.
    + destruct (IH _ Hn Hi) as (H1 & H2 & H3). cbv zeta in *.
      split; [exact H1 | split; [exact H2 | split]].
      * intros E. apply H3 in E as [E HF]. split; [exact E|]. now constructor.
      * intros [E HF]. apply H3. split; [exact E|]. now inversion HF.
Qed.

Lemma push_pages (names : list string) :
  forall acc,
    fold_left (fun pageObjects pageName =>
                 (pageObjects ++ [("pages/" ++ pageName ++ "Page.ts")%string])%list)
      names acc
    = (acc ++ map (fun n => ("pages/" ++ n ++ "Page.ts")%string) names)%list.
Proof.
  induction names as [|n rest IH]; intro acc; cbn.
  - now rewrite app_nil_r.
  - rewrite IH, <- app_assoc. reflexivity.
Qed.

(** X3: [generatePageObjects] lists every page object file at most once,
    lists only the files of the pages Amazon, Shop, Login and Main, so at most
    four, and lists none exactly when the scenario has no [goto] step. *)
Theorem generatePageObjects_files (scenario : TestScenario) :
  NoDup (CombinedServer.generatePageObjects scenario)
  /\ incl (CombinedServer.generatePageObjects scenario) page_object_files
  /\ (List.length (CombinedServer.generatePageObjects scenario) <= 4)%nat
  /\ (CombinedServer.generatePageObjects scenario = []
      <-> Forall (fun st => action st <> "goto") (steps scenario)).
Proof.
  unfold CombinedServer.generatePageObjects. cbv zeta.
  rewrite (forEach_fold _ (fun pageObjects pageName =>
             (pageObjects ++ [("pages/" ++ pageName ++ "Page.ts")%string])%list))
    by reflexivity.
  rewrite (forEach_fold _ (fun pageNames step =>
             if String.eqb (action step) "goto"
             then CombinedServer.set_add (CombinedServer.page_of (target step)) pageNames
             else pageNames)) by reflexivity.
  rewrite push_pages. cbn [app].
  destruct (pageNames_invariant (steps scenario) [] (NoDup_nil _) (incl_nil_l _))
    as (Hn & Hi & He). cbv zeta in *.
  set (names := fold_left _ (steps scenario) []) in *.
  assert (NoDup (map (fun n => ("pages/" ++ n ++ "Page.ts")%string) names)) as Hnd.
  { apply NoDup_map_NoDup_ForallPairs; [| exact Hn].
    intros x y Hx Hy. apply Hi in Hx, Hy. cbn in Hx, Hy.
    destruct Hx as [<-|[<-|[<-|[<-|[]]]]]; destruct Hy as [<-|[<-|[<-|[<-|[]]]]];
      cbn; congruence. }
  assert (incl (map (fun n => ("pages/" ++ n ++ "Page.ts")%string) names) page_object_files) as Hin.
  { intros f Hf. apply in_map_iff in Hf as (n & <- & Hn0). apply Hi in Hn0. cbn in Hn0.
    destruct Hn0 as [<-|[<-|[<-|[<-|[]]]]]; cbn; auto. }
  repeat split.
  - exact Hnd.
  - exact Hin.
  - apply (NoDup_incl_length Hnd Hin).
  - intros E. apply map_eq_nil in E. apply He in E. apply E.
  - intros HF. destruct He as [_ He]. rewrite He; [reflexivity | auto].
Qed.

(* ===================================================================== *)
(** ** File names, titles and selector resolution *)
(* ===================================================================== *)

Lemma forallb_append (p : ascii -> bool) (a b : string) :
  JS.forallb p (a ++ b) = JS.forallb p a && JS.forallb p b.
Proof.
  induction a as [|c a IH]; cbn; [reflexivity|]. now rewrite IH, andb_assoc.
Qed.

Lemma forallb_weaken (p q : ascii -> bool) (s : string) :
  JS.forallb p s = true -> (forall c, p c = true -> q c = true) ->
  JS.forallb q s = true.
Proof.
  intros Hs Hpq. induction s as [|c r IH]; cbn in *; [reflexivity|].
  apply andb_true_iff in Hs as [Hc Hr]. now rewrite (Hpq c Hc), (IH Hr).
Qed.

Lemma replace_ws_runs_chars (s : string) :
  JS.forallb (fun c => JS.is_alnum c || JS.is_space c || Ascii.eqb c "_"%char) s = true ->
  forall b,
    JS.forallb (fun c => JS.is_alnum c || Ascii.eqb c "_"%char)
      (CombinedServer.replace_ws_runs "_"%char b s) = true.
Proof.
  induction s as [|c r IH]; cbn; [reflexivity|].
  intros Hs b. apply andb_true_iff in Hs as [Hc Hr].
  destruct (JS.is_space c) eqn:Es.
  - destruct b; cbn; auto.
  - cbn. rewrite (IH Hr), andb_true_r. rewrite orb_false_r in Hc. exact Hc.
Qed.

Lemma file_stem_chars (scenario_name : string) :
  JS.forallb (fun c => JS.is_alnum c || Ascii.eqb c "_"%char)
    (CombinedServer.file_stem scenario_name) = true.
Proof.
  unfold CombinedServer.file_stem. apply replace_ws_runs_chars.
  induction scenario_name as [|c r IH]; cbn; [reflexivity|].
  rewrite IH, andb_true_r.
  destruct (JS.is_alnum c || JS.is_space c) eqn:E; cbn.
  - now rewrite E.
  - reflexivity.
Qed.

Lemma timestamp_chars (iso : string) :
  JS.forallb iso_char iso = true ->
  JS.forallb file_char (CombinedServer.timestamp iso) = true.
Proof.
  unfold CombinedServer.timestamp.
  induction iso as [|c r IH]; cbn [JS.forallb CombinedServer.replace_chars];
    [reflexivity|].
  intros Hs. apply andb_true_iff in Hs as [Hc Hr]. rewrite (IH Hr), andb_true_r.
  clear - Hc. destruct c as [[] [] [] [] [] [] [] []]; vm_compute in Hc |- *; congruence.
Qed.

(** X5: the name of the file a compiled scenario is saved under is made of
    letters, digits, [_] and [-] up to its extension [.spec.ts], whatever the
    name of the scenario is: no character of the scenario name, a path
    separator or a dot say, reaches the file name, and the colons and dots of
    the time stamp are replaced. *)
Theorem specFileName_is_safe (scenario_name iso : string) :
  JS.forallb iso_char iso = true ->
  exists stem,
    CombinedServer.specFileName scenario_name iso = stem ++ ".spec.ts"
    /\ JS.forallb file_char stem = true
    /\ JS.forallb (fun c => JS.is_alnum c || Ascii.eqb c "_"%char)
         (CombinedServer.file_stem scenario_name) = true
    /\ String.length (CombinedServer.timestamp iso) = String.length iso.
Proof.
  intros Hiso.
  exists (CombinedServer.file_stem scenario_name ++ "_" ++ CombinedServer.timestamp iso).
  split; [| split; [| split]].
  - unfold CombinedServer.specFileName. now rewrite !append_assoc.
  - rewrite !forallb_append, (timestamp_chars iso Hiso).
    rewrite (forallb_weaken _ file_char _ (file_stem_chars scenario_name)).
    + reflexivity.
    + intros c Hc. unfold file_char. apply orb_true_iff in Hc as [-> | ->];
        [reflexivity | now rewrite orb_true_r].
  - apply file_stem_chars.
  - unfold CombinedServer.timestamp. induction iso as [|c r IH]; cbn; [reflexivity|].
    apply andb_true_iff in Hiso as [_ Hr]. now rewrite (IH Hr).
Qed.

Lemma specFileName_is_safe_witness :
  exists stem,
    CombinedServer.specFileName "Failed Login - Incorrect Password"
      "2025-08-26T07:12:47.789Z" = stem ++ ".spec.ts"
    /\ JS.forallb file_char stem = true.
Proof.
  destruct (specFileName_is_safe "Failed Login - Incorrect Password"
              "2025-08-26T07:12:47.789Z" eq_refl) as (stem & E & Hs & _).
  exists stem. split; [exact E | exact Hs].
Defined.

(** The file of the repository that was saved under such a name. *)
Example specFileName_of_failed_login :
  CombinedServer.specFileName "Failed Login - Incorrect Password"
    "2025-08-26T07:12:47.789Z"
  = "Failed_Login___Incorrect_Password_2025-08-26T07-12-47-789Z.spec.ts".
Proof. reflexivity. Qed.

Lemma sanitized_twice (s : string) :
  forall b b', (b' = true -> b = true) ->
  sanitized_title b' (sanitized_title b s) = sanitized_title b s.
Proof.
  induction s as [|c r IH]; intros b b' Hb; cbn [sanitized_title].
  - reflexivity.
  - destruct (JS.is_alnum c) eqn:Ea.
    + cbn [sanitized_title]. rewrite Ea. f_equal. apply IH. discriminate.
    + destruct (JS.is_space c) eqn:Es.
      * destruct b.
        -- apply IH. reflexivity.
        -- destruct b'; [specialize (Hb eq_refl); discriminate|].
           cbn. f_equal. apply IH. reflexivity.
      * apply IH. exact Hb.
Qed.

(** X6: the title of a test is a fixed point of the sanitisation: the title
    of a title is the title itself, so a scenario named after the title of
    another scenario gets the same title. *)
Theorem testName_idempotent (scenario_name : string) :
  Regex.testName (Regex.testName scenario_name) = Regex.testName scenario_name.
Proof.
  unfold Regex.testName. rewrite !collapse_filter_sanitized.
  apply sanitized_twice. discriminate.
Qed.

Lemma same_case_blocks (options : CompileOptions) (step : TestStep) :
  same_case options step = true ->
  compiler_block options step = combined_block options step.
Proof.
  unfold same_case, compiler_block, combined_block,
    CompilerApi.switch_action, CombinedApi.switch_action.
  destruct (String.eqb_spec (action step) "goto") as [->|_]; [reflexivity|].
  destruct (String.eqb_spec (action step) "click") as [->|_].
  - intros _. cbn [String.eqb Ascii.eqb Bool.eqb].
    unfold CompilerApi.case_click, CombinedApi.case_click. cbv zeta.
    destruct (String.eqb (selectorStrategy options) "role-first"
              && JS.startsWith (target step) "role=") eqn:E; [| reflexivity].
    apply andb_true_iff in E as [_ E].
    rewrite (role_target_is_not_text _ E).
    destruct (Regex.match_role (target step)) as [[role g]|]; reflexivity.
  - destruct (String.eqb_spec (action step) "fill") as [->|_].
    + cbn [String.eqb Ascii.eqb Bool.eqb orb andb]. intros E.
      unfold CompilerApi.case_fill, CombinedApi.case_fill. cbv zeta.
      apply negb_true_iff in E. rewrite E. reflexivity.
    + cbn [orb andb]. rewrite orb_false_r.
      destruct (String.eqb_spec (action step) "expect") as [->|_]; [|discriminate].
      reflexivity.
Qed.

(** X7: on a scenario made of [goto], [click] and [expect] steps, and of
    [fill] steps that are not resolved by role, the code generator of the
    compile service and the one of the combined API server emit the same
    text. *)
Theorem generators_agree (scenario : TestScenario) (options : CompileOptions) :
  forallb (same_case options) (steps scenario) = true ->
  CompilerApi.generatePlaywrightTest scenario options
  = CombinedApi.generatePlaywrightTest scenario options.
Proof.
  intros Hs. rewrite compiler_generate_shape, combined_generate_shape.
  assert (map (compiler_block options) (steps scenario)
          = map (combined_block options) (steps scenario)) as ->; [| reflexivity].
  induction (steps scenario) as [|st rest IH]; cbn [map forallb] in *; [reflexivity|].
  apply andb_true_iff in Hs as [Hst Hs].
  now rewrite (same_case_blocks options st Hst), (IH Hs).
Qed.

Lemma generators_agree_witness :
  CompilerApi.generatePlaywrightTest roundtrip_scenario role_first_options
  = CombinedApi.generatePlaywrightTest roundtrip_scenario role_first_options.
Proof. apply (generators_agree roundtrip_scenario role_first_options). reflexivity. Defined.

(** The two generators part on a [fill] resolved by a role without a name. *)
Example generators_differ_on_role_fill :
  compiler_block role_first_options (mkStep "fill" "role=textbox" (Some "bob") "d")
  <> combined_block role_first_options (mkStep "fill" "role=textbox" (Some "bob") "d")
  /\ compiler_block role_first_options (mkStep "fill" "role=textbox" (Some "bob") "d")
     = "  // Fill input field" ++ JS.nl
       ++ "  await page.locator('role=textbox').fill('bob');" ++ JS.nl
  /\ combined_block role_first_options (mkStep "fill" "role=textbox" (Some "bob") "d")
     = "  // Fill input field" ++ JS.nl
       ++ "  await page.getByRole('textbox').fill('bob');" ++ JS.nl.
Proof. split; [vm_compute; discriminate | split; vm_compute; reflexivity]. Qed.

Lemma span_app (p : ascii -> bool) (a rest : string) :
  JS.forallb p a = true ->
  match rest with
  | EmptyString => True
  | String c _ => p c = false
  end ->
  JS.span p (a ++ rest) = (a, rest).
Proof.
  intros Ha Hr. induction a as [|c a IH]; cbn in *.
  - destruct rest as [|c r]; [reflexivity|]. cbn. now rewrite Hr.
  - apply andb_true_iff in Ha as [Hc Ha]. now rewrite Hc, (IH Ha).
Qed.

Lemma search_here {A : Type} (m : string -> option A) (s : string) (a : A) :
  m s = Some a -> JS.search m s = Some a.
Proof. intros E. destruct s; cbn; now rewrite E. Qed.

Lemma replace_match_here (m : string -> option string) (s r : string) :
  m s = Some r -> JS.replace_match m s = r.
Proof. intros E. destruct s; cbn; now rewrite E. Qed.

Lemma match_role_expression (r0 n0 : ascii) (rs ns : string) :
  JS.forallb Regex.not_bracket (String r0 rs) = true ->
  JS.forallb (fun c => Regex.not_quote c && Regex.not_close c) (String n0 ns) = true ->
  Regex.match_role (role_expression (String r0 rs) (String n0 ns))
  = Some (String r0 rs, Some ("name='" ++ String n0 ns ++ "'"))
  /\ Regex.replace_name ("name='" ++ String n0 ns ++ "'") = String n0 ns.
Proof.
  intros Hr Hn. split.
  - apply search_here. unfold role_expression, Regex.role_at.
    change (JS.startsWith ("role=" ++ String r0 rs ++ "[name='" ++ String n0 ns ++ "']")
              "role=") with true.
    change (JS.drop 5 ("role=" ++ String r0 rs ++ "[name='" ++ String n0 ns ++ "']"))
      with (String r0 rs ++ "[name='" ++ String n0 ns ++ "']").
    rewrite (span_app Regex.not_bracket (String r0 rs)
               ("[name='" ++ String n0 ns ++ "']") Hr) by reflexivity.
    cbv iota beta. f_equal. f_equal.
    unfold Regex.role_name_group.
    change ("[name='" ++ String n0 ns ++ "']")
      with (String "["%char ("name='" ++ String n0 ns ++ "']")).
    cbv iota beta. change (Ascii.eqb "[" "[") with true. cbv iota.
    replace ("name='" ++ String n0 ns ++ "']")
      with (("name='" ++ String n0 ns ++ "'") ++ "]")
      by (rewrite !append_assoc; reflexivity).
    rewrite span_app; [reflexivity | | reflexivity].
    rewrite !forallb_append.
    rewrite (forallb_weaken _ Regex.not_close _ Hn)
      by (intros c Hc; now apply andb_true_iff in Hc as [_ Hc]).
    reflexivity.
  - unfold Regex.replace_name. apply replace_match_here. unfold Regex.name_at.
    change (JS.startsWith ("name='" ++ String n0 ns ++ "'") "name=") with true.
    change (JS.drop 5 ("name='" ++ String n0 ns ++ "'"))
      with (String "'"%char (String n0 ns ++ "'")).
    cbv iota beta. change (Regex.is_quote "'") with true. cbv iota.
    rewrite (span_app Regex.not_quote (String n0 ns) "'"); [| | reflexivity].
    + cbv iota beta. now rewrite append_empty_r.
    + apply (forallb_weaken _ _ _ Hn). intros c Hc.
      now apply andb_true_iff in Hc as [Hc _].
Qed.

(** X8: with the strategy [role-first], a [click] and a [fill] on the role
    expression [role=<role>[name='<name>']] are emitted as look-ups by role
    and name, with the role and the name taken out of the expression; with any
    other strategy the expression is passed to [page.locator] as it is. *)
Theorem role_expression_resolution (r0 n0 : ascii) (rs ns : string)
    (d : option string) (description : string) (options : CompileOptions) :
  let role := String r0 rs in
  let name := String n0 ns in
  JS.forallb Regex.not_bracket role = true ->
  JS.forallb (fun c => Regex.not_quote c && Regex.not_close c) name = true ->
  (selectorStrategy options = "role-first" ->
     compiler_block options
       (mkStep "click" (role_expression role name) d description)
     = "  // Click on element" ++ JS.nl
       ++ "  await page.getByRole('" ++ role ++ "', { name: '" ++ name
       ++ "' }).click();" ++ JS.nl
     /\ compiler_block options
          (mkStep "fill" (role_expression role name) d description)
        = "  // Fill input field" ++ JS.nl
          ++ "  await page.getByRole('" ++ role ++ "', { name: '" ++ name
          ++ "' }).fill('" ++ JS.or_str d "" ++ "');" ++ JS.nl)
  /\ (String.eqb (selectorStrategy options) "role-first" = false ->
      compiler_block options
        (mkStep "click" (role_expression role name) d description)
      = "  // Click on element" ++ JS.nl
        ++ "  await page.locator('" ++ role_expression role name ++ "').click();"
        ++ JS.nl).
Proof.
  intros role name Hr Hn.
  destruct (match_role_expression r0 n0 rs ns Hr Hn) as [Hm Hrep].
  fold role name in Hm, Hrep.
  assert (JS.startsWith (role_expression role name) "role=" = true) as Hs by reflexivity.
  assert (JS.startsWith (role_expression role name) "text=" = false) as Ht
    by (apply role_target_is_not_text; exact Hs).
  split.
  - intros Ho. unfold compiler_block, CompilerApi.switch_action.
    cbn [action String.eqb Ascii.eqb Bool.eqb orb].
    unfold CompilerApi.case_click, CompilerApi.case_fill. cbv zeta.
    cbn [target data]. rewrite Ho, Hs, Hm.
    cbn [String.eqb Ascii.eqb Bool.eqb andb].
    change (JS.truthy (Some ("name='" ++ name ++ "'"))) with true. cbv iota.
    rewrite Hrep. unfold name at 1 3. cbn [JS.truthy JS.or_str]. fold name.
    split; rewrite ?append_assoc; reflexivity.
  - intros Ho. unfold compiler_block, CompilerApi.switch_action.
    cbn [action String.eqb Ascii.eqb Bool.eqb orb].
    unfold CompilerApi.case_click. cbv zeta. cbn [target].
    rewrite Ho, Ht. cbn [andb]. rewrite ?append_assoc. reflexivity.
Qed.

Lemma role_expression_resolution_witness :
  compiler_block role_first_options
    (mkStep "click" "role=button[name='Sign in']" None "sign in")
  = "  // Click on element" ++ JS.nl
    ++ "  await page.getByRole('button', { name: 'Sign in' }).click();" ++ JS.nl.
Proof.
  destruct (role_expression_resolution "b" "S" "utton" "ign in" None "sign in"
              role_first_options eq_refl eq_refl) as [Hc _].
  apply Hc. reflexivity.
Defined.

(* ===================================================================== *)
(** ** The automation session and the repair of a step *)
(* ===================================================================== *)

Section SessionFacts.
Context `{Platform}.
Import Calls.

(** X9: [disconnect] leaves the client without a client object, without a
    transport and not connected, whatever state it was in, so it can be called
    twice or without a [connect]; after it, [executeStep] and
    [validateSelector] answer that the client is not connected and ask
    nothing of the backend. *)
Theorem disconnect_is_final (this : MCPClient) (action target selector : string)
    (data : option string) (w : World) :
  Client.disconnect this = new_MCPClient
  /\ Client.disconnect (Client.disconnect this) = Client.disconnect this
  /\ Client.executeStep (Client.disconnect this) action target data w
     = (Ok (Client.failure "Not connected to MCP server"), w)
  /\ Client.validateSelector (Client.disconnect this) selector w
     = (Ok (Client.failure "Not connected to MCP server"), w).
Proof.
  rewrite !disconnect_disconnects. repeat split.
Qed.

Lemma connect_cases (this : MCPClient) (w : World) :
  match sdk_connect w with
  | (Ok _, w1) => Client.connect this w = (Ok (mkClient true true true, true), w1)
  | (Throw _, w1) => Client.connect this w = (Ok (mkClient true false true, false), w1)
  end.
Proof.
  unfold Client.connect, try_catch, bind, ret. cbv zeta.
  destruct (sdk_connect w) as [[u|e] w1]; reflexivity.
Qed.

(** X10: [connect] never throws.  It answers [true], with the client
    connected, exactly when the connection of the SDK succeeds; when that
    throws it answers [false], and the client, though its client object and
    its transport are set, answers every later call with a failure, without
    asking the backend. *)
Theorem connect_outcome (this : MCPClient) (w : World) :
  exists c b,
    Client.connect this w = (Ok (c, b), snd (sdk_connect w))
    /\ isConnected c = b /\ client c = true /\ transport c = true
    /\ (b = true <-> exists u, fst (sdk_connect w) = Ok u)
    /\ (b = false ->
        forall action target data w2,
          Client.executeStep c action target data w2
          = (Ok (Client.failure "Not connected to MCP server"), w2)
          /\ Client.validateSelector c target w2
             = (Ok (Client.failure "Not connected to MCP server"), w2)).
Proof.
  pose proof (connect_cases this w) as Hc.
  destruct (sdk_connect w) as [[u|e] w1]; cbn [fst snd].
  - exists (mkClient true true true), true. split; [exact Hc|]. cbn.
    split; [reflexivity | split; [reflexivity | split; [reflexivity | split]]].
    + split; [intros _; now exists u | reflexivity].
    + discriminate.
  - exists (mkClient true false true), false. split; [exact Hc|]. cbn.
    split; [reflexivity | split; [reflexivity | split; [reflexivity | split]]].
    + split; [discriminate | intros [u Hu]; discriminate].
    + intros _ action target data w2. split; reflexivity.
Qed.

Ltac run_call :=
  unfold try_catch, bind, ret;
  match goal with
  | |- context [callTool ?n ?a ?w] => destruct (callTool n a w) as [[?result|?e] ?w1]
  end;
  cbn [fst snd];
  [ match goal with
    | |- context [Client.first_text ?r] => destruct (Client.first_text r) as [?t|]
    end;
    [ match goal with
      | |- context [JSON_parse_reply ?t] => destruct (JSON_parse_reply t) as [?m| |?p]
      end |]
  | ];
  eexists; (split; [reflexivity|]); cbn; eauto.

(** X11: on a connected client [executeStep] calls one tool per action:
    [playwright_navigate] for [goto], [playwright_click], [playwright_fill],
    [playwright_expect], [playwright_wait] and [playwright_type] for the
    actions of these names; any other action is answered with the failure
    [Unknown action: <action>] without a call.  The answer is a success
    whenever the call returns, whatever the reply says, and a failure with the
    message of the error whenever the call throws. *)
Theorem executeStep_dispatch (this : MCPClient) (action target : string)
    (data : option string) (w : World) :
  isConnected this = true -> client this = true ->
  match tool_call action target data with
  | None =>
      Client.executeStep this action target data w
      = (Ok (Client.failure ("Unknown action: " ++ action)), w)
  | Some (tool, arguments) =>
      exists r,
        Client.executeStep this action target data w
        = (Ok r, snd (callTool tool arguments w))
        /\ match fst (callTool tool arguments w) with
           | Ok _ => success r = true /\ error r = None
           | Throw e =>
               success r = false /\ improvedSelector r = None
               /\ exists fallback, error r = Some (message_or e fallback)
           end
  end.
Proof.
  intros Hc Hcl. unfold Client.executeStep, tool_call. rewrite Hc, Hcl. cbn [negb orb].
  destruct (String.eqb action "goto"); [unfold Client.navigate; run_call|].
  destruct (String.eqb action "click"); [unfold Client.click; run_call|].
  destruct (String.eqb action "fill"); [unfold Client.fill; run_call|].
  destruct (String.eqb action "expect"); [unfold Client.expect; run_call|].
  destruct (String.eqb action "wait"); [unfold Client.wait; run_call|].
  destruct (String.eqb action "type"); [unfold Client.type_; run_call|].
  reflexivity.
Qed.

End SessionFacts.

Lemma executeStep_dispatch_witness :
  exists r,
    @Client.executeStep Scripted.platform Scripted.connected "click" "#login" None
      ScriptedMore.click_answered = (Ok r, Scripted.backend_down)
    /\ success r = true.
Proof.
  pose proof (@executeStep_dispatch Scripted.platform Scripted.connected "click" "#login"
                None ScriptedMore.click_answered eq_refl eq_refl) as Hd.
  cbn in Hd. destruct Hd as (r & E & Hs & _).
  exists r. split; [exact E | exact Hs].
Defined.

Section StepFacts.
Context `{Platform}.
Import Calls.

Ltac open_calls :=
  repeat (cbn [fst snd] in *;
    match goal with
    | |- context [Client.validateSelector ?t ?s ?w] =>
        let E := fresh "Ev" in
        destruct (validateSelector_returns t s w) as (?vr & ?w & E); rewrite E
    | |- context [Client.executeStep ?t ?a ?s ?d ?w] =>
        let E := fresh "Ee" in
        destruct (executeStep_returns t a s d w) as (?er & ?w & E); rewrite E
    | |- context [if success ?r then _ else _] => destruct (success r) eqn:?
    end).

Ltac each_action step :=
  destruct (String.eqb_spec (action step) "goto") as [Eg|Ng];
  [rewrite Eg|
  destruct (String.eqb_spec (action step) "click") as [Eg|Nc];
  [rewrite Eg|
  destruct (String.eqb_spec (action step) "fill") as [Eg|Nf];
  [rewrite Eg|
  destruct (String.eqb_spec (action step) "expect") as [Eg|Ne];
  [rewrite Eg|
  destruct (String.eqb_spec (action step) "wait") as [Eg|Nw];
  [rewrite Eg|
  destruct (String.eqb_spec (action step) "type") as [Eg|Nt];
  [rewrite Eg|]]]]]];
  cbn [String.eqb Ascii.eqb Bool.eqb andb orb negb].

Lemma suffix_after_1 (a v : string) : exists said, a ++ v = said ++ v.
Proof. now exists a. Qed.

Lemma suffix_after_4 (a b c d v : string) :
  exists said, a ++ b ++ c ++ d ++ v = said ++ v.
Proof. exists (a ++ b ++ c ++ d). now rewrite !append_assoc. Qed.

Lemma suffix_after_5 (a b c d e v : string) :
  exists said, a ++ b ++ c ++ d ++ e ++ v = said ++ v.
Proof. exists (a ++ b ++ c ++ d ++ e). now rewrite !append_assoc. Qed.

(** X12: the target of a repaired step is the selector the step was executed
    with: the selector the validation offered, when it succeeded and offered
    a non-empty one, and the target of the input step otherwise.  When the
    execution call succeeds, the description names that selector: it ends
    with [(validated selector: <target>)], but for the navigation of a first
    [goto] step, which is described by the URL of the run and keeps its
    target. *)
Theorem repaired_step_names_executed_selector (this : MCPClient) (step : TestStep)
    (url : string) (isFirstStep : bool) (w : World) :
  exists out w',
    LLMCompiler.executeStepWithMCP this step url isFirstStep w = (Ok out, w')
    /\ target out = executed_target this step w
    /\ (reports_success (execution_result this step url isFirstStep w) = true ->
        if isFirstStep && String.eqb (action step) "goto"
        then description out = "Successfully navigated to " ++ url
             /\ target out = target step
        else exists said,
               description out = said ++ LLMCompiler.validated (target out)).
Proof.
  unfold execution_result, executed_target, validation_result,
    world_after_validation, validates, executes, LLMCompiler.executeStepWithMCP.
  each_action step.
  all: destruct isFirstStep; cbn [andb orb].
  all: unfold bind, try_catch, ret; cbv zeta beta.
  all: try destruct (String.eqb (target step) "#body") eqn:Eb; cbn [negb andb orb].
  all: open_calls.
  all: eexists; eexists; (split; [reflexivity|]); cbn [action data target description].
  all: unfold reports_success.
  all: split; [reflexivity|].
  all: try (cbn; intros; congruence).
  all: try (intros _; split; reflexivity).
  all: intros _; first [apply suffix_after_5 | apply suffix_after_4 | apply suffix_after_1].
Qed.

(** X13: a step for which no call is made, a [goto] step that is not the
    first step, a [select] or a [hover] step, or a step with any other action
    the repair has no branch for, comes back as it was, and the world is as it
    was: the backend is not asked. *)
Theorem unexecuted_step_is_untouched (this : MCPClient) (step : TestStep)
    (url : string) (isFirstStep : bool) (w : World) :
  executes step isFirstStep = false ->
  LLMCompiler.executeStepWithMCP this step url isFirstStep w = (Ok step, w).
Proof.
  unfold executes, LLMCompiler.executeStepWithMCP. intros He.
  repeat (apply orb_false_iff in He as [He ?]).
  repeat match goal with E : _ = false |- _ => rewrite E; clear E end.
  cbn [orb]. unfold bind, try_catch, ret. cbv zeta beta.
  destruct step; reflexivity.
Qed.

(** The repair of a step on a client that is not connected. *)
Lemma step_on_disconnected_client (this : MCPClient) (step : TestStep)
    (url : string) (isFirstStep : bool) (w : World) :
  isConnected this = false ->
  LLMCompiler.executeStepWithMCP this step url isFirstStep w = (Ok step, w).
Proof.
  intros Hc.
  assert (forall a t d w0,
             Client.executeStep this a t d w0
             = (Ok (Client.failure "Not connected to MCP server"), w0)) as He
    by (intros; now apply not_connected_fails).
  assert (forall t w0,
             Client.validateSelector this t w0
             = (Ok (Client.failure "Not connected to MCP server"), w0)) as Hv
    by (intros; now apply (not_connected_fails this "" t None w0)).
  unfold LLMCompiler.executeStepWithMCP.
  each_action step.
  all: destruct isFirstStep; cbn [andb orb].
  all: unfold bind, try_catch, ret; cbv zeta beta.
  all: try destruct (String.eqb (target step) "#body") eqn:Eb; cbn [negb andb orb].
  all: rewrite ?Hv, ?He; cbn.
  all: rewrite ?He; cbn.
  all: try rewrite <- Eg.
  all: destruct step; reflexivity.
Qed.

Lemma loop_on_disconnected_client (this : MCPClient) (url : string)
    (steps : list TestStep) :
  isConnected this = false ->
  forall i improvedSteps w,
    exists w',
      LLMCompiler.executeScenarioWithMCP_loop this url steps i improvedSteps w
      = (Ok (improvedSteps ++ steps)%list, w').
Proof.
  intros Hc. induction steps as [|step rest IH]; intros i improvedSteps w.
  - exists w. cbn. now rewrite app_nil_r.
  - cbn [LLMCompiler.executeScenarioWithMCP_loop].
    unfold bind at 1. unfold try_catch. unfold bind at 1.
    rewrite (step_on_disconnected_client this step url (Nat.eqb i 0) w Hc).
    cbv zeta. unfold bind at 1. unfold sleep, ret.
    destruct (IH (S i) (improvedSteps ++ [step])%list (elapse 1000 w)) as (w' & E).
    exists w'. rewrite E, <- app_assoc. reflexivity.
Qed.

(** X14: with a client that is not connected, the repair of a list of
    scenarios changes no step: every scenario comes back with its id, its
    name, its tags and its steps as they were; only [timeTakenToCompile] is
    set. *)
Theorem repair_on_disconnected_client (this : MCPClient) (url : string)
    (scenarios : list TestScenario) (sch : Schedule) (w : World) :
  isConnected this = false ->
  exists out,
    LLMCompiler.validateSelectorsWithMCP this url scenarios sch w = (Ok out, joined sch)
    /\ Forall2 (fun input output =>
                  id output = id input /\ name output = name input
                  /\ tags output = tags input /\ steps output = steps input
                  /\ timeTakenToCompile output <> None) scenarios out.
Proof.
  intros Hc. unfold LLMCompiler.validateSelectorsWithMCP.
  assert (forall i, exists out,
             Promise_all (map (LLMCompiler.scenario_task this url) scenarios)
               (views sch) i = Ok out
             /\ Forall2 (fun input output =>
                  id output = id input /\ name output = name input
                  /\ tags output = tags input /\ steps output = steps input
                  /\ timeTakenToCompile output <> None) scenarios out) as Hall.
  { induction scenarios as [|s rest IH]; intro i.
    - exists []. split; [reflexivity | constructor].
    - cbn [map Promise_all].
      destruct (loop_on_disconnected_client this url (steps s) Hc 0%nat [] (views sch i))
        as (w' & E).
      unfold LLMCompiler.scenario_task at 1, try_catch, now.
      unfold bind at 1. unfold LLMCompiler.executeScenarioWithMCP.
      unfold bind at 1. rewrite E. unfold bind, ret. cbn [fst].
      destruct (IH (S i)) as (out & -> & HF).
      eexists. split; [reflexivity|]. constructor; [| exact HF].
      cbn. repeat split. discriminate. }
  destruct (Hall 0%nat) as (out & -> & HF). now exists out.
Qed.

Lemma scenario_task_sets_time (this : MCPClient) (url : string)
    (scenario : TestScenario) (w : World) :
  exists out w' ms,
    LLMCompiler.scenario_task this url scenario w = (Ok out, w')
    /\ timeTakenToCompile out = Some (JS.of_Z ms ++ "ms")
    /\ ms = Date_now w' - Date_now w.
Proof.
  unfold LLMCompiler.scenario_task, try_catch, now. unfold bind at 1.
  destruct (executeScenarioWithMCP_returns this url (steps scenario) w)
    as (out & w' & E & _).
  erewrite bind_ok by exact E. unfold bind, ret. cbv zeta.
  eexists; eexists; eexists; split; [reflexivity|]. cbn. split; reflexivity.
Qed.

(** X15: after the repair every scenario carries [timeTakenToCompile], a
    number of milliseconds followed by [ms]: the task of a scenario never
    falls back to the scenario it was given. *)
Theorem repair_sets_timeTakenToCompile (this : MCPClient) (url : string)
    (scenarios : list TestScenario) (sch : Schedule) (w : World) :
  exists out,
    LLMCompiler.validateSelectorsWithMCP this url scenarios sch w = (Ok out, joined sch)
    /\ Forall (fun output =>
                 exists ms, timeTakenToCompile output = Some (JS.of_Z ms ++ "ms")) out.
Proof.
  unfold LLMCompiler.validateSelectorsWithMCP.
  assert (forall i, exists out,
             Promise_all (map (LLMCompiler.scenario_task this url) scenarios)
               (views sch) i = Ok out
             /\ Forall (fun output =>
                  exists ms, timeTakenToCompile output = Some (JS.of_Z ms ++ "ms")) out)
    as Hall.
  { induction scenarios as [|s rest IH]; intro i.
    - exists []. split; [reflexivity | constructor].
    - cbn [map Promise_all].
      destruct (scenario_task_sets_time this url s (views sch i))
        as (o & w' & ms & -> & Ht & _).
      destruct (IH (S i)) as (out & -> & HF). cbn [fst].
      exists (o :: out). split; [reflexivity|]. constructor; eauto. }
  destruct (Hall 0%nat) as (out & -> & HF). now exists out.
Qed.

End StepFacts.

Lemma unexecuted_step_is_untouched_witness :
  @LLMCompiler.executeStepWithMCP Scripted.platform Scripted.connected
    Scripted.hover_menu "https://x.test" true Scripted.fill_down
  = (Ok Scripted.hover_menu, Scripted.fill_down).
Proof.
  apply (@unexecuted_step_is_untouched Scripted.platform). reflexivity.
Defined.

Lemma repair_on_disconnected_client_witness :
  exists out,
    fst (@LLMCompiler.validateSelectorsWithMCP Scripted.platform new_MCPClient
           "https://x.test" [roundtrip_scenario]
           (@mkSchedule Scripted.platform (fun _ => Scripted.fill_down) Scripted.fill_down)
           Scripted.fill_down) = Ok out
    /\ map steps out = [steps roundtrip_scenario].
Proof.
  destruct (@repair_on_disconnected_client Scripted.platform new_MCPClient
              "https://x.test" [roundtrip_scenario]
              (@mkSchedule Scripted.platform (fun _ => Scripted.fill_down) Scripted.fill_down)
              Scripted.fill_down eq_refl) as (out & E & HF).
  exists out. split; [now rewrite E|].
  inversion HF as [|? o ? os (_ & _ & _ & Hs & _) HF']; subst.
  inversion HF'; subst. cbn. now rewrite Hs.
Defined.

(* ===================================================================== *)
(** ** The text service and the run *)
(* ===================================================================== *)

Lemma forallb_drop (p : ascii -> bool) (n : nat) :
  forall s, JS.forallb p s = true -> JS.forallb p (JS.drop n s) = true.
Proof.
  induction n as [|n IH]; intros s Hs; [exact Hs|].
  destruct s as [|c r]; [reflexivity|]. cbn in *.
  apply andb_true_iff in Hs as [_ Hr]. now apply IH.
Qed.

Lemma forallb_span_snd (p q : ascii -> bool) (s : string) :
  JS.forallb p s = true -> JS.forallb p (snd (JS.span q s)) = true.
Proof.
  induction s as [|c r IH]; intros Hs; [reflexivity|]. cbn [JS.span].
  destruct (q c); [| exact Hs].
  cbn in Hs. apply andb_true_iff in Hs as [_ Hr]. specialize (IH Hr).
  destruct (JS.span q r). exact IH.
Qed.

Lemma forallb_lazy_group (p : ascii -> bool) (s : string) :
  forall g, Gemini.lazy_group s = Some g -> JS.forallb p s = true ->
            JS.forallb p g = true.
Proof.
  induction s as [|c r IH]; intros g; cbn [Gemini.lazy_group].
  - destruct (Gemini.closes_fence ""); [intros [= <-]; reflexivity | discriminate].
  - destruct (Gemini.closes_fence (String c r)); [intros [= <-]; reflexivity|].
    destruct (Gemini.lazy_group r) as [g'|]; [|discriminate].
    intros [= <-] Hs. cbn in *. apply andb_true_iff in Hs as [Hc Hr].
    now rewrite Hc, (IH g' eq_refl Hr).
Qed.

Lemma forallb_fence_group (p : ascii -> bool) (s : string) :
  forall g, JS.search Gemini.fence_at s = Some g -> JS.forallb p s = true ->
            JS.forallb p g = true.
Proof.
  assert (forall t g, Gemini.fence_at t = Some g -> JS.forallb p t = true ->
                      JS.forallb p g = true) as Hat.
  { intros t g. unfold Gemini.fence_at.
    destruct (JS.startsWith t "```json"); [|discriminate].
    intros Hg Ht. eapply forallb_lazy_group; [exact Hg|].
    apply forallb_span_snd. now apply forallb_drop. }
  induction s as [|c r IH]; intros g; cbn [JS.search].
  - destruct (Gemini.fence_at "") eqn:E; [|discriminate].
    intros [= <-] Hs. now apply (Hat "" s).
  - destruct (Gemini.fence_at (String c r)) eqn:E.
    + intros [= <-] Hs. now apply (Hat _ _ E).
    + intros Hg Hs. cbn in Hs. apply andb_true_iff in Hs as [_ Hr]. now apply IH.
Qed.

Lemma no_object_without_brace (s : string) :
  JS.forallb not_open_brace s = true -> JS.search Gemini.object_at s = None.
Proof.
  induction s as [|c r IH]; intros Hs; [reflexivity|].
  cbn in Hs. apply andb_true_iff in Hs as [Hc Hr].
  cbn [JS.search Gemini.object_at]. unfold not_open_brace in Hc.
  apply negb_true_iff in Hc. rewrite Hc. now apply IH.
Qed.

Lemma no_fence_without_backtick (s : string) :
  JS.forallb not_backtick s = true -> JS.search Gemini.fence_at s = None.
Proof.
  induction s as [|c r IH]; intros Hs; [reflexivity|].
  cbn in Hs. apply andb_true_iff in Hs as [Hc Hr].
  cbn [JS.search]. unfold Gemini.fence_at at 1. cbn [JS.startsWith].
  unfold not_backtick in Hc. apply negb_true_iff in Hc.
  rewrite Ascii.eqb_sym, Hc. cbn [andb]. now apply IH.
Qed.

Lemma search_skips {A : Type} (m : string -> option A) (pre s : string) :
  (forall c r, In c (list_ascii_of_string pre) -> m (String c r) = None) ->
  JS.search m (pre ++ s) = JS.search m s.
Proof.
  induction pre as [|c pre IH]; intros Hm; [reflexivity|].
  cbn [append JS.search]. rewrite (Hm c (pre ++ s)) by (left; reflexivity).
  apply IH. intros c' r Hin. apply Hm. right. exact Hin.
Qed.

Lemma forallb_In (p : ascii -> bool) (s : string) (c : ascii) :
  JS.forallb p s = true -> In c (list_ascii_of_string s) -> p c = true.
Proof.
  induction s as [|x r IH]; cbn; [intros _ []|].
  intros Hs [<-|Hin]; apply andb_true_iff in Hs as [Hx Hr]; auto.
Qed.

Lemma upto_last_brace_none (post : string) :
  JS.forallb not_close_brace post = true -> Gemini.upto_last_brace post = None.
Proof.
  induction post as [|c r IH]; intros Hs; [reflexivity|].
  cbn in Hs. apply andb_true_iff in Hs as [Hc Hr].
  cbn [Gemini.upto_last_brace]. rewrite (IH Hr).
  unfold not_close_brace in Hc. apply negb_true_iff in Hc. now rewrite Hc.
Qed.

Lemma upto_last_brace_found (m post : string) :
  JS.forallb not_close_brace post = true ->
  Gemini.upto_last_brace (m ++ String "}"%char post) = Some (m ++ "}").
Proof.
  intros Hp. induction m as [|c m IH]; cbn [append Gemini.upto_last_brace].
  - now rewrite (upto_last_brace_none post Hp).
  - now rewrite IH.
Qed.

Lemma object_found (pre m post : string) :
  JS.forallb not_open_brace pre = true ->
  JS.forallb not_close_brace post = true ->
  JS.search Gemini.object_at (pre ++ "{" ++ m ++ "}" ++ post) = Some ("{" ++ m ++ "}").
Proof.
  intros Hpre Hpost. rewrite search_skips.
  - apply search_here. change ("{" ++ m ++ "}" ++ post) with (String "{"%char (m ++ "}" ++ post)).
    cbn [Gemini.object_at]. change (Ascii.eqb "{" "{") with true. cbv iota.
    change (m ++ "}" ++ post) with (m ++ String "}"%char post).
    now rewrite (upto_last_brace_found m post Hpost).
  - intros c r Hin. pose proof (forallb_In _ _ _ Hpre Hin) as Hc.
    unfold not_open_brace in Hc. apply negb_true_iff in Hc.
    cbn [Gemini.object_at]. now rewrite Hc.
Qed.

Lemma startsWith_prefix (p s : string) : JS.startsWith (p ++ s) p = true.
Proof.
  induction p as [|c p IH]; cbn.
  - destruct s; reflexivity.
  - now rewrite Ascii.eqb_refl, IH.
Qed.

Lemma closes_fence_false (Z rest : string) :
  JS.forallb not_backtick Z = true ->
  Gemini.closes_fence (Z ++ String "}"%char rest) = false.
Proof.
  unfold Gemini.closes_fence. induction Z as [|c Z IH]; intros HZ.
  - reflexivity.
  - cbn in HZ. apply andb_true_iff in HZ as [Hc HZ]. specialize (IH HZ).
    cbn [append JS.span]. destruct (JS.is_space c).
    + destruct (JS.span JS.is_space (Z ++ String "}"%char rest)). exact IH.
    + cbn [snd JS.startsWith]. unfold not_backtick in Hc. apply negb_true_iff in Hc.
      now rewrite Ascii.eqb_sym, Hc.
Qed.

Lemma lazy_group_stops (ws post : string) :
  JS.forallb JS.is_space ws = true ->
  Gemini.lazy_group (ws ++ "```" ++ post) = Some "".
Proof.
  intros Hws.
  assert (Gemini.closes_fence (ws ++ "```" ++ post) = true) as Hc.
  { unfold Gemini.closes_fence. rewrite (span_app JS.is_space ws ("```" ++ post) Hws).
    - apply startsWith_prefix.
    - reflexivity. }
  destruct (ws ++ "```" ++ post); cbn [Gemini.lazy_group]; now rewrite Hc.
Qed.

Lemma lazy_group_found (Y ws post : string) :
  JS.forallb not_backtick Y = true ->
  JS.forallb JS.is_space ws = true ->
  Gemini.lazy_group (Y ++ String "}"%char (ws ++ "```" ++ post)) = Some (Y ++ "}").
Proof.
  intros HY Hws. induction Y as [|c Y IH].
  - pose proof (closes_fence_false "" (ws ++ "```" ++ post) eq_refl) as Hf.
    change ("" ++ String "}"%char (ws ++ "```" ++ post))
      with (String "}"%char (ws ++ "```" ++ post)) in *.
    cbn [Gemini.lazy_group]. rewrite Hf.
    now rewrite (lazy_group_stops ws post Hws).
  - pose proof (closes_fence_false (String c Y) (ws ++ "```" ++ post) HY) as Hf.
    cbn in HY. apply andb_true_iff in HY as [Hc HY].
    change (String c Y ++ String "}"%char (ws ++ "```" ++ post))
      with (String c (Y ++ String "}"%char (ws ++ "```" ++ post))) in *.
    cbn [Gemini.lazy_group]. rewrite Hf. now rewrite (IH HY).
Qed.

Section TextFacts.
Context `{Platform}.
Import Calls.

Lemma parse_of_object_text (jsonText pre m post : string) (response : string)
    (w : World) :
  JS.search Gemini.fence_at response = None /\ response = jsonText
  \/ JS.search Gemini.fence_at response = Some jsonText ->
  JS.search Gemini.object_at jsonText = Some ("{" ++ m ++ "}") ->
  Gemini.parseGeminiResponse response w = parse_outcome ("{" ++ m ++ "}") w.
Proof.
  intros Hf Ho. unfold Gemini.parseGeminiResponse, parse_outcome, try_catch. cbv zeta.
  destruct Hf as [[-> <-]| ->]; rewrite Ho;
    destruct (JSON_parse_scenarios ("{" ++ m ++ "}")); reflexivity.
Qed.

(** X16: a reply without an opening brace cannot be parsed:
    [parseGeminiResponse] throws, the error saying that no JSON could be
    extracted, and [JSON.parse] is not called. *)
Theorem parse_without_brace_throws (response : string) (w : World) :
  JS.forallb not_open_brace response = true ->
  Gemini.parseGeminiResponse response w
  = (Throw (ErrorObj ("Failed to parse Gemini response: "
                        ++ "Could not extract JSON from Gemini response")), w).
Proof.
  intros Hr. unfold Gemini.parseGeminiResponse, try_catch. cbv zeta.
  assert (JS.search Gemini.object_at
            match JS.search Gemini.fence_at response with
            | Some g => g
            | None => response
            end = None) as ->.
  { apply no_object_without_brace.
    destruct (JS.search Gemini.fence_at response) as [g|] eqn:E; [| exact Hr].
    exact (forallb_fence_group _ _ _ E Hr). }
  reflexivity.
Qed.

(** X17: a JSON object in prose: when the reply holds no backtick, no
    opening brace before the object and no closing brace after it,
    [parseGeminiResponse] hands exactly the object, from its opening brace to
    its closing brace, to [JSON.parse], and returns what that returns; a
    syntax error comes back as the error [Failed to parse Gemini response]. *)
Theorem parse_object_in_prose (pre m post : string) (w : World) :
  JS.forallb not_backtick (pre ++ "{" ++ m ++ "}" ++ post) = true ->
  JS.forallb not_open_brace pre = true ->
  JS.forallb not_close_brace post = true ->
  Gemini.parseGeminiResponse (pre ++ "{" ++ m ++ "}" ++ post) w
  = parse_outcome ("{" ++ m ++ "}") w.
Proof.
  intros Hb Hpre Hpost.
  apply (parse_of_object_text (pre ++ "{" ++ m ++ "}" ++ post) pre m post).
  - left. split; [now apply no_fence_without_backtick | reflexivity].
  - now apply object_found.
Qed.

(** X18: a JSON object in a fenced block: when the reply opens a block with
    the fence and the word [json], holds no backtick before the block, and the
    block holds, between white space, an object without a backtick,
    [parseGeminiResponse] hands exactly that object to [JSON.parse], whatever
    follows the closing fence. *)
Theorem parse_object_in_fence (pre ws1 m ws2 post : string) (w : World) :
  JS.forallb not_backtick pre = true ->
  JS.forallb JS.is_space ws1 = true ->
  JS.forallb not_backtick m = true ->
  JS.forallb JS.is_space ws2 = true ->
  Gemini.parseGeminiResponse
    (pre ++ "```json" ++ ws1 ++ ("{" ++ m ++ "}") ++ ws2 ++ "```" ++ post) w
  = parse_outcome ("{" ++ m ++ "}") w.
Proof.
  intros Hpre Hws1 Hm Hws2.
  apply (parse_of_object_text ("{" ++ m ++ "}") "" m "").
  - right. rewrite search_skips.
    + apply search_here. unfold Gemini.fence_at.
      rewrite startsWith_prefix.
      change (JS.drop 7 ("```json" ++ ws1 ++ ("{" ++ m ++ "}") ++ ws2 ++ "```" ++ post))
        with (ws1 ++ ("{" ++ m ++ "}") ++ ws2 ++ "```" ++ post).
      cbv iota.
      rewrite (span_app JS.is_space ws1 (("{" ++ m ++ "}") ++ ws2 ++ "```" ++ post) Hws1)
        by reflexivity.
      cbn [snd].
      replace (("{" ++ m ++ "}") ++ ws2 ++ "```" ++ post)
        with (("{" ++ m) ++ String "}"%char (ws2 ++ "```" ++ post))
        by (cbn; now rewrite append_assoc).
      change ("{" ++ m ++ "}") with (("{" ++ m) ++ "}").
      apply lazy_group_found; [| exact Hws2].
      cbn. exact Hm.
    + intros c r Hin. pose proof (forallb_In _ _ _ Hpre Hin) as Hc.
      unfold Gemini.fence_at. cbn [JS.startsWith].
      unfold not_backtick in Hc. apply negb_true_iff in Hc.
      now rewrite Ascii.eqb_sym, Hc.
  - exact (object_found "" m "" eq_refl eq_refl).
Qed.

End TextFacts.

Lemma parse_without_brace_throws_witness :
  exists msg,
    @Gemini.parseGeminiResponse Scripted.platform "Sorry, I cannot help."
      Scripted.backend_down = (Throw (ErrorObj msg), Scripted.backend_down).
Proof.
  eexists.
  apply (@parse_without_brace_throws Scripted.platform "Sorry, I cannot help."
           Scripted.backend_down).
  reflexivity.
Defined.

Lemma parse_object_in_prose_witness :
  @Gemini.parseGeminiResponse Scripted.platform "Sure: {} is all I have"
    Scripted.backend_down
  = (Ok (Some (mkGeminiReply NoScenarios)), Scripted.backend_down).
Proof.
  apply (@parse_object_in_prose Scripted.platform "Sure: " "" " is all I have"
           Scripted.backend_down); reflexivity.
Defined.

Lemma parse_object_in_fence_witness :
  @Gemini.parseGeminiResponse Scripted.platform
    ("Here you go:" ++ JS.nl ++ "```json" ++ JS.nl ++ "{}" ++ JS.nl ++ "```" ++ " Enjoy {x}")
    Scripted.backend_down
  = (Ok (Some (mkGeminiReply NoScenarios)), Scripted.backend_down).
Proof.
  apply (@parse_object_in_fence Scripted.platform ("Here you go:" ++ JS.nl) JS.nl ""
           JS.nl " Enjoy {x}" Scripted.backend_down); reflexivity.
Defined.

Section RunFacts.
Context `{Platform}.
Import Calls.

(** X19: [generateTestScenarios] returns a text exactly when [fetch]
    answers with a response that is [ok] and whose JSON body has a first
    candidate with a first part: the text is that part.  A response that is
    not [ok] is thrown as [Gemini API error: <status> - <body>], and a body
    without candidates as [No response from Gemini API]. *)
Theorem generateTestScenarios_outcome (config : GeminiConfig) (objective url : string)
    (credentials : option Credentials) (w w' : World) (generatedText : string) :
  let request :=
    mkGeminiRequest (Gemini.buildPrompt objective url credentials)
      (3, 10) 40 (95, 100) 4096 in
  let endpoint :=
    baseUrl config ++ "/v1beta/models/" ++ model config
      ++ ":generateContent?key=" ++ apiKey config in
  (Gemini.generateTestScenarios config objective url credentials w
   = (Ok generatedText, w')
   <-> exists response data c cs ps,
         fetch endpoint request w = (Ok response, w')
         /\ ok response = true /\ json response = Ok data
         /\ candidates data = Some (c :: cs) /\ parts c = generatedText :: ps)
  /\ (forall response,
        fetch endpoint request w = (Ok response, w') -> ok response = false ->
        Gemini.generateTestScenarios config objective url credentials w
        = (Throw (ErrorObj ("Gemini API error: " ++ JS.of_Z (status response)
                              ++ " - " ++ body_text response)), w'))
  /\ (forall response data,
        fetch endpoint request w = (Ok response, w') -> ok response = true ->
        json response = Ok data ->
        candidates data = None \/ candidates data = Some [] ->
        Gemini.generateTestScenarios config objective url credentials w
        = (Throw (ErrorObj "No response from Gemini API"), w')).
Proof.
  intros request endpoint.
  unfold Gemini.generateTestScenarios, try_catch, bind, throw, ret. cbv zeta.
  fold request endpoint.
  destruct (fetch endpoint request w) as [[response|e] w1].
  - split; [| split].
    + destruct (ok response) eqn:Eok; cbn [negb].
      * destruct (json response) as [data|e] eqn:Ej.
        -- destruct (candidates data) as [[|c cs]|] eqn:Ec.
           ++ split; [discriminate|]. intros (r & d & c & cs & ps & [= <- <-] & _ & Hj & Hc & _).
              rewrite Ej in Hj. injection Hj as <-. congruence.
           ++ destruct (parts c) as [|t ps] eqn:Ep.
              ** split; [discriminate|].
                 intros (r & d & c' & cs' & ps' & [= <- <-] & _ & Hj & Hc & Hp).
                 rewrite Ej in Hj. injection Hj as <-. rewrite Ec in Hc.
                 injection Hc as <- <-. congruence.
              ** split.
                 --- intros [= <- <-]. exists response, data, c, cs, ps. auto.
                 --- intros (r & d & c' & cs' & ps' & [= <- <-] & _ & Hj & Hc & Hp).
                     rewrite Ej in Hj. injection Hj as <-. rewrite Ec in Hc.
                     injection Hc as <- <-. rewrite Ep in Hp. injection Hp as <- <-.
                     reflexivity.
           ++ split; [discriminate|]. intros (r & d & c & cs & ps & [= <- <-] & _ & Hj & Hc & _).
              rewrite Ej in Hj. injection Hj as <-. congruence.
        -- split; [discriminate|]. intros (r & d & c & cs & ps & [= <- <-] & _ & Hj & _).
           congruence.
      * split; [discriminate|]. intros (r & d & c & cs & ps & [= <- <-] & Ho & _).
        congruence.
    + intros r [= <- <-] Ho. now rewrite Ho.
    + intros r d [= <- <-] Ho Hj Hc. rewrite Ho, Hj. cbn [negb].
      destruct Hc as [-> | ->]; reflexivity.
  - split; [| split].
    + split; [discriminate|]. intros (r & d & c & cs & ps & [=] & _).
    + intros r [=].
    + intros r d [=].
Qed.

Lemma convert_scenarios_missing_steps (raw : list RawScenario) :
  forallb has_steps raw = false ->
  forall i, exists e,
    LLMCompiler.map_indexed LLMCompiler.convert_scenario raw i = Throw e.
Proof.
  induction raw as [|sc rest IH]; intros Hs i; [discriminate|].
  cbn [forallb] in Hs. cbn [LLMCompiler.map_indexed].
  unfold LLMCompiler.convert_scenario at 1. unfold has_steps at 1 in Hs.
  destruct (raw_steps sc) as [rs|]; [| eauto].
  cbn [andb] in Hs.
  destruct (convert_steps_ok rs 0%nat) as (l & -> & _).
  destruct (IH Hs (S i)) as (e & ->). eauto.
Qed.

(** X20: whenever the text service answers and its reply does not hold a
    scenario array every scenario of which has steps, because the reply cannot
    be parsed, is [null], has no [scenarios], has [scenarios] that is not an
    array, or has a scenario without [steps], [generate] returns the empty
    list; it does not throw. *)
Theorem generate_on_malformed_reply (config : GeminiConfig) (input : PRDIntake)
    (w w1 : World) (reply : string) :
  Gemini.generateTestScenarios config (objective input) (url input)
    (credentials input) w = (Ok reply, w1) ->
  match fst (Gemini.parseGeminiResponse reply w1) with
  | Ok (Some parsed) =>
      match scenarios parsed with
      | ScenarioArray raw => forallb has_steps raw = false
      | _ => True
      end
  | _ => True
  end ->
  fst (LLMCompiler.generateGeminiScenarios config input w) = Ok [].
Proof.
  intros Eg Hm. unfold LLMCompiler.generateGeminiScenarios, try_catch.
  erewrite bind_ok by exact Eg. unfold bind.
  destruct (Gemini.parseGeminiResponse reply w1) as [[[parsed|]|e] w2];
    cbn [fst] in *; try reflexivity.
  destruct (scenarios parsed) as [| |raw]; try reflexivity.
  destruct (convert_scenarios_missing_steps raw Hm 0%nat) as (e & ->). reflexivity.
Qed.

Lemma converted_steps_filled (raw : list RawStep) :
  forall i l,
    LLMCompiler.map_indexed LLMCompiler.convert_step raw i = Ok l ->
    Forall (fun st => action st <> "" /\ target st <> "" /\ description st <> "") l.
Proof.
  induction raw as [|st rest IH]; intros i l; cbn [LLMCompiler.map_indexed].
  - intros [= <-]. constructor.
  - unfold LLMCompiler.convert_step at 1.
    destruct (LLMCompiler.map_indexed LLMCompiler.convert_step rest (S i)) as [l'|e] eqn:E;
      [| discriminate].
    intros [= <-]. constructor; [| now apply (IH (S i))].
    cbn. repeat split.
    + destruct (raw_action st) as [[|]|]; discriminate.
    + destruct (raw_target st) as [[|]|]; discriminate.
    + destruct (raw_description st) as [[|]|]; discriminate.
Qed.

Lemma converted_scenarios_filled (raw : list RawScenario) :
  forall i l,
    LLMCompiler.map_indexed LLMCompiler.convert_scenario raw i = Ok l ->
    Forall (fun sc =>
              id sc <> "" /\ name sc <> "" /\ tags sc <> None
              /\ timeTakenToCompile sc = None
              /\ Forall (fun st => action st <> "" /\ target st <> ""
                                   /\ description st <> "") (steps sc)) l.
Proof.
  induction raw as [|sc rest IH]; intros i l; cbn [LLMCompiler.map_indexed].
  - intros [= <-]. constructor.
  - unfold LLMCompiler.convert_scenario at 1.
    destruct (raw_steps sc) as [rs|]; [| discriminate].
    destruct (LLMCompiler.map_indexed LLMCompiler.convert_step rs 0) as [steps'|e] eqn:Es;
      [| discriminate].
    destruct (LLMCompiler.map_indexed LLMCompiler.convert_scenario rest (S i))
      as [l'|e] eqn:E; [| discriminate].
    intros [= <-]. constructor; [| now apply (IH (S i))].
    cbn. repeat split.
    + destruct (raw_id sc) as [[|]|]; discriminate.
    + destruct (raw_name sc) as [[|]|]; discriminate.
    + discriminate.
    + now apply (converted_steps_filled rs 0%nat).
Qed.

(** X21: in every scenario [generate] returns, the id and the name are not
    empty, the tags are set and [timeTakenToCompile] is not, and the action,
    the target and the description of every step are not empty: a field the
    reply leaves out, or leaves empty, is given its default. *)
Theorem generated_fields_are_filled (config : GeminiConfig) (input : PRDIntake)
    (w : World) :
  exists out w',
    LLMCompiler.generateGeminiScenarios config input w = (Ok out, w')
    /\ Forall (fun sc =>
                 id sc <> "" /\ name sc <> "" /\ tags sc <> None
                 /\ timeTakenToCompile sc = None
                 /\ Forall (fun st => action st <> "" /\ target st <> ""
                                      /\ description st <> "") (steps sc)) out.
Proof.
  unfold LLMCompiler.generateGeminiScenarios, try_catch. unfold bind at 1.
  destruct (Gemini.generateTestScenarios _ _ _ _ w) as [[reply|e] w1];
    [| exists [], w1; split; [reflexivity | constructor]].
  unfold bind.
  destruct (Gemini.parseGeminiResponse reply w1) as [[[parsed|]|e] w2];
    try (exists [], w2; split; [reflexivity | constructor]).
  destruct (scenarios parsed) as [| |raw];
    try (exists [], w2; split; [reflexivity | constructor]).
  destruct (LLMCompiler.map_indexed LLMCompiler.convert_scenario raw 0) as [l|e] eqn:E;
    [| exists [], w2; split; [reflexivity | constructor]].
  exists l, w2. split; [reflexivity|]. now apply (converted_scenarios_filled raw 0%nat).
Qed.

(** X22: [generateScenarios] throws exactly when its input does not pass the
    schema of the intake; it then throws [Invalid input: <errors>] before
    anything is asked of the text service or of the backend. *)
Theorem generateScenarios_throws_iff_invalid (config : GeminiConfig)
    (this : MCPClient) (input : PRDIntake) (sch : Schedule) (w : World) :
  ((exists e w', LLMCompiler.generateScenarios config this input sch w = (Throw e, w'))
   <-> validate_prd_intake input <> None)
  /\ (forall errorsText,
        validate_prd_intake input = Some errorsText ->
        LLMCompiler.generateScenarios config this input sch w
        = (Throw (ErrorObj ("Invalid input: " ++ errorsText)), w)).
Proof.
  split.
  - split.
    + intros (e & w' & E) Hv.
      destruct (generateScenarios_returns config this input sch w Hv)
        as (res & this' & w1 & E1 & _). congruence.
    + intros Hv. destruct (validate_prd_intake input) as [errs|] eqn:Ev; [| congruence].
      exists (ErrorObj ("Invalid input: " ++ errs)), w.
      unfold LLMCompiler.generateScenarios. rewrite Ev. reflexivity.
  - intros errs Ev. unfold LLMCompiler.generateScenarios. rewrite Ev. reflexivity.
Qed.

(** X23: the two snapshots of a run.  With a valid input [generateScenarios]
    returns the scenarios of [generate] as its first snapshot and leaves the
    client disconnected.  The repair is marked successful exactly when the
    connection to the backend succeeded; when it failed, the second snapshot
    holds the scenarios of the first, unchanged.  A run id of the input names
    both snapshots, with the suffixes [_gemini] and [_mcp]. *)
Theorem generateScenarios_snapshots (config : GeminiConfig) (this : MCPClient)
    (input : PRDIntake) (sch : Schedule) (w : World) :
  validate_prd_intake input = None ->
  exists res w',
    LLMCompiler.generateScenarios config this input sch w
    = (Ok (res, new_MCPClient), w')
    /\ Ok (outputs (geminiOutput res))
       = fst (LLMCompiler.generateGeminiScenarios config input w)
    /\ mainOutput res = mcpOutput res
    /\ meta_mcpValidationSuccessful (metadata (mcpOutput res))
       = Some (mcpValidationSuccessful res)
    /\ (mcpValidationSuccessful res = true
        <-> exists u,
              fst (sdk_connect (snd (LLMCompiler.generateGeminiScenarios config input w)))
              = Ok u)
    /\ (mcpValidationSuccessful res = false ->
        outputs (mcpOutput res) = outputs (geminiOutput res))
    /\ (forall r, intake_runId input = Some r -> r <> "" ->
                  run_id (geminiOutput res) = r ++ "_gemini"
                  /\ run_id (mcpOutput res) = r ++ "_mcp").
Proof.
  intros Hv. unfold LLMCompiler.generateScenarios. rewrite Hv.
  destruct (generateGeminiScenarios_returns config input w) as (l & w1 & E).
  unfold now, try_catch. unfold bind at 1. unfold bind at 1. unfold ret at 1.
  unfold bind at 1. rewrite E. unfold bind at 1. unfold bind at 1.
  unfold bind at 1. cbn [snd fst].
  pose proof (connect_cases this w1) as Hc.
  destruct (sdk_connect w1) as [[u|e] w2]; rewrite Hc; cbn [fst].
  - destruct (validateSelectorsWithMCP_returns (mkClient true true true)
                (url input) l sch w2) as (improved & -> & HF).
    unfold bind, ret; cbn.
    eexists; eexists; (split; [reflexivity|]); cbn.
    split; [reflexivity | split; [reflexivity | split; [reflexivity | split; [| split]]]].
    + split; [intros _; now exists u | reflexivity].
    + discriminate.
    + intros r -> Hr. destruct r; [congruence | split; reflexivity].
  - unfold bind, ret; cbn.
    eexists; eexists; (split; [reflexivity|]); cbn.
    split; [reflexivity | split; [reflexivity | split; [reflexivity | split; [| split]]]].
    + split; [discriminate | intros [u Hu]; discriminate].
    + reflexivity.
    + intros r -> Hr. destruct r; [congruence | split; reflexivity].
Qed.

End RunFacts.

Lemma generate_on_malformed_reply_witness :
  fst (@LLMCompiler.generateGeminiScenarios Scripted.platform Scripted.gemini_config
         Scripted.intake ScriptedMore.empty_object_world) = Ok [].
Proof.
  apply (@generate_on_malformed_reply Scripted.platform Scripted.gemini_config
           Scripted.intake ScriptedMore.empty_object_world
           ScriptedMore.empty_object_world "{}").
  - reflexivity.
  - exact I.
Defined.

Lemma generateScenarios_snapshots_witness :
  exists res w',
    @LLMCompiler.generateScenarios Scripted.platform Scripted.gemini_config
      new_MCPClient Scripted.intake
      (@mkSchedule Scripted.platform (fun _ => Scripted.backend_down) Scripted.backend_down)
      Scripted.drag_world = (Ok (res, new_MCPClient), w')
    /\ mcpValidationSuccessful res = false
    /\ outputs (mcpOutput res) = outputs (geminiOutput res).
Proof.
  destruct (@generateScenarios_snapshots Scripted.platform Scripted.gemini_config
              new_MCPClient Scripted.intake
              (@mkSchedule Scripted.platform (fun _ => Scripted.backend_down)
                 Scripted.backend_down)
              Scripted.drag_world eq_refl)
    as (res & w' & E & _ & _ & _ & Hiff & Hsame & _).
  exists res, w'. split; [exact E|].
  assert (mcpValidationSuccessful res = false) as Hf.
  { destruct (mcpValidationSuccessful res); [| reflexivity].
    destruct Hiff as [Hiff _]. destruct (Hiff eq_refl) as [u Hu]. discriminate Hu. }
  split; [exact Hf | exact (Hsame Hf)].
Defined.

(** The page objects of a scenario that opens two pages of a shop and a
    login page. *)
Example page_objects_of_shopping :
  CombinedServer.generatePageObjects ScriptedMore.shopping
  = ["pages/ShopPage.ts"; "pages/LoginPage.ts"].
Proof. reflexivity. Qed.
